(** * SendEML (sendeml.ts): byte-exact mail rewriting and SMTP reply classification

    A shallow embedding of sendeml.ts.  The text embedded is the revision
    of the file that defines [padZero2], [makeTimeZoneOffset] and
    [hasNextLfCrLf] (the second file of src/unnamed/part_000).  The revision
    at src/src/sendeml.ts is the same program but for
    - the names [getRawLines], [findCrIndex], [findLfIndex] and
      [findAllLfIndices] of [getLines], [findCr], [findLf] and [findAllLf];
    - its [findEmptyLine], which tests the bounds and the three bytes in
      line and stops at the first CR too close to the end;
    - the way [replaceLine] and [replaceHeader] are written down (a
      conditional expression, [p1.concat([p2], p3)]), with the same value;
    - its [makeNowDateLine], which formats the offset in line
      ([lzero(offset / 60) + lzero(offset % 60)] after a literal "+") and
      has no [padZero2] or [makeTimeZoneOffset].
    Module [Sendeml_src] embeds the first two and relates them to the
    functions here.

    Conventions of the embedding:
    - a [Uint8Array] is a [list byte]; a JavaScript array is a [list];
    - indices are [Z], so that the [-1] of [indexOf] / [findIndex] and the
      relative (negative) arguments of [slice] are the ones of the source;
    - [throw] is the [Throw] constructor of [Outcome];
    - the clock behind [new Date] and the draws of [Math.random] are
      arguments ([Host]);
    - [while (true)] loops take fuel; each is given enough fuel and is
      shown never to exhaust it. *)

From Stdlib Require Import ZArith List Bool Lia String Ascii DecimalString.
From Stdlib Require Import Strings.Byte.
From Stdlib Require Import Sorted.
Import ListNotations.

Local Open Scope Z_scope.

(** ** Exceptions *)

Inductive Outcome (A : Type) : Type :=
| Ok (a : A)
| Throw (msg : string).

Arguments Ok {A} a.
Arguments Throw {A} msg.

Definition bind {A B : Type} (m : Outcome A) (k : A -> Outcome B) : Outcome B :=
  match m with
  | Ok a => k a
  | Throw msg => Throw msg
  end.

Notation "x <- m ;; k" := (bind m (fun x => k))
  (at level 61, m at next level, right associativity).

(** ** JavaScript primitives used by the program *)

Definition Uint8Array := list byte.
Definition Lines := list Uint8Array.

Definition len {A : Type} (l : list A) : Z := Z.of_nat (List.length l).

(** [a[i]]: [undefined] (here [None]) outside the array. *)
Definition at_ {A : Type} (l : list A) (i : Z) : option A :=
  if i <? 0 then None else nth_error l (Z.to_nat i).

(** The relative index of [slice] and [indexOf]: a negative index counts
    from the end, and the result is clamped to [0, length]. *)
Definition relIndex (n i : Z) : Z :=
  if i <? 0 then Z.max (n + i) 0 else Z.min i n.

(** [a.slice(start, end)], for typed arrays, arrays and strings alike. *)
Definition slice {A : Type} (l : list A) (start end_ : Z) : list A :=
  let from := relIndex (len l) start in
  let to := relIndex (len l) end_ in
  firstn (Z.to_nat (to - from)) (skipn (Z.to_nat from) l).

(** [a.slice(start)]. *)
Definition sliceFrom {A : Type} (l : list A) (start : Z) : list A :=
  slice l start (len l).

Fixpoint indexOfAux (v : byte) (l : Uint8Array) (i : Z) : Z :=
  match l with
  | [] => -1
  | x :: t => if Byte.eqb x v then i else indexOfAux v t (i + 1)
  end.

(** [buf.indexOf(v, offset)]. *)
Definition indexOf (buf : Uint8Array) (v : byte) (offset : Z) : Z :=
  if offset >=? len buf then -1
  else
    let k := if offset <? 0 then Z.max (len buf + offset) 0 else offset in
    indexOfAux v (skipn (Z.to_nat k) buf) k.

Fixpoint findIndexAux {A : Type} (p : A -> bool) (l : list A) (i : Z) : Z :=
  match l with
  | [] => -1
  | x :: t => if p x then i else findIndexAux p t (i + 1)
  end.

(** [a.findIndex(p)]. *)
Definition findIndex {A : Type} (p : A -> bool) (l : list A) : Z :=
  findIndexAux p l 0.

(** [a.findIndex(p)] for a callback that may throw. *)
Fixpoint findIndexMAux {A : Type} (p : A -> Outcome bool) (l : list A) (i : Z)
  : Outcome Z :=
  match l with
  | [] => Ok (-1)
  | x :: t => b <- p x ;; if b then Ok i else findIndexMAux p t (i + 1)
  end.

Definition findIndexM {A : Type} (p : A -> Outcome bool) (l : list A) : Outcome Z :=
  findIndexMAux p l 0.

Fixpoint everyAux {A : Type} (p : A -> Z -> bool) (l : list A) (i : Z) : bool :=
  match l with
  | [] => true
  | x :: t => if p x i then everyAux p t (i + 1) else false
  end.

(** [a.every((v, i) => p(v, i))]. *)
Definition every {A : Type} (p : A -> Z -> bool) (l : list A) : bool :=
  everyAux p l 0.

(** [v === a[i]] for a byte [v]: never true when [a[i]] is [undefined]. *)
Definition eqAt (v : byte) (o : option byte) : bool :=
  match o with
  | Some b => Byte.eqb v b
  | None => false
  end.

(** [new TextEncoder().encode(s)]: a [string] is held as its UTF-8 bytes. *)
Definition encode (s : string) : Uint8Array := list_byte_of_string s.

(** ** Constants *)

Definition CR : byte := x0d.
Definition LF : byte := x0a.
Definition SPACE : byte := x20.
Definition HTAB : byte := x09.
Definition CRLF : string := String "013" (String "010" EmptyString).

Definition DATE_BYTES : Uint8Array := encode "Date:".
Definition MESSAGE_ID_BYTES : Uint8Array := encode "Message-ID:".

Definition isNotUpdate (updateDate updateMessageId : bool) : bool :=
  negb updateDate && negb updateMessageId.

(** ** Line decomposition *)

Definition findCr (buf : Uint8Array) (offset : Z) : Z := indexOf buf CR offset.
Definition findLf (buf : Uint8Array) (offset : Z) : Z := indexOf buf LF offset.

(** The loop of [findAllLf]; [indices] is the array being pushed to. *)
Fixpoint findAllLf_loop (fuel : nat) (buf : Uint8Array) (offset : Z)
  (indices : list Z) : list Z :=
  match fuel with
  | O => indices
  | S fuel' =>
      let idx := findLf buf offset in
      if idx =? -1 then indices
      else findAllLf_loop fuel' buf (idx + 1) (indices ++ [idx])
  end.

Definition findAllLf (buf : Uint8Array) : list Z :=
  findAllLf_loop (S (List.length buf)) buf 0 [].

(** The [map] of [getLines]; [offset] is the variable its callback updates. *)
Fixpoint getLines_map (bytes : Uint8Array) (offset : Z) (idxs : list Z) : Lines :=
  match idxs with
  | [] => []
  | i :: rest => slice bytes offset (i + 1) :: getLines_map bytes (i + 1) rest
  end.

Definition getLines (bytes : Uint8Array) : Lines :=
  getLines_map bytes 0 (findAllLf bytes ++ [len bytes - 1]).

(** [buf.set(b, offset)]: a [RangeError] when [b] does not fit. *)
Definition set (buf b : Uint8Array) (offset : Z) : Outcome Uint8Array :=
  if (offset <? 0) || (len buf <? offset + len b) then Throw "offset is out of bounds"
  else Ok (firstn (Z.to_nat offset) buf ++ b
             ++ skipn (Z.to_nat (offset + len b)) buf).

(** The [forEach] of [concatBytes], on the pair (buf, offset). *)
Fixpoint concatBytes_forEach (bytesArray : Lines) (buf : Uint8Array) (offset : Z)
  : Outcome Uint8Array :=
  match bytesArray with
  | [] => Ok buf
  | b :: rest =>
      buf' <- set buf b offset ;;
      concatBytes_forEach rest buf' (offset + len b)
  end.

Definition concatBytes (bytesArray : Lines) : Outcome Uint8Array :=
  let total := fold_left (fun acc b => acc + len b) bytesArray 0 in
  concatBytes_forEach bytesArray (repeat x00 (Z.to_nat total)) 0.

(** ** Header field matching and folding *)

Definition matchHeader (line header : Uint8Array) : Outcome bool :=
  if len header =? 0 then Throw "header is empty"
  else if len line <? len header then Ok false
  else Ok (every (fun v i => eqAt v (at_ line i)) header).

Definition isDateLine (line : Uint8Array) : Outcome bool :=
  matchHeader line DATE_BYTES.

Definition isMessageIdLine (line : Uint8Array) : Outcome bool :=
  matchHeader line MESSAGE_ID_BYTES.

Definition isWsp (b : byte) : bool :=
  Byte.eqb b SPACE || Byte.eqb b HTAB.

(** [isWsp(bytes[0] ?? 0)]. *)
Definition isFoldedLine (bytes : Uint8Array) : bool :=
  isWsp (match at_ bytes 0 with Some b => b | None => x00 end).

Definition dropFoldedLine (lines : Lines) : Lines :=
  let idx := findIndex (fun l => negb (isFoldedLine l)) lines in
  if idx <=? 0 then lines else sliceFrom lines idx.

(** ** Line generators *)

(** [String(n)] for an integer [n]. *)
Definition numberToString (n : Z) : string :=
  NilZero.string_of_int (Z.to_int n).

(** [s.slice(start)] on a string. *)
Definition strSliceFrom (s : string) (start : Z) : string :=
  string_of_list_ascii (sliceFrom (list_ascii_of_string s) start).

(** [s.charAt(k)]: the empty string outside [s]. *)
Definition charAt (s : string) (k : nat) : string :=
  match String.get k s with
  | Some c => String c EmptyString
  | None => EmptyString
  end.

(** A template literal renders [undefined] by its name. *)
Definition orUndefined (o : option string) : string :=
  match o with
  | Some s => s
  | None => "undefined"%string
  end.

Definition padZero2 (n : Z) : Outcome string :=
  if (n <? 0) || (n >? 99) then Throw "invalid number"
  else Ok (strSliceFrom ("0" ++ numberToString n) (-2)).

Definition makeTimeZoneOffset (min : Z) : Outcome string :=
  if (min <? -840) || (min >? 720) then Throw "invalid number"
  else
    first <- padZero2 (Z.abs min / 60) ;;
    last <- padZero2 (Z.abs min mod 60) ;;
    let sign := if min <=? 0 then "+"%string else "-"%string in
    Ok (sign ++ first ++ last)%string.

(** What [new Date] answers to the getters the program calls. *)
Record DateObj : Type := {
  getDay : Z;
  getDate : Z;
  getMonth : Z;
  getFullYear : Z;
  getHours : Z;
  getMinutes : Z;
  getSeconds : Z;
  getTimezoneOffset : Z
}.

Definition dayNames : list string :=
  ["Sun"; "Mon"; "Tue"; "Wed"; "Thu"; "Fri"; "Sat"]%string.

Definition monthNames : list string :=
  ["Jan"; "Feb"; "Mar"; "Apr"; "May"; "Jun";
   "Jul"; "Aug"; "Sep"; "Oct"; "Nov"; "Dec"]%string.

Definition makeNowDateLine (obj : DateObj) : Outcome string :=
  let day := orUndefined (at_ dayNames (getDay obj)) in
  date <- padZero2 (getDate obj) ;;
  let month := orUndefined (at_ monthNames (getMonth obj)) in
  let year := numberToString (getFullYear obj) in
  hours <- padZero2 (getHours obj) ;;
  minutes <- padZero2 (getMinutes obj) ;;
  seconds <- padZero2 (getSeconds obj) ;;
  zone <- makeTimeZoneOffset (getTimezoneOffset obj) ;;
  Ok ("Date: " ++ day ++ ", " ++ date ++ " " ++ month ++ " " ++ year ++ " "
        ++ hours ++ ":" ++ minutes ++ ":" ++ seconds ++ " " ++ zone ++ CRLF)%string.

Definition messageIdAlphabet : string :=
  "abcdefghijklmnopqrstuvwxyzABCDEFGHIJKLMNOPQRSTUVWXYZ0123456789".

(** [draw k] is [Math.floor(Math.random() * s.length)] at the k-th call. *)
Definition makeRandomMessageIdLine (draw : nat -> nat) : string :=
  let randStr :=
    String.concat "" (map (fun k => charAt messageIdAlphabet (draw k)) (seq 0 62)) in
  ("Message-ID: <" ++ randStr ++ ">" ++ CRLF)%string.

(** The clock and the random source of one run. *)
Record Host : Type := {
  now : DateObj;
  random : nat -> nat
}.

(** ** Header rewrite *)

Definition replaceLine (lines : Lines) (matchLine : Uint8Array -> Outcome bool)
  (makeLine : unit -> Outcome string) : Outcome Lines :=
  idx <- findIndexM matchLine lines ;;
  if idx =? -1 then Ok lines
  else
    let p1 := slice lines 0 idx in
    s <- makeLine tt ;;
    let p2 := [encode s] in
    let p3 := dropFoldedLine (sliceFrom lines (idx + 1)) in
    Ok (p1 ++ p2 ++ p3).

Definition replaceDateLine (host : Host) (lines : Lines) : Outcome Lines :=
  replaceLine lines isDateLine (fun _ => makeNowDateLine (now host)).

Definition replaceMessageIdLine (host : Host) (lines : Lines) : Outcome Lines :=
  replaceLine lines isMessageIdLine
    (fun _ => Ok (makeRandomMessageIdLine (random host))).

Definition replaceHeader (host : Host) (header : Uint8Array)
  (updateDate updateMessageId : bool) : Outcome Uint8Array :=
  let replace :=
    let lines := getLines header in
    let (d, m) := (updateDate, updateMessageId) in
    if d && m then
      (l1 <- replaceDateLine host lines ;; replaceMessageIdLine host l1)
    else if d && negb m then replaceDateLine host lines
    else if negb d && m then replaceMessageIdLine host lines
    else Ok lines in
  newLines <- replace ;;
  concatBytes newLines.

(** ** Mail splitting and reassembly *)

Definition EMPTY_LINE : Uint8Array := [CR; LF; CR; LF].

Definition combineMail (header body : Uint8Array) : Outcome Uint8Array :=
  concatBytes [header; EMPTY_LINE; body].

Definition hasNextLfCrLf (bytes : Uint8Array) (idx : Z) : bool :=
  if len bytes <? idx + 4 then false
  else
    let next := [LF; CR; LF] in
    every (fun v i => eqAt v (at_ bytes (i + idx + 1))) next.

Fixpoint findEmptyLine_loop (fuel : nat) (bytes : Uint8Array) (offset : Z) : Z :=
  match fuel with
  | O => -1
  | S fuel' =>
      let idx := findCr bytes offset in
      if idx =? -1 then -1
      else if hasNextLfCrLf bytes idx then idx
      else findEmptyLine_loop fuel' bytes (idx + 1)
  end.

Definition findEmptyLine (bytes : Uint8Array) : Z :=
  findEmptyLine_loop (S (List.length bytes)) bytes 0.

(** [{ok: false}] is [None]; [{ok: true, res: [header, body]}] is [Some]. *)
Definition splitMail (bytes : Uint8Array) : option (Uint8Array * Uint8Array) :=
  let idx := findEmptyLine bytes in
  if idx =? -1 then None
  else
    let header := slice bytes 0 idx in
    let body := slice bytes (idx + len EMPTY_LINE) (len bytes) in
    Some (header, body).

(** The part of [replaceMail] after its first test. *)
Definition replaceMail_rewrite (host : Host) (bytes : Uint8Array)
  (updateDate updateMessageId : bool) : Outcome (option Uint8Array) :=
  match splitMail bytes with
  | None => Ok None
  | Some (header, body) =>
      replHeader <- replaceHeader host header updateDate updateMessageId ;;
      res <- combineMail replHeader body ;;
      Ok (Some res)
  end.

(** [replaceMail] on values: [{ok: false}] is [None]. *)
Definition replaceMail (host : Host) (bytes : Uint8Array)
  (updateDate updateMessageId : bool) : Outcome (option Uint8Array) :=
  if isNotUpdate updateDate updateMessageId then Ok (Some bytes)
  else replaceMail_rewrite host bytes updateDate updateMessageId.

(** *** [replaceMail] on references

    A [Uint8Array] is an object: the program holds a reference to it.  The
    store maps a reference (a position) to the bytes of the buffer it
    names, and [new Uint8Array] extends the store.  Of the buffers the
    rewrite allocates only the one it returns is recorded, the others being
    unreachable once [replaceMail] has returned. *)

Definition Ref := nat.
Definition Store := list Uint8Array.

Definition deref (st : Store) (r : Ref) : Uint8Array := nth r st [].

Definition alloc (st : Store) (b : Uint8Array) : Ref * Store :=
  (List.length st, st ++ [b]).

Definition replaceMail_ref (host : Host) (st : Store) (bytes : Ref)
  (updateDate updateMessageId : bool) : Outcome (option Ref) * Store :=
  if isNotUpdate updateDate updateMessageId then (Ok (Some bytes), st)
  else
    match replaceMail_rewrite host (deref st bytes) updateDate updateMessageId with
    | Ok (Some res) => let (r, st') := alloc st res in (Ok (Some r), st')
    | Ok None => (Ok None, st)
    | Throw msg => (Throw msg, st)
    end.

(** ** SMTP reply classification *)

(** A JavaScript string is a sequence of UTF-16 code units. *)
Definition JsString := list N.

Definition codeUnits (s : string) : JsString :=
  map N_of_ascii (list_ascii_of_string s).

(** The regular expressions the program needs: a sequence of atoms, each
    taken a fixed number of times or once or more, anchored or not. *)
Inductive Atom : Type :=
| Digit            (* \d *)
| Char (c : N)     (* a literal code unit *)
| Dot.             (* . *)

Inductive Item : Type :=
| Times (n : nat) (a : Atom)   (* a{n} *)
| Plus (a : Atom).             (* a+ *)

Record RegExp : Type := {
  anchored : bool;              (* a leading ^ *)
  items : list Item
}.

Local Open Scope N_scope.

Definition isLineTerminator (c : N) : bool :=
  (c =? 10) || (c =? 13) || (c =? 8232) || (c =? 8233).

Definition matchAtom (a : Atom) (c : N) : bool :=
  match a with
  | Digit => (48 <=? c) && (c <=? 57)
  | Char d => c =? d
  | Dot => negb (isLineTerminator c)
  end.

Local Close Scope N_scope.

Fixpoint matchTimes (n : nat) (a : Atom) (k : JsString -> bool) (s : JsString) : bool :=
  match n with
  | O => k s
  | S n' =>
      match s with
      | c :: s' => matchAtom a c && matchTimes n' a k s'
      | [] => false
      end
  end.

Fixpoint matchPlus (a : Atom) (k : JsString -> bool) (s : JsString) : bool :=
  match s with
  | c :: s' => matchAtom a c && (matchPlus a k s' || k s')
  | [] => false
  end.

(** Does a prefix of the string match the items? *)
Fixpoint matchItems (its : list Item) : JsString -> bool :=
  match its with
  | [] => fun _ => true
  | Times n a :: rest => matchTimes n a (matchItems rest)
  | Plus a :: rest => matchPlus a (matchItems rest)
  end.

Fixpoint matchSomewhere (its : list Item) (s : JsString) : bool :=
  matchItems its s
  || match s with
     | [] => false
     | _ :: s' => matchSomewhere its s'
     end.

(** [re.test(s)] for a regular expression without flags. *)
Definition test (re : RegExp) (s : JsString) : bool :=
  if anchored re then matchItems (items re) s else matchSomewhere (items re) s.

(** [/^\d{3} .+/] *)
Definition LAST_REPLY_REGEX : RegExp :=
  {| anchored := true; items := [Times 3 Digit; Times 1 (Char 32%N); Plus Dot] |}.

Definition isLastReply (line : JsString) : bool :=
  test LAST_REPLY_REGEX line.

(** [s === t] on strings. *)
Definition strEq (s t : JsString) : bool :=
  if list_eq_dec N.eq_dec s t then true else false.

Definition isPositiveReply (line : JsString) : bool :=
  let first := match at_ line 0 with Some c => [c] | None => [] end in
  strEq first (codeUnits "2") || strEq first (codeUnits "3").

(** ** The functions of src/src/sendeml.ts named or written otherwise *)

Module Sendeml_src.

Definition findCrIndex (buf : Uint8Array) (offset : Z) : Z := indexOf buf CR offset.
Definition findLfIndex (buf : Uint8Array) (offset : Z) : Z := indexOf buf LF offset.

Fixpoint findAllLfIndices_loop (fuel : nat) (buf : Uint8Array) (offset : Z)
  (indices : list Z) : list Z :=
  match fuel with
  | O => indices
  | S fuel' =>
      let idx := findLfIndex buf offset in
      if idx =? -1 then indices
      else findAllLfIndices_loop fuel' buf (idx + 1) (indices ++ [idx])
  end.

Definition findAllLfIndices (buf : Uint8Array) : list Z :=
  findAllLfIndices_loop (S (List.length buf)) buf 0 [].

Definition getRawLines (bytes : Uint8Array) : Lines :=
  getLines_map bytes 0 (findAllLfIndices bytes ++ [len bytes - 1]).

(** The loop stops at the first CR with fewer than three bytes after it. *)
Fixpoint findEmptyLine_loop (fuel : nat) (bytes : Uint8Array) (offset : Z) : Z :=
  match fuel with
  | O => -1
  | S fuel' =>
      let idx := findCrIndex bytes offset in
      if (idx =? -1) || (idx + 3 >=? len bytes) then -1
      else if eqAt LF (at_ bytes (idx + 1)) && eqAt CR (at_ bytes (idx + 2))
              && eqAt LF (at_ bytes (idx + 3))
      then idx
      else findEmptyLine_loop fuel' bytes (idx + 1)
  end.

Definition findEmptyLine (bytes : Uint8Array) : Z :=
  findEmptyLine_loop (S (List.length bytes)) bytes 0.

Definition splitMail (bytes : Uint8Array) : option (Uint8Array * Uint8Array) :=
  let idx := findEmptyLine bytes in
  if idx =? -1 then None
  else
    let header := slice bytes 0 idx in
    let body := slice bytes (idx + len EMPTY_LINE) (len bytes) in
    Some (header, body).

End Sendeml_src.

(** ** The Date line of src/src/sendeml.ts

    This revision formats the offset in line, with [lzero] for every
    number.  [offset / 60] need not be an integer; what JavaScript prints
    for the quotient when 60 does not divide the offset is left as the
    parameter [fractionText]. *)

Module Sendeml_src_date.

Section Formatting.

Variable fractionText : Z -> string.

(** [('0' + n).slice(-2)], on the text of [n]. *)
Definition lzeroText (text : string) : string :=
  strSliceFrom ("0" ++ text) (-2).

(** [lzero(n)] for an integer [n]. *)
Definition lzero (n : Z) : string := lzeroText (numberToString n).

(** [lzero(offset / 60) + lzero(offset % 60)]; [%] takes the sign of the
    dividend. *)
Definition timezone (offset : Z) : string :=
  let quotient := if offset mod 60 =? 0 then numberToString (offset / 60)
                  else fractionText offset in
  (lzeroText quotient ++ lzero (Z.rem offset 60))%string.

Definition makeNowDateLine (obj : DateObj) : string :=
  let day := orUndefined (at_ dayNames (getDay obj)) in
  let date := lzero (getDate obj) in
  let month := orUndefined (at_ monthNames (getMonth obj)) in
  let year := numberToString (getFullYear obj) in
  let hours := lzero (getHours obj) in
  let minutes := lzero (getMinutes obj) in
  let seconds := lzero (getSeconds obj) in
  let offset := - getTimezoneOffset obj in
  ("Date: " ++ day ++ ", " ++ date ++ " " ++ month ++ " " ++ year ++ " "
     ++ hours ++ ":" ++ minutes ++ ":" ++ seconds ++ " +" ++ timezone offset
     ++ CRLF)%string.

End Formatting.

End Sendeml_src_date.

(** ** The rewrite of the first revision (the first file of
    src/unnamed/part_000)

    There [replaceHeader] works on the array of lines in place: the
    matching line is overwritten and the folded lines after it are
    overwritten by empty arrays. *)

Module Sendeml_first.

(** [lines[i] = v] for an index inside the array (the only ones the
    program uses: [i] comes from [findIndex] or is below [lines.length]). *)
Definition setAt {A : Type} (l : list A) (i : Z) (v : A) : list A :=
  if (0 <=? i) && (i <? len l) then
    firstn (Z.to_nat i) l ++ v :: skipn (S (Z.to_nat i)) l
  else l.

(** [header[i] !== line[i]]. *)
Definition differAt (header line : Uint8Array) (i : Z) : bool :=
  match at_ header i, at_ line i with
  | Some a, Some b => negb (Byte.eqb a b)
  | None, None => false
  | _, _ => true
  end.

(** The [for] loop of [matchHeaderField], with [n] rounds left. *)
Fixpoint matchHeaderField_loop (n : nat) (line header : Uint8Array) (i : Z) : bool :=
  match n with
  | O => true
  | S n' =>
      if differAt header line i then false
      else matchHeaderField_loop n' line header (i + 1)
  end.

Definition matchHeaderField (line header : Uint8Array) : bool :=
  if len line <? len header then false
  else matchHeaderField_loop (List.length header) line header 0.

(** The [for] loop of [removeFolding]. *)
Fixpoint removeFolding_loop (fuel : nat) (lines : Lines) (i : Z) : Lines :=
  match fuel with
  | O => lines
  | S fuel' =>
      if i <? len lines then
        if isFoldedLine (match at_ lines i with Some l => l | None => [] end) then
          removeFolding_loop fuel' (setAt lines i []) (i + 1)
        else lines
      else lines
  end.

Definition removeFolding (lines : Lines) (idx : Z) : Lines :=
  removeFolding_loop (List.length lines) lines idx.

(** The array after [replaceLine(lines, update, matchLine, makeLine)]. *)
Definition replaceLine (lines : Lines) (update : bool)
  (matchLine : Uint8Array -> bool) (makeLine : unit -> string) : Lines :=
  if update then
    let idx := findIndex matchLine lines in
    if negb (idx =? -1) then
      let lines1 := setAt lines idx (encode (makeLine tt)) in
      removeFolding lines1 (idx + 1)
    else lines
  else lines.

End Sendeml_first.

(** ** Notions used to state the properties *)

(** The physical lines of a buffer, by recursion on the bytes: a line ends
    with its LF; what follows the last LF is a line too, even when empty. *)
Fixpoint physicalLines (b : Uint8Array) : Lines :=
  match b with
  | [] => [[]]
  | c :: t =>
      if Byte.eqb c LF then [c] :: physicalLines t
      else
        match physicalLines t with
        | l :: ls => (c :: l) :: ls
        | [] => [[c]]
        end
  end.

(** [line] begins with the bytes [name]. *)
Fixpoint beginsWith (name line : Uint8Array) : bool :=
  match name, line with
  | [], _ => true
  | _ :: _, [] => false
  | n :: name', c :: line' => Byte.eqb n c && beginsWith name' line'
  end.

Fixpoint takeWhile {A : Type} (p : A -> bool) (l : list A) : list A :=
  match l with
  | [] => []
  | x :: t => if p x then x :: takeWhile p t else []
  end.

Fixpoint dropWhile {A : Type} (p : A -> bool) (l : list A) : list A :=
  match l with
  | [] => []
  | x :: t => if p x then dropWhile p t else l
  end.

(** The number of lines that begin with [name]. *)
Definition countLines (name : Uint8Array) (lines : Lines) : nat :=
  List.length (filter (beginsWith name) lines).

(** The first field called [name]: its line and the folded lines after it. *)
Fixpoint fieldOf (name : Uint8Array) (lines : Lines) : option Lines :=
  match lines with
  | [] => None
  | l :: rest =>
      if beginsWith name l then Some (l :: takeWhile isFoldedLine rest)
      else fieldOf name rest
  end.

(** The lines after the first line that begins with [name]. *)
Fixpoint linesAfter (name : Uint8Array) (lines : Lines) : Lines :=
  match lines with
  | [] => []
  | l :: rest => if beginsWith name l then rest else linesAfter name rest
  end.

(** After the first line that begins with [name] comes no line at all, or
    some line that is not folded: the field called [name] is not a folded
    field whose continuation lines end the header. *)
Definition unfoldedFollows (name : Uint8Array) (lines : Lines) : bool :=
  match linesAfter name lines with
  | [] => true
  | post => negb (forallb isFoldedLine post)
  end.

(** [f] holds of no folded line. *)
Definition skipsFolded (f : Uint8Array -> bool) : Prop :=
  forall l, isFoldedLine l = true -> f l = false.

(** A line closed by its LF, and a last line without any. *)
Definition closedLine (l : Uint8Array) : Prop :=
  exists p, l = p ++ [LF] /\ ~ In LF p.

Definition openLine (l : Uint8Array) : Prop := ~ In LF l.

(** Lists of lines that are closed, but for a last one that may be open:
    the lists that [getLines] returns and the rewrite keeps. *)
Inductive LineShape : Lines -> Prop :=
| shape_nil : LineShape []
| shape_open (o : Uint8Array) : openLine o -> LineShape [o]
| shape_cons (c : Uint8Array) (ls : Lines) :
    closedLine c -> LineShape ls -> LineShape (c :: ls).

(** [lines'] is [lines] with its first line beginning with [name], if
    any, replaced by [newLine], and the lines after it passed through
    [dropFoldedLine]. *)
Definition rewritten (name newLine : Uint8Array) (lines lines' : Lines) : Prop :=
  (forallb (fun l => negb (beginsWith name l)) lines = true /\ lines' = lines)
  \/ (exists pre x post,
        lines = pre ++ x :: post
        /\ forallb (fun l => negb (beginsWith name l)) pre = true
        /\ beginsWith name x = true
        /\ lines' = pre ++ newLine :: dropFoldedLine post).

(** [out] is [header] with nothing changed outside its first field called
    [name]: either it is [header], or the line of that field and some of
    the folded lines after it have given way to a single new line. *)
Definition onlyFieldChanged (name header out : Uint8Array) : Prop :=
  out = header
  \/ (exists pre fieldLine folded post newLine,
        getLines header = pre ++ fieldLine :: folded ++ post
        /\ forallb (fun l => negb (beginsWith name l)) pre = true
        /\ beginsWith name fieldLine = true
        /\ forallb isFoldedLine folded = true
        /\ out = List.concat pre ++ newLine ++ List.concat post).

(** The offset of the first CR LF CR LF of a buffer, by recursion on it. *)
Fixpoint firstEmptyLine (b : Uint8Array) : option nat :=
  match b with
  | [] => None
  | _ :: t =>
      if beginsWith EMPTY_LINE b then Some O
      else option_map S (firstEmptyLine t)
  end.

(** CR LF CR LF occurs in [b] at offset [i]. *)
Definition emptyLineAt (b : Uint8Array) (i : nat) : Prop :=
  firstn 4 (skipn i b) = EMPTY_LINE.

Definition hasEmptyLine (b : Uint8Array) : bool :=
  match firstEmptyLine b with
  | Some _ => true
  | None => false
  end.

(** The two decimal digits of a number below 100. *)
Definition digitChar (d : Z) : ascii :=
  ascii_of_nat (48 + Z.to_nat d).

Definition twoDigits (n : Z) : string :=
  String (digitChar (n / 10)) (String (digitChar (n mod 10)) EmptyString).

(** The lines left once the folded lines at the front are dropped. *)
Definition unfoldedTail (lines : Lines) : Lines := dropWhile isFoldedLine lines.

(** Three digits, a space, a character that is not a line terminator, and
    anything after it: the strings that [/^\d{3} .+/] describes. *)
Definition lastReplyShape (line : JsString) : Prop :=
  exists d1 d2 d3 c rest,
    line = d1 :: d2 :: d3 :: 32%N :: c :: rest
    /\ matchAtom Digit d1 = true /\ matchAtom Digit d2 = true
    /\ matchAtom Digit d3 = true /\ isLineTerminator c = false.

(** [padZero2 k] returns the two digits of [k]. *)
Definition padZero2_agrees (k : nat) : bool :=
  match padZero2 (Z.of_nat k) with
  | Ok s => String.eqb s (twoDigits (Z.of_nat k))
  | Throw _ => false
  end.

(** No LF among the characters of a string. *)
Definition lfFree (s : string) : bool :=
  forallb (fun c => negb (Ascii.eqb c "010")) (list_ascii_of_string s).

(** A clock as [new Date] gives it: every getter within its range. *)
Definition validDate (obj : DateObj) : Prop :=
  0 <= getDay obj <= 6 /\ 1 <= getDate obj <= 31 /\ 0 <= getMonth obj <= 11
  /\ 0 <= getHours obj <= 23 /\ 0 <= getMinutes obj <= 59
  /\ 0 <= getSeconds obj <= 59 /\ -840 <= getTimezoneOffset obj <= 720.

(** The offsets of the LF bytes of a buffer whose first byte has offset
    [i], by recursion on the buffer. *)
Fixpoint lfOffsetsFrom (b : Uint8Array) (i : Z) : list Z :=
  match b with
  | [] => []
  | c :: t =>
      if Byte.eqb c LF then i :: lfOffsetsFrom t (i + 1)
      else lfOffsetsFrom t (i + 1)
  end.

(** The getters that [padZero2] and [makeTimeZoneOffset] accept. *)
Definition formattable (obj : DateObj) : Prop :=
  0 <= getDate obj <= 99 /\ 0 <= getHours obj <= 99 /\ 0 <= getMinutes obj <= 99
  /\ 0 <= getSeconds obj <= 99 /\ -840 <= getTimezoneOffset obj <= 720.

(** The text of the Date line for the getters of [obj]. *)
Definition dateLineText (obj : DateObj) : string :=
  ("Date: " ++ orUndefined (at_ dayNames (getDay obj)) ++ ", "
     ++ twoDigits (getDate obj) ++ " "
     ++ orUndefined (at_ monthNames (getMonth obj)) ++ " "
     ++ numberToString (getFullYear obj) ++ " "
     ++ twoDigits (getHours obj) ++ ":" ++ twoDigits (getMinutes obj) ++ ":"
     ++ twoDigits (getSeconds obj) ++ " "
     ++ ((if Z.leb (getTimezoneOffset obj) 0 then "+" else "-")
           ++ twoDigits (Z.abs (getTimezoneOffset obj) / 60)
           ++ twoDigits (Z.abs (getTimezoneOffset obj) mod 60))
     ++ CRLF)%string.

(** A four-digit year prints as four characters. *)
Definition fourChars (k : nat) : bool :=
  Nat.eqb (String.length (numberToString (1000 + Z.of_nat k))) 4.

(** The alphabet has a character at position [k]. *)
Definition inAlphabet (k : nat) : bool :=
  match String.get k messageIdAlphabet with
  | Some _ => true
  | None => false
  end.

(** ** The SMTP session

    The connection, the console and the files are the state the session
    acts on.  The server is a script: the lines that [readLine] will return,
    already decoded, and then end-of-stream ([null]).  Writes to the
    connection succeed.  What [Deno.stat] and [Deno.readFile] answer for a
    path is given ([Files]), exceptions included. *)

Record ErrorResult : Type := {
  ok : bool;
  msg : option JsString
}.

Definition makeError (m : JsString) : ErrorResult :=
  {| ok := false; msg := Some m |}.

(** A line written by [console.log]: the pieces it concatenates. *)
Inductive LogEntry : Type :=
| LogSend (prefix text : string)              (* prefix + "send: " + text *)
| LogRecv (prefix : string) (line : JsString) (* prefix + "recv: " + line *)
| LogText (text : string).

Record Session : Type := {
  wire : list Uint8Array;      (* the buffers written to the connection *)
  reader : list JsString;      (* the lines still to be read *)
  closed : bool;               (* Deno.close was called *)
  console : list LogEntry
}.

Record Files : Type := {
  statIsFile : string -> Outcome bool;       (* (await Deno.stat(path)).isFile *)
  readFile : string -> Outcome Uint8Array    (* await Deno.readFile(path) *)
}.

Record Settings : Type := {
  smtpHost : string;
  smtpPort : Z;
  fromAddress : string;
  toAddresses : list string;
  emlFiles : list string;
  updateDate : bool;
  updateMessageId : bool;
  useParallel : bool
}.

(** An action on the session that may throw; the state survives a throw,
    as [finally] needs. *)
Definition IO (A : Type) : Type := Session -> Outcome A * Session.

Definition ret {A : Type} (a : A) : IO A := fun st => (Ok a, st).

Definition bindIO {A B : Type} (m : IO A) (k : A -> IO B) : IO B :=
  fun st =>
    match m st with
    | (Ok a, st') => k a st'
    | (Throw e, st') => (Throw e, st')
    end.

Notation "x <<- m ;; k" := (bindIO m (fun x => k))
  (at level 61, m at next level, right associativity).

Definition liftOutcome {A : Type} (o : Outcome A) : IO A := fun st => (o, st).

Definition consoleLog (e : LogEntry) : IO unit :=
  fun st => (Ok tt, {| wire := wire st; reader := reader st; closed := closed st;
                       console := console st ++ [e] |}).

(** [Deno.writeAll(conn, buf)]. *)
Definition writeAll (buf : Uint8Array) : IO unit :=
  fun st => (Ok tt, {| wire := wire st ++ [buf]; reader := reader st;
                       closed := closed st; console := console st |}).

(** [reader.readLine()], decoded: [None] is [null]. *)
Definition readLine : IO (option JsString) :=
  fun st =>
    match reader st with
    | [] => (Ok None, st)
    | l :: rest => (Ok (Some l), {| wire := wire st; reader := rest;
                                    closed := closed st; console := console st |})
    end.

(** [Deno.close(conn.rid)]. *)
Definition closeConn (st : Session) : Session :=
  {| wire := wire st; reader := reader st; closed := true; console := console st |}.

(** [id ? `id: ${id}, ` : ""]: no prefix without an id or for the id 0. *)
Definition makeIdPrefix (id : option Z) : string :=
  match id with
  | Some n => if n =? 0 then ""%string
              else ("id: " ++ numberToString n ++ ", ")%string
  | None => ""%string
  end.

Definition replaceCrlfDot (cmd : string) : string :=
  if String.eqb cmd (CRLF ++ ".") then "<CRLF>."%string else cmd.

Definition sendLine (cmd : string) (id : option Z) : IO unit :=
  _ <<- consoleLog (LogSend (makeIdPrefix id) (replaceCrlfDot cmd)) ;;
  let buf := encode (cmd ++ CRLF) in
  writeAll buf.

(** The loop of [recvLine]. *)
Fixpoint recvLine_loop (fuel : nat) (id : option Z) : IO ErrorResult :=
  match fuel with
  | O => ret (makeError (codeUnits "Connection closed by foreign host"))
  | S fuel' =>
      lineRes <<- readLine ;;
      match lineRes with
      | None => ret (makeError (codeUnits "Connection closed by foreign host"))
      | Some lineStr =>
          _ <<- consoleLog (LogRecv (makeIdPrefix id) lineStr) ;;
          if isLastReply lineStr then
            if isPositiveReply lineStr then ret {| ok := true; msg := Some lineStr |}
            else ret (makeError lineStr)
          else recvLine_loop fuel' id
      end
  end.

Definition recvLine (id : option Z) : IO ErrorResult :=
  fun st => recvLine_loop (S (List.length (reader st))) id st.

(** The function that [makeSendCmd] returns. *)
Definition sendCmd (id : option Z) (cmd : string) : IO ErrorResult :=
  _ <<- sendLine cmd id ;;
  recvLine id.

Definition SendCmd : Type := string -> IO ErrorResult.

Definition sendHello (send : SendCmd) : IO ErrorResult := send "EHLO localhost"%string.
Definition sendQuit (send : SendCmd) : IO ErrorResult := send "QUIT"%string.
Definition sendRset (send : SendCmd) : IO ErrorResult := send "RSET"%string.

Definition sendFrom (send : SendCmd) (fromAddr : string) : IO ErrorResult :=
  send ("MAIL FROM: <" ++ fromAddr ++ ">")%string.

Fixpoint sendRcptTo (send : SendCmd) (toAddrs : list string) : IO unit :=
  match toAddrs with
  | [] => ret tt
  | addr :: rest =>
      _ <<- send ("RCPT TO: <" ++ addr ++ ">")%string ;;
      sendRcptTo send rest
  end.

Definition sendData (send : SendCmd) : IO ErrorResult := send "DATA"%string.
Definition sendCrlfDot (send : SendCmd) : IO ErrorResult := send (CRLF ++ ".")%string.

Definition isFile (fs : Files) (path : string) : IO bool :=
  liftOutcome (statIsFile fs path).

Definition sendMail (host : Host) (fs : Files) (file : string)
  (updateDate updateMessageId : bool) (id : option Z) : IO unit :=
  _ <<- consoleLog (LogSend (makeIdPrefix id) file) ;;
  mail <<- liftOutcome (readFile fs file) ;;
  replMail <<- liftOutcome (replaceMail host mail updateDate updateMessageId) ;;
  _ <<- (match replMail with
         | None => consoleLog
                     (LogText "error: Invalid mail: Disable updateDate, updateMessageId")
         | Some _ => ret tt
         end) ;;
  writeAll (match replMail with Some res => res | None => mail end).

(** The clock and the random source along a session.  Every call of
    [sendMail] evaluates [new Date] and [Math.random] anew (in
    [makeNowDateLine] and [makeRandomMessageIdLine], reached through
    [replaceMail]); nothing else in a session reads either.  [hosts 0] is
    what the next call of [sendMail] gets, [hosts 1] what the call after
    it gets, and so on: each message has a clock reading and draws of its
    own. *)
Definition Hosts : Type := nat -> Host.

(** The readings left once a call of [sendMail] has taken its own. *)
Definition laterHosts (hosts : Hosts) : Hosts := fun k => hosts (S k).

(** The [for] loop of [sendMessages]; [reset] is its variable. *)
Fixpoint sendMessages_files (hosts : Hosts) (fs : Files) (settings : Settings)
  (send : SendCmd) (id : option Z) (files : list string) (reset : bool) : IO unit :=
  match files with
  | [] => ret tt
  | file :: rest =>
      isF <<- isFile fs file ;;
      if negb isF then
        _ <<- consoleLog (LogText (file ++ ": EML file does not exist")) ;;
        sendMessages_files hosts fs settings send id rest reset
      else
        _ <<- (if reset then
                 _ <<- consoleLog (LogText "---") ;;
                 _ <<- sendRset send ;;
                 ret tt
               else ret tt) ;;
        _ <<- sendFrom send (fromAddress settings) ;;
        _ <<- sendRcptTo send (toAddresses settings) ;;
        _ <<- sendData send ;;
        _ <<- sendMail (hosts 0%nat) fs file (updateDate settings)
                (updateMessageId settings) id ;;
        _ <<- sendCrlfDot send ;;
        sendMessages_files (laterHosts hosts) fs settings send id rest true
  end.

(** The [try] block of [sendMessages]. *)
Definition sendMessages_try (hosts : Hosts) (fs : Files) (settings : Settings)
  (files : list string) (id : option Z) : IO ErrorResult :=
  let send := sendCmd id in
  _ <<- recvLine id ;;
  _ <<- sendHello send ;;
  _ <<- sendMessages_files hosts fs settings send id files false ;;
  _ <<- sendQuit send ;;
  ret {| ok := true; msg := None |}.

(** [sendMessages] on the connection that [Deno.connect] returned: the
    [try] block, and [finally] the close. *)
Definition sendMessages (hosts : Hosts) (fs : Files) (settings : Settings)
  (files : list string) (id : option Z) : IO ErrorResult :=
  fun st =>
    let (res, st') := sendMessages_try hosts fs settings files id st in
    (res, closeConn st').

(** *** Notions used to state the session's properties *)

(** [st] after reading lines: [r] is left to read, [logs] were logged. *)
Definition afterReading (st : Session) (r : list JsString) (logs : list LogEntry)
  : Session :=
  {| wire := wire st; reader := r; closed := closed st;
     console := console st ++ logs |}.

(** The bytes of a command on the wire. *)
Definition commandBytes (cmd : string) : Uint8Array := encode (cmd ++ CRLF).

(** The bytes that [sendMail] writes for a file: the rewritten mail, or the
    mail as read when the rewrite reports no boundary. *)
Definition mailPayload (host : Host) (fs : Files) (settings : Settings)
  (file : string) : Outcome Uint8Array :=
  mail <- readFile fs file ;;
  replMail <- replaceMail host mail (updateDate settings) (updateMessageId settings) ;;
  Ok (match replMail with Some res => res | None => mail end).

(** The commands before the mail of one message. *)
Definition messageHead (settings : Settings) (reset : bool) : list Uint8Array :=
  (if reset then [commandBytes "RSET"] else [])
  ++ [commandBytes ("MAIL FROM: <" ++ fromAddress settings ++ ">")]
  ++ map (fun addr => commandBytes ("RCPT TO: <" ++ addr ++ ">")) (toAddresses settings)
  ++ [commandBytes "DATA"].

(** What the file loop writes, and the exception that ends it, if any.
    Each message that is sent is rewritten under the next reading of
    [hosts]. *)
Fixpoint wirePlan (hosts : Hosts) (fs : Files) (settings : Settings)
  (files : list string) (reset : bool) : list Uint8Array * option string :=
  match files with
  | [] => ([], None)
  | file :: rest =>
      match statIsFile fs file with
      | Throw e => ([], Some e)
      | Ok false => wirePlan hosts fs settings rest reset
      | Ok true =>
          match mailPayload (hosts 0%nat) fs settings file with
          | Throw e => (messageHead settings reset, Some e)
          | Ok payload =>
              let (w, e) := wirePlan (laterHosts hosts) fs settings rest true in
              (messageHead settings reset
                 ++ [payload; commandBytes (CRLF ++ ".")] ++ w, e)
          end
      end
  end.

(** The bytes of the mails of the files [sent], in order: the [k]-th is
    rewritten under [hosts k]. *)
Fixpoint sentPayloads (hosts : Hosts) (fs : Files) (settings : Settings)
  (sent : list string) : Outcome (list Uint8Array) :=
  match sent with
  | [] => Ok []
  | file :: rest =>
      payload <- mailPayload (hosts 0%nat) fs settings file ;;
      payloads <- sentPayloads (laterHosts hosts) fs settings rest ;;
      Ok (payload :: payloads)
  end.

(** The wire of the messages whose mails are [payloads]. *)
Fixpoint messagesWire (settings : Settings) (payloads : list Uint8Array)
  (reset : bool) : list Uint8Array :=
  match payloads with
  | [] => []
  | payload :: rest =>
      messageHead settings reset ++ [payload; commandBytes (CRLF ++ ".")]
        ++ messagesWire settings rest true
  end.

(** [Deno.stat] says that the path is a regular file. *)
Definition regularFile (fs : Files) (path : string) : bool :=
  match statIsFile fs path with
  | Ok true => true
  | _ => false
  end.

(** From [st] the action [a] writes the buffers [w] and nothing else,
    leaves the connection as open as it was, and throws [thrown] or, for
    [None], returns. *)
Definition runsTo {A : Type} (a : IO A) (st : Session) (w : list Uint8Array)
  (thrown : option string) : Prop :=
  exists st',
    wire st' = wire st ++ w /\ closed st' = closed st
    /\ match thrown with
       | None => exists r, a st = (Ok r, st')
       | Some e => a st = (Throw e, st')
       end.

(** ** Sample data *)

Definition sampleDate : DateObj :=
  {| getDay := 0; getDate := 26; getMonth := 6; getFullYear := 2020;
     getHours := 22; getMinutes := 1; getSeconds := 37;
     getTimezoneOffset := -540 |}.

Definition dateWithOffset (min : Z) : DateObj :=
  {| getDay := 0; getDate := 26; getMonth := 6; getFullYear := 2020;
     getHours := 22; getMinutes := 1; getSeconds := 37;
     getTimezoneOffset := min |}.

Definition sampleHost : Host :=
  {| now := sampleDate; random := fun k => (7 * k + 3) mod 62 |}%nat.

Definition foldedHeader : Uint8Array :=
  encode ("Subject: test" ++ CRLF ++ "Message-ID:" ++ CRLF ++ " <b0e564a5@example.jp>"
          ++ CRLF ++ "Date:" ++ CRLF ++ " Sun, 26 Jul 2020" ++ CRLF
          ++ " 22:01:37 +0900" ++ CRLF ++ "MIME-Version: 1.0")%string.

Definition sampleMail : Uint8Array :=
  (foldedHeader ++ EMPTY_LINE ++ encode "test")%list.

(** The mail of the repository's tests ([makeSimpleMail]). *)
Definition simpleMail : Uint8Array :=
  encode ("From: a001 <a001@ah62.example.jp>" ++ CRLF
          ++ "Subject: test" ++ CRLF
          ++ "To: a002@ah62.example.jp" ++ CRLF
          ++ "Message-ID: <b0e564a5-4f70-761a-e103-70119d1bcb32@ah62.example.jp>" ++ CRLF
          ++ "Date: Sun, 26 Jul 2020 22:01:37 +0900" ++ CRLF
          ++ "User-Agent: Mozilla/5.0 (Windows NT 10.0; Win64; x64; rv:78.0) Gecko/20100101"
          ++ CRLF
          ++ " Thunderbird/78.0.1" ++ CRLF
          ++ "MIME-Version: 1.0" ++ CRLF
          ++ "Content-Type: text/plain; charset=utf-8; format=flowed" ++ CRLF
          ++ "Content-Transfer-Encoding: 7bit" ++ CRLF
          ++ "Content-Language: en-US" ++ CRLF
          ++ CRLF
          ++ "test")%string.

(** Files for the samples: "a.eml" holds [sampleMail], "b.eml" a mail
    without boundary, "dir" is a directory, anything else is missing. *)
Definition sampleFiles : Files :=
  {| statIsFile := fun path =>
       if String.eqb path "a.eml" then Ok true
       else if String.eqb path "b.eml" then Ok true
       else if String.eqb path "dir" then Ok false
       else Throw "NotFound";
     readFile := fun path =>
       if String.eqb path "a.eml" then Ok sampleMail
       else if String.eqb path "b.eml" then Ok foldedHeader
       else Throw "NotFound" |}.

Definition sampleSettings : Settings :=
  {| smtpHost := "172.16.3.151"; smtpPort := 25;
     fromAddress := "a001@ah62.example.jp";
     toAddresses := ["a001@ah62.example.jp"; "a002@ah62.example.jp"]%string;
     emlFiles := ["a.eml"; "dir"; "b.eml"]%string;
     updateDate := true; updateMessageId := false; useParallel := false |}.

(** The [k]-th message of the sample session is rewritten [k] seconds
    after the first, with draws of its own. *)
Definition sampleHosts : Hosts :=
  fun k =>
    {| now := {| getDay := 0; getDate := 26; getMonth := 6; getFullYear := 2020;
                 getHours := 22; getMinutes := 1; getSeconds := 37 + Z.of_nat k;
                 getTimezoneOffset := -540 |};
       random := fun j => ((7 * j + 3 + k) mod 62)%nat |}.

Definition sampleSession : Session :=
  {| wire := [];
     reader := map codeUnits
                 ["220 ready"; "250-hello"; "250 ok"; "550 no"; "250 ok"]%string;
     closed := false; console := [] |}.

(** * Properties *)

Local Arguments Byte.eqb : simpl never.

(** ** The repository's tests, on the embedding *)

Example test_findCr_findLf :
  findCr simpleMail 0 = 33 /\ findCr simpleMail 34 = 48 /\ findCr simpleMail 58 = 74
  /\ findLf simpleMail 0 = 34 /\ findLf simpleMail 35 = 49 /\ findLf simpleMail 59 = 75.
Proof. vm_compute. repeat split. Qed.

Example test_findAllLf :
  firstn 3 (findAllLf simpleMail) = [34; 49; 75]
  /\ skipn 9 (findAllLf simpleMail) = [390; 415; 417].
Proof. vm_compute. repeat split. Qed.

Example test_getLines :
  List.length (getLines simpleMail) = 13%nat
  /\ nth 1 (getLines simpleMail) [] = encode ("Subject: test" ++ CRLF)
  /\ nth 11 (getLines simpleMail) [] = encode CRLF
  /\ nth 12 (getLines simpleMail) [] = encode "test".
Proof. vm_compute. repeat split. Qed.

Example test_matchHeader :
  matchHeader (encode "Test:   ") (encode "Test:") = Ok true
  /\ matchHeader (encode "Test") (encode "Test:") = Ok false
  /\ matchHeader (encode "X-Test:") (encode "Test:") = Ok false
  /\ matchHeader (encode "Test: XXX") (encode "") = Throw "header is empty"
  /\ isDateLine (encode "Date:") = Ok true
  /\ isDateLine (encode "X-Date: xxx") = Ok false
  /\ isMessageIdLine (encode "Message-ID:xxx") = Ok true
  /\ isMessageIdLine (encode "Message-ID") = Ok false.
Proof. vm_compute. repeat split. Qed.

Example test_padZero2 :
  padZero2 0 = Ok "00"%string /\ padZero2 1 = Ok "01"%string
  /\ padZero2 10 = Ok "10"%string /\ padZero2 99 = Ok "99"%string
  /\ padZero2 (-1) = Throw "invalid number" /\ padZero2 100 = Throw "invalid number".
Proof. vm_compute. repeat split. Qed.

Example test_makeTimeZoneOffset :
  makeTimeZoneOffset (-840) = Ok "+1400"%string
  /\ makeTimeZoneOffset (-480) = Ok "+0800"%string
  /\ makeTimeZoneOffset 0 = Ok "+0000"%string
  /\ makeTimeZoneOffset 720 = Ok "-1200"%string
  /\ makeTimeZoneOffset 1 = Ok "-0001"%string
  /\ makeTimeZoneOffset (-841) = Throw "invalid number"
  /\ makeTimeZoneOffset 721 = Throw "invalid number".
Proof. vm_compute. repeat split. Qed.

Example test_isFoldedLine :
  isFoldedLine [SPACE; x61; x62] = true /\ isFoldedLine [HTAB; x61; x62] = true
  /\ isFoldedLine [x00; x61; x62] = false /\ isFoldedLine [x61; x61; SPACE] = false.
Proof. vm_compute. repeat split. Qed.

Example test_hasNextLfCrLf :
  hasNextLfCrLf [CR; LF; CR; LF] 0 = true
  /\ hasNextLfCrLf [x00; CR; LF; CR; LF] 1 = true
  /\ hasNextLfCrLf [CR; LF; CR; LF] 1 = false
  /\ hasNextLfCrLf [CR; LF; CR; x00] 0 = false
  /\ hasNextLfCrLf [CR; LF; CR; LF; x00] 1 = false.
Proof. vm_compute. repeat split. Qed.

Example test_findEmptyLine_splitMail :
  findEmptyLine simpleMail = 414
  /\ Sendeml_src.findEmptyLine simpleMail = 414
  /\ splitMail simpleMail
     = Some (firstn 414 simpleMail, skipn 418 simpleMail).
Proof. vm_compute. repeat split. Qed.

Example test_dropFoldedLine :
  dropFoldedLine (getLines simpleMail) = getLines simpleMail
  /\ nth 0 (dropFoldedLine (skipn 6 (getLines simpleMail))) []
     = encode ("MIME-Version: 1.0" ++ CRLF).
Proof. vm_compute. repeat split. Qed.

Example test_replaceMail :
  replaceMail sampleHost simpleMail false false = Ok (Some simpleMail)
  /\ match replaceMail sampleHost simpleMail true true with
     | Ok (Some res) =>
         skipn (List.length res - 100) res
         = skipn (List.length simpleMail - 100) simpleMail
     | _ => False
     end.
Proof. vm_compute. repeat split. Qed.

Example test_isLastReply_isPositiveReply :
  isLastReply (codeUnits "250-Second line") = false
  /\ isLastReply (codeUnits "250-234 Text beginning with numbers") = false
  /\ isPositiveReply (codeUnits "200 xxx") = true
  /\ isPositiveReply (codeUnits "300 xxx") = true
  /\ isPositiveReply (codeUnits "400 xxx") = false
  /\ isPositiveReply (codeUnits "xxx 200") = false.
Proof. vm_compute. repeat split. Qed.

(** ** Indices, slices and searches *)

Lemma len_nonneg {A : Type} (l : list A) : 0 <= len l.
Proof. unfold len. lia. Qed.

Lemma len_app {A : Type} (l1 l2 : list A) : len (l1 ++ l2) = len l1 + len l2.
Proof. unfold len. rewrite length_app. lia. Qed.

Lemma len_cons {A : Type} (x : A) (l : list A) : len (x :: l) = 1 + len l.
Proof. unfold len. simpl List.length. lia. Qed.

Lemma len_nil {A : Type} : len (@nil A) = 0.
Proof. reflexivity. Qed.

Lemma slice_range {A : Type} (l : list A) (a b : Z) :
  0 <= a <= b -> b <= len l ->
  slice l a b = firstn (Z.to_nat (b - a)) (skipn (Z.to_nat a) l).
Proof.
  intros Hab Hb. unfold slice, relIndex.
  destruct (Z.ltb_spec a 0); [lia|].
  destruct (Z.ltb_spec b 0); [lia|].
  rewrite !Z.min_l by lia. reflexivity.
Qed.

Lemma slice_prefix {A : Type} (l1 l2 : list A) :
  slice (l1 ++ l2) 0 (len l1) = l1.
Proof.
  rewrite slice_range by (rewrite ?len_app; pose proof (len_nonneg l1);
                          pose proof (len_nonneg l2); lia).
  simpl. rewrite Z.sub_0_r. unfold len. rewrite Nat2Z.id.
  rewrite firstn_app, firstn_all, Nat.sub_diag. simpl. apply app_nil_r.
Qed.

Lemma sliceFrom_suffix {A : Type} (l1 l2 : list A) :
  sliceFrom (l1 ++ l2) (len l1) = l2.
Proof.
  unfold sliceFrom.
  rewrite slice_range by (rewrite ?len_app; pose proof (len_nonneg l1);
                          pose proof (len_nonneg l2); lia).
  rewrite len_app. replace (len l1 + len l2 - len l1) with (len l2) by lia.
  unfold len. rewrite !Nat2Z.id.
  rewrite skipn_app, skipn_all, Nat.sub_diag. simpl. apply firstn_all.
Qed.

Lemma slice_middle {A : Type} (l1 l2 l3 : list A) :
  slice (l1 ++ l2 ++ l3) (len l1) (len l1 + len l2) = l2.
Proof.
  rewrite slice_range by (rewrite ?len_app; pose proof (len_nonneg l1);
    pose proof (len_nonneg l2); pose proof (len_nonneg l3); lia).
  replace (len l1 + len l2 - len l1) with (len l2) by lia.
  unfold len. rewrite !Nat2Z.id.
  rewrite skipn_app, skipn_all, Nat.sub_diag. simpl.
  rewrite firstn_app, firstn_all, Nat.sub_diag. simpl. apply app_nil_r.
Qed.

Lemma at_app_r {A : Type} (l1 l2 : list A) (i : Z) :
  0 <= i -> at_ (l1 ++ l2) (len l1 + i) = at_ l2 i.
Proof.
  intros Hi. unfold at_. pose proof (len_nonneg l1).
  destruct (Z.ltb_spec (len l1 + i) 0); [lia|].
  destruct (Z.ltb_spec i 0); [lia|].
  unfold len. rewrite Z2Nat.inj_add by lia. rewrite Nat2Z.id.
  rewrite nth_error_app2 by lia. f_equal. lia.
Qed.

Lemma byte_eqb_refl (b : byte) : Byte.eqb b b = true.
Proof. apply byte_dec_lb. reflexivity. Qed.

Lemma byte_eqb_eq (a b : byte) : Byte.eqb a b = true <-> a = b.
Proof. split; [apply byte_dec_bl | apply byte_dec_lb]. Qed.

Lemma byte_eqb_neq (a b : byte) : Byte.eqb a b = false <-> a <> b.
Proof.
  split.
  - apply eqb_false.
  - intros Hne. destruct (Byte.eqb a b) eqn:E; [|reflexivity].
    apply byte_dec_bl in E. contradiction.
Qed.

(** What [indexOfAux] finds: nothing, or the first occurrence. *)
Lemma indexOfAux_spec (v : byte) (l : Uint8Array) (i : Z) :
  (indexOfAux v l i = -1 /\ ~ In v l)
  \/ (exists p rest, l = p ++ v :: rest /\ ~ In v p
                     /\ indexOfAux v l i = i + len p) .
Proof.
  revert i. induction l as [|x t IH]; intros i; simpl.
  - left. split; [reflexivity | intros []].
  - destruct (Byte.eqb x v) eqn:E.
    + apply byte_eqb_eq in E. subst x. right. exists [], t.
      split; [reflexivity|]. split; [intros []|]. rewrite len_nil. lia.
    + apply byte_eqb_neq in E. destruct (IH (i + 1)) as [[H1 H2] | (p & rest & H1 & H2 & H3)].
      * left. split; [exact H1|]. intros [Hx | Hin]; [congruence | contradiction].
      * right. exists (x :: p), rest. subst t. split; [reflexivity|].
        split; [intros [Hx | Hin]; [congruence | contradiction]|].
        rewrite H3, len_cons. lia.
Qed.

(** What [indexOf] finds from a valid offset. *)
Lemma indexOf_spec (buf : Uint8Array) (v : byte) (off : Z) :
  0 <= off <= len buf ->
  (indexOf buf v off = -1 /\ ~ In v (skipn (Z.to_nat off) buf))
  \/ (exists p rest, skipn (Z.to_nat off) buf = p ++ v :: rest /\ ~ In v p
                     /\ indexOf buf v off = off + len p).
Proof.
  intros Hoff. unfold indexOf.
  destruct (Z.geb_spec off (len buf)) as [Hge | Hlt].
  - left. split; [reflexivity|]. rewrite skipn_all2 by (unfold len in *; lia).
    intros [].
  - destruct (Z.ltb_spec off 0); [lia|]. apply indexOfAux_spec.
Qed.

Lemma skipn_decompose {A : Type} (n : nat) (l p : list A) (x : A) (rest : list A) :
  skipn n l = p ++ x :: rest ->
  l = firstn n l ++ p ++ x :: rest /\ List.length (firstn n l) = n.
Proof.
  intros H. split.
  - rewrite <- H. symmetry. apply firstn_skipn.
  - apply firstn_length_le. destruct (Nat.le_gt_cases n (List.length l)) as [Hle|Hgt]; [exact Hle|].
    rewrite skipn_all2 in H by lia. destruct p; discriminate.
Qed.

Lemma skipn_after {A : Type} (n : nat) (l p : list A) (x : A) (rest : list A) :
  skipn n l = p ++ x :: rest ->
  skipn (n + List.length p + 1) l = rest.
Proof.
  intros H. replace (n + List.length p + 1)%nat with ((List.length p + 1) + n)%nat by lia.
  rewrite <- skipn_skipn, H.
  replace (List.length p + 1)%nat with (List.length (p ++ [x])) by (rewrite length_app; simpl; lia).
  replace (p ++ x :: rest) with ((p ++ [x]) ++ rest) by (rewrite <- app_assoc; reflexivity).
  rewrite skipn_app, skipn_all, Nat.sub_diag. reflexivity.
Qed.

(** ** Line decomposition *)

Lemma findAllLf_loop_acc (fuel : nat) (buf : Uint8Array) (off : Z) (acc : list Z) :
  findAllLf_loop fuel buf off acc = acc ++ findAllLf_loop fuel buf off [].
Proof.
  revert off acc. induction fuel as [|f IH]; intros off acc; simpl.
  - symmetry. apply app_nil_r.
  - destruct (findLf buf off =? -1).
    + symmetry. apply app_nil_r.
    + rewrite IH. rewrite (IH _ [_]). rewrite <- app_assoc. reflexivity.
Qed.

Lemma physicalLines_nonempty (b : Uint8Array) : physicalLines b <> [].
Proof.
  induction b as [|c t IH]; simpl; [discriminate|].
  destruct (Byte.eqb c LF); [discriminate|].
  destruct (physicalLines t); [contradiction | discriminate].
Qed.

Lemma physicalLines_noLF (s : Uint8Array) : ~ In LF s -> physicalLines s = [s].
Proof.
  induction s as [|c t IH]; intros Hn; simpl; [reflexivity|].
  destruct (Byte.eqb c LF) eqn:E.
  - apply byte_eqb_eq in E. subst c. exfalso. apply Hn. left. reflexivity.
  - rewrite IH; [reflexivity|]. intros Hin. apply Hn. right. exact Hin.
Qed.

Lemma physicalLines_app_LF (p rest : Uint8Array) :
  ~ In LF p -> physicalLines (p ++ LF :: rest) = (p ++ [LF]) :: physicalLines rest.
Proof.
  induction p as [|c t IH]; intros Hn; simpl.
  - reflexivity.
  - destruct (Byte.eqb c LF) eqn:E.
    + apply byte_eqb_eq in E. subst c. exfalso. apply Hn. left. reflexivity.
    + rewrite IH; [reflexivity|]. intros Hin. apply Hn. right. exact Hin.
Qed.

(** The loop and the map of [getLines] compute the physical lines of the
    rest of the buffer, whatever fuel is left beyond the bytes to scan. *)
Lemma getLines_loop (b : Uint8Array) (fuel : nat) (off : Z) :
  0 <= off <= len b -> len b - off < Z.of_nat fuel ->
  getLines_map b off (findAllLf_loop fuel b off [] ++ [len b - 1])
  = physicalLines (skipn (Z.to_nat off) b).
Proof.
  revert off. induction fuel as [|f IH]; intros off Hoff Hfuel; [lia|].
  simpl findAllLf_loop. unfold findLf.
  destruct (indexOf_spec b LF off Hoff) as [[H1 H2] | (p & rest & H1 & H2 & H3)].
  - rewrite H1. simpl.
    replace (len b - 1 + 1) with (len b) by lia.
    rewrite slice_range by lia.
    rewrite physicalLines_noLF by exact H2. f_equal.
    apply firstn_all2. rewrite length_skipn. unfold len in *. lia.
  - rewrite H3. pose proof (len_nonneg p) as Hp.
    destruct (Z.eqb_spec (off + len p) (-1)); [lia|].
    rewrite findAllLf_loop_acc. simpl app.
    destruct (skipn_decompose _ _ _ _ _ H1) as [Hb Hlen].
    assert (Hbl : len b = off + len p + 1 + len rest).
    { rewrite Hb at 1. rewrite !len_app, len_cons. unfold len at 1. rewrite Hlen. lia. }
    pose proof (len_nonneg rest) as Hr.
    simpl getLines_map. rewrite IH by lia.
    rewrite H1, physicalLines_app_LF by exact H2. f_equal.
    + rewrite slice_range by lia. rewrite H1.
      replace (off + len p + 1 - off) with (len (p ++ [LF])) by (rewrite len_app, len_cons, len_nil; lia).
      replace (p ++ LF :: rest) with ((p ++ [LF]) ++ rest) by (rewrite <- app_assoc; reflexivity).
      unfold len. rewrite Nat2Z.id, firstn_app, firstn_all, Nat.sub_diag. simpl. apply app_nil_r.
    + f_equal. replace (Z.to_nat (off + len p + 1)) with (Z.to_nat off + List.length p + 1)%nat
        by (unfold len; lia).
      apply (skipn_after _ _ _ _ _ H1).
Qed.

Lemma findAllLf_loop_fuel (b : Uint8Array) (fuel1 fuel2 : nat) (off : Z) :
  0 <= off <= len b -> len b - off < Z.of_nat fuel1 -> len b - off < Z.of_nat fuel2 ->
  findAllLf_loop fuel1 b off [] = findAllLf_loop fuel2 b off [].
Proof.
  revert fuel2 off. induction fuel1 as [|f1 IH]; intros fuel2 off Hoff H1 H2; [lia|].
  destruct fuel2 as [|f2]; [lia|]. simpl. unfold findLf.
  destruct (indexOf_spec b LF off Hoff) as [[E _] | (p & rest & E1 & _ & E3)].
  - rewrite E. reflexivity.
  - rewrite E3. pose proof (len_nonneg p).
    destruct (Z.eqb_spec (off + len p) (-1)); [lia|].
    rewrite findAllLf_loop_acc, (findAllLf_loop_acc f2). f_equal.
    destruct (skipn_decompose _ _ _ _ _ E1) as [Hb Hlen].
    assert (Hbl : len b = off + len p + 1 + len rest).
    { rewrite Hb at 1. rewrite !len_app, len_cons. unfold len at 1. rewrite Hlen. lia. }
    pose proof (len_nonneg rest). apply IH; lia.
Qed.

(** More fuel than [findAllLf] takes changes nothing: its loop ends by
    itself. *)
Lemma findAllLf_enough_fuel (b : Uint8Array) (fuel : nat) :
  (List.length b < fuel)%nat -> findAllLf_loop fuel b 0 [] = findAllLf b.
Proof.
  intros H. unfold findAllLf. pose proof (len_nonneg b).
  apply findAllLf_loop_fuel; unfold len in *; lia.
Qed.

Lemma getLines_physicalLines (b : Uint8Array) : getLines b = physicalLines b.
Proof.
  unfold getLines, findAllLf. pose proof (len_nonneg b).
  rewrite getLines_loop by (unfold len in *; lia). reflexivity.
Qed.

Lemma getRawLines_getLines (b : Uint8Array) : Sendeml_src.getRawLines b = getLines b.
Proof. reflexivity. Qed.

Lemma concat_physicalLines (b : Uint8Array) : List.concat (physicalLines b) = b.
Proof.
  induction b as [|c t IH]; simpl; [reflexivity|].
  destruct (Byte.eqb c LF).
  - simpl. rewrite IH. reflexivity.
  - pose proof (physicalLines_nonempty t) as Hne.
    destruct (physicalLines t) as [|l ls]; [contradiction|].
    simpl in *. rewrite IH. reflexivity.
Qed.

(** ** [concatBytes] *)

Lemma fold_left_len (arr : Lines) (a : Z) :
  fold_left (fun acc b => acc + len b) arr a = a + len (List.concat arr).
Proof.
  revert a. induction arr as [|b rest IH]; intros a; simpl.
  - rewrite len_nil. lia.
  - rewrite IH, len_app. lia.
Qed.

(** The buffer of [concatBytes] while it is being filled: the bytes copied
    so far, then what is left of the zero-filled allocation. *)
Lemma concatBytes_forEach_spec (arr : Lines) (done pad : Uint8Array) :
  len (List.concat arr) <= len pad ->
  concatBytes_forEach arr (done ++ pad) (len done)
  = Ok (done ++ List.concat arr ++ skipn (Z.to_nat (len (List.concat arr))) pad).
Proof.
  revert done pad. induction arr as [|b rest IH]; intros done pad Hfit; simpl.
  - reflexivity.
  - simpl in Hfit. rewrite len_app in Hfit.
    pose proof (len_nonneg done). pose proof (len_nonneg b).
    pose proof (len_nonneg (List.concat rest)).
    unfold set.
    destruct (Z.ltb_spec (len done) 0); [lia|].
    destruct (Z.ltb_spec (len (done ++ pad)) (len done + len b)) as [Hlt|_].
    { rewrite len_app in Hlt. lia. }
    simpl. 
    assert (E1 : firstn (Z.to_nat (len done)) (done ++ pad) = done).
    { unfold len. rewrite Nat2Z.id, firstn_app, firstn_all, Nat.sub_diag. simpl. apply app_nil_r. }
    assert (E2 : skipn (Z.to_nat (len done + len b)) (done ++ pad)
                 = skipn (Z.to_nat (len b)) pad).
    { unfold len. rewrite Z2Nat.inj_add, !Nat2Z.id by lia.
      rewrite skipn_app, skipn_all2 by lia. simpl. f_equal. lia. }
    rewrite E1, E2.
    replace (done ++ b ++ skipn (Z.to_nat (len b)) pad)
      with ((done ++ b) ++ skipn (Z.to_nat (len b)) pad) by (rewrite <- app_assoc; reflexivity).
    replace (len done + len b) with (len (done ++ b)) by apply len_app.
    rewrite IH.
    + rewrite skipn_skipn, len_app. rewrite <- !app_assoc. do 4 f_equal.
      rewrite Z2Nat.inj_add by lia. f_equal. apply Nat.add_comm.
    + unfold len. rewrite length_skipn. unfold len in *. lia.
Qed.

(** [concatBytes] never throws, and returns the concatenation. *)
Lemma concatBytes_spec (arr : Lines) : concatBytes arr = Ok (List.concat arr).
Proof.
  unfold concatBytes. rewrite fold_left_len. simpl.
  pose proof (concatBytes_forEach_spec arr [] (repeat x00 (Z.to_nat (len (List.concat arr))))) as H.
  simpl in H. rewrite len_nil in H. rewrite H.
  - rewrite skipn_all2 by (rewrite repeat_length; lia). rewrite app_nil_r. reflexivity.
  - unfold len. rewrite repeat_length. lia.
Qed.

(** C4. For every byte buffer, the empty one and those ending in LF
    included, concatenating in order the lines that [getLines] (named
    [getRawLines] in src/src/sendeml.ts) produces gives the buffer back. *)
Theorem getLines_concatBytes (bytes : Uint8Array) :
  concatBytes (getLines bytes) = Ok bytes
  /\ concatBytes (Sendeml_src.getRawLines bytes) = Ok bytes
  /\ List.concat (getLines bytes) = bytes.
Proof.
  assert (H : List.concat (getLines bytes) = bytes)
    by (rewrite getLines_physicalLines; apply concat_physicalLines).
  split; [|split].
  - rewrite concatBytes_spec, H. reflexivity.
  - rewrite (getRawLines_getLines bytes), concatBytes_spec, H. reflexivity.
  - exact H.
Qed.

(** ** The header/body boundary *)

Lemma beginsWith_spec (name line : Uint8Array) :
  beginsWith name line = true <-> exists rest, line = name ++ rest.
Proof.
  revert line. induction name as [|n name' IH]; intros line; simpl.
  - split; [intros _; exists line; reflexivity | reflexivity].
  - destruct line as [|c line'].
    + split; [discriminate | intros [rest H]; discriminate].
    + rewrite andb_true_iff, byte_eqb_eq, IH. split.
      * intros [-> [rest ->]]. exists rest. reflexivity.
      * intros [rest H]. injection H as -> ->. split; [reflexivity | exists rest; reflexivity].
Qed.

Lemma emptyLineAt_cons (c : byte) (t : Uint8Array) (i : nat) :
  emptyLineAt (c :: t) (S i) <-> emptyLineAt t i.
Proof. unfold emptyLineAt. simpl. reflexivity. Qed.

Lemma emptyLineAt_0 (b : Uint8Array) :
  emptyLineAt b 0 <-> beginsWith EMPTY_LINE b = true.
Proof.
  unfold emptyLineAt. rewrite beginsWith_spec. simpl skipn. split.
  - intros H. exists (skipn 4 b). rewrite <- H. symmetry. apply firstn_skipn.
  - intros [rest ->]. reflexivity.
Qed.

(** [firstEmptyLine] finds an occurrence, and the earliest one. *)
Lemma firstEmptyLine_Some (b : Uint8Array) (n : nat) :
  firstEmptyLine b = Some n ->
  b = firstn n b ++ EMPTY_LINE ++ skipn (n + 4) b
  /\ (n + 4 <= List.length b)%nat
  /\ forall i, emptyLineAt b i -> (n <= i)%nat.
Proof.
  revert n. induction b as [|c t IH]; intros n H; [discriminate|].
  cbn [firstEmptyLine] in H.
  destruct (beginsWith EMPTY_LINE (c :: t)) eqn:E.
  - injection H as <-. apply beginsWith_spec in E. destruct E as [rest E].
    rewrite E. simpl. repeat split; lia.
  - destruct (firstEmptyLine t) as [m|] eqn:Em; [|discriminate].
    injection H as <-. destruct (IH m eq_refl) as (H1 & H2 & H3).
    split; [|split].
    + simpl. f_equal. exact H1.
    + simpl. lia.
    + intros [|i] Hi.
      * apply emptyLineAt_0 in Hi. congruence.
      * apply emptyLineAt_cons in Hi. apply H3 in Hi. lia.
Qed.

Lemma firstEmptyLine_None (b : Uint8Array) :
  firstEmptyLine b = None -> forall i, ~ emptyLineAt b i.
Proof.
  induction b as [|c t IH]; intros H i Hi.
  - unfold emptyLineAt in Hi. rewrite skipn_nil in Hi. discriminate.
  - cbn [firstEmptyLine] in H.
    destruct (beginsWith EMPTY_LINE (c :: t)) eqn:E; [discriminate|].
    destruct (firstEmptyLine t) eqn:Em; [discriminate|].
    destruct i as [|i].
    + apply emptyLineAt_0 in Hi. congruence.
    + apply emptyLineAt_cons in Hi. exact (IH eq_refl i Hi).
Qed.

(** A buffer has no CR LF CR LF exactly when [hasEmptyLine] says so. *)
Lemma hasEmptyLine_false (b : Uint8Array) :
  hasEmptyLine b = false <-> forall i, ~ emptyLineAt b i.
Proof.
  unfold hasEmptyLine. destruct (firstEmptyLine b) as [n|] eqn:E.
  - split; [discriminate|]. intros H. exfalso.
    destruct (firstEmptyLine_Some b n E) as (H1 & H2 & _).
    apply (H n). unfold emptyLineAt. rewrite H1 at 1.
    rewrite skipn_app, skipn_all2, firstn_length_le by (rewrite ?firstn_length_le; lia).
    rewrite Nat.sub_diag. reflexivity.
  - split; [intros _; apply firstEmptyLine_None; exact E | reflexivity].
Qed.

Lemma firstEmptyLine_short (l : Uint8Array) :
  (List.length l < 4)%nat -> firstEmptyLine l = None.
Proof.
  intros H. destruct (firstEmptyLine l) as [n|] eqn:E; [|reflexivity].
  apply firstEmptyLine_Some in E. lia.
Qed.

(** Bytes before the next CR cannot start the boundary. *)
Lemma firstEmptyLine_skip (p s : Uint8Array) :
  ~ In CR p ->
  firstEmptyLine (p ++ s)
  = option_map (fun n => (List.length p + n)%nat) (firstEmptyLine s).
Proof.
  induction p as [|c t IH]; intros Hn.
  - simpl. destruct (firstEmptyLine s); reflexivity.
  - cbn [app firstEmptyLine]. 
    replace (beginsWith EMPTY_LINE (c :: t ++ s)) with false.
    + rewrite IH by (intros Hin; apply Hn; right; exact Hin).
      destruct (firstEmptyLine s); reflexivity.
    + simpl. destruct (Byte.eqb CR c) eqn:E; [|reflexivity].
      apply byte_eqb_eq in E. exfalso. apply Hn. left. symmetry. exact E.
Qed.

(** The test of [hasNextLfCrLf] at a CR. *)
Lemma hasNextLfCrLf_spec (b pre rest : Uint8Array) :
  b = pre ++ CR :: rest ->
  hasNextLfCrLf b (len pre) = beginsWith EMPTY_LINE (CR :: rest).
Proof.
  intros ->. unfold hasNextLfCrLf.
  rewrite len_app, len_cons. pose proof (len_nonneg pre) as Hp.
  assert (Hat : forall i, 0 <= i ->
            at_ (pre ++ CR :: rest) (i + len pre + 1) = at_ rest i).
  { intros i Hi. replace (i + len pre + 1) with (len pre + (1 + i)) by lia.
    rewrite at_app_r by lia. unfold at_.
    destruct (Z.ltb_spec (1 + i) 0); [lia|]. destruct (Z.ltb_spec i 0); [lia|].
    replace (Z.to_nat (1 + i)) with (S (Z.to_nat i)) by lia. reflexivity. }
  unfold every. cbn [everyAux]. rewrite !Hat by lia.
  destruct rest as [|a [|b' [|c r]]]; rewrite ?len_cons, ?len_nil.
  all: match goal with
       | |- context [ ?x <? ?y ] => destruct (Z.ltb_spec x y)
       end.
  all: try (pose proof (len_nonneg r)); try lia.
  all: cbn; rewrite ?byte_eqb_refl; cbn.
  all: try reflexivity.
  all: try (destruct (Byte.eqb LF a); reflexivity).
  all: try (destruct (Byte.eqb LF a), (Byte.eqb CR b'); reflexivity).
Qed.

(** The in-line test of src/src/sendeml.ts at a CR. *)
Lemma nextThree_spec (b pre rest : Uint8Array) :
  b = pre ++ CR :: rest ->
  eqAt LF (at_ b (len pre + 1)) && eqAt CR (at_ b (len pre + 2))
    && eqAt LF (at_ b (len pre + 3))
  = beginsWith EMPTY_LINE (CR :: rest).
Proof.
  intros ->. pose proof (len_nonneg pre) as Hp.
  assert (Hat : forall i, 0 <= i ->
            at_ (pre ++ CR :: rest) (len pre + (1 + i)) = at_ rest i).
  { intros i Hi. rewrite at_app_r by lia. unfold at_.
    destruct (Z.ltb_spec (1 + i) 0); [lia|]. destruct (Z.ltb_spec i 0); [lia|].
    replace (Z.to_nat (1 + i)) with (S (Z.to_nat i)) by lia. reflexivity. }
  replace (len pre + 1) with (len pre + (1 + 0)) by lia.
  replace (len pre + 2) with (len pre + (1 + 1)) by lia.
  replace (len pre + 3) with (len pre + (1 + 2)) by lia.
  rewrite !Hat by lia.
  change (at_ rest 0) with (nth_error rest 0).
  change (at_ rest 1) with (nth_error rest 1).
  change (at_ rest 2) with (nth_error rest 2).
  destruct rest as [|a [|b' [|c r]]]; cbn; rewrite ?byte_eqb_refl; cbn;
    try reflexivity.
  - destruct (Byte.eqb LF a); reflexivity.
  - destruct (Byte.eqb LF a), (Byte.eqb CR b'); reflexivity.
  - destruct (Byte.eqb LF a), (Byte.eqb CR b'), (Byte.eqb LF c); reflexivity.
Qed.

Lemma firstEmptyLine_at_CR (rest : Uint8Array) :
  firstEmptyLine (CR :: rest)
  = if beginsWith EMPTY_LINE (CR :: rest) then Some O
    else option_map S (firstEmptyLine rest).
Proof. reflexivity. Qed.

Ltac split_at_CR b off p rest E1 :=
  let Hb := fresh "Hb" in
  let Hlen := fresh "Hlen" in
  let Hbl := fresh "Hbl" in
  destruct (skipn_decompose _ _ _ _ _ E1) as [Hb Hlen];
  assert (Hbl : len b = off + len p + 1 + len rest)
    by (rewrite Hb at 1; rewrite !len_app, len_cons; unfold len at 1;
        rewrite Hlen; lia);
  pose proof (len_nonneg rest); pose proof (len_nonneg p).

(** The loop of [findEmptyLine] returns the offset of the first boundary
    in the rest of the buffer, whatever fuel is left beyond the bytes to
    scan. *)
Lemma findEmptyLine_loop_spec (b : Uint8Array) (fuel : nat) (off : Z) :
  0 <= off <= len b -> len b - off < Z.of_nat fuel ->
  findEmptyLine_loop fuel b off
  = match firstEmptyLine (skipn (Z.to_nat off) b) with
    | Some n => off + Z.of_nat n
    | None => -1
    end.
Proof.
  revert off. induction fuel as [|f IH]; intros off Hoff Hfuel; [lia|].
  cbn [findEmptyLine_loop]. unfold findCr.
  destruct (indexOf_spec b CR off Hoff) as [[E1 E2] | (p & rest & E1 & E2 & E3)].
  - rewrite E1. simpl.
    rewrite <- (app_nil_r (skipn _ b)), firstEmptyLine_skip by exact E2.
    reflexivity.
  - rewrite E3. split_at_CR b off p rest E1.
    destruct (Z.eqb_spec (off + len p) (-1)); [lia|].
    assert (Hpre : b = (firstn (Z.to_nat off) b ++ p) ++ CR :: rest)
      by (rewrite <- app_assoc; exact Hb).
    assert (Hlp : len (firstn (Z.to_nat off) b ++ p) = off + len p)
      by (rewrite len_app; unfold len at 1; rewrite Hlen; lia).
    rewrite <- Hlp, (hasNextLfCrLf_spec _ _ _ Hpre), Hlp.
    rewrite E1, firstEmptyLine_skip, firstEmptyLine_at_CR by exact E2.
    destruct (beginsWith EMPTY_LINE (CR :: rest)).
    + simpl. unfold len. lia.
    + rewrite IH by lia.
      replace (Z.to_nat (off + len p + 1)) with (Z.to_nat off + List.length p + 1)%nat
        by (unfold len; lia).
      rewrite (skipn_after _ _ _ _ _ E1).
      destruct (firstEmptyLine rest); simpl; [unfold len; lia | reflexivity].
Qed.

Lemma findEmptyLine_src_loop_spec (b : Uint8Array) (fuel : nat) (off : Z) :
  0 <= off <= len b -> len b - off < Z.of_nat fuel ->
  Sendeml_src.findEmptyLine_loop fuel b off
  = match firstEmptyLine (skipn (Z.to_nat off) b) with
    | Some n => off + Z.of_nat n
    | None => -1
    end.
Proof.
  revert off. induction fuel as [|f IH]; intros off Hoff Hfuel; [lia|].
  cbn [Sendeml_src.findEmptyLine_loop]. unfold Sendeml_src.findCrIndex.
  destruct (indexOf_spec b CR off Hoff) as [[E1 E2] | (p & rest & E1 & E2 & E3)].
  - rewrite E1. simpl.
    rewrite <- (app_nil_r (skipn _ b)), firstEmptyLine_skip by exact E2.
    reflexivity.
  - rewrite E3. split_at_CR b off p rest E1.
    destruct (Z.eqb_spec (off + len p) (-1)); [lia|]. simpl orb.
    rewrite E1, firstEmptyLine_skip by exact E2.
    destruct (Z.geb_spec (off + len p + 3) (len b)) as [Hge | Hlt].
    + rewrite firstEmptyLine_short; [reflexivity|].
      simpl. unfold len in *. lia.
    + assert (Hpre : b = (firstn (Z.to_nat off) b ++ p) ++ CR :: rest)
        by (rewrite <- app_assoc; exact Hb).
      assert (Hlp : len (firstn (Z.to_nat off) b ++ p) = off + len p)
        by (rewrite len_app; unfold len at 1; rewrite Hlen; lia).
      rewrite <- Hlp, (nextThree_spec _ _ _ Hpre), Hlp, firstEmptyLine_at_CR.
      destruct (beginsWith EMPTY_LINE (CR :: rest)).
      * simpl. unfold len. lia.
      * rewrite IH by lia.
        replace (Z.to_nat (off + len p + 1)) with (Z.to_nat off + List.length p + 1)%nat
          by (unfold len; lia).
        rewrite (skipn_after _ _ _ _ _ E1).
        destruct (firstEmptyLine rest); simpl; [unfold len; lia | reflexivity].
Qed.

Lemma findEmptyLine_spec (b : Uint8Array) :
  findEmptyLine b
  = match firstEmptyLine b with Some n => Z.of_nat n | None => -1 end.
Proof.
  unfold findEmptyLine. pose proof (len_nonneg b).
  rewrite findEmptyLine_loop_spec by (unfold len in *; lia).
  simpl. destruct (firstEmptyLine b); reflexivity.
Qed.

(** More fuel than [findEmptyLine] takes changes nothing. *)
Lemma findEmptyLine_enough_fuel (b : Uint8Array) (fuel : nat) :
  (List.length b < fuel)%nat -> findEmptyLine_loop fuel b 0 = findEmptyLine b.
Proof.
  intros H. unfold findEmptyLine. pose proof (len_nonneg b).
  rewrite !findEmptyLine_loop_spec by (unfold len in *; lia). reflexivity.
Qed.

(** Both texts of [findEmptyLine] compute the same offset. *)
Lemma findEmptyLine_src_eq (b : Uint8Array) :
  Sendeml_src.findEmptyLine b = findEmptyLine b.
Proof.
  rewrite findEmptyLine_spec. unfold Sendeml_src.findEmptyLine.
  pose proof (len_nonneg b).
  rewrite findEmptyLine_src_loop_spec by (unfold len in *; lia).
  simpl. destruct (firstEmptyLine b); reflexivity.
Qed.

Lemma splitMail_src_eq (b : Uint8Array) : Sendeml_src.splitMail b = splitMail b.
Proof.
  unfold Sendeml_src.splitMail, splitMail. rewrite findEmptyLine_src_eq. reflexivity.
Qed.

Lemma splitMail_spec (b : Uint8Array) :
  splitMail b
  = match firstEmptyLine b with
    | Some n => Some (firstn n b, skipn (n + 4) b)
    | None => None
    end.
Proof.
  unfold splitMail. rewrite findEmptyLine_spec.
  destruct (firstEmptyLine b) as [n|] eqn:E; [|reflexivity].
  destruct (Z.eqb_spec (Z.of_nat n) (-1)); [lia|].
  destruct (firstEmptyLine_Some b n E) as (H1 & H2 & _).
  rewrite !slice_range by (unfold len; simpl; lia).
  f_equal. f_equal.
  - rewrite Z.sub_0_r, Nat2Z.id. reflexivity.
  - replace (Z.to_nat (Z.of_nat n + len EMPTY_LINE)) with (n + 4)%nat
      by (unfold len; simpl; lia).
    apply firstn_all2. rewrite length_skipn. unfold len. simpl. lia.
Qed.

Lemma combineMail_spec (header body : Uint8Array) :
  combineMail header body = Ok (header ++ EMPTY_LINE ++ body).
Proof.
  unfold combineMail. rewrite concatBytes_spec. simpl. rewrite app_nil_r. reflexivity.
Qed.

(** C3. When [splitMail] succeeds on a buffer, [combineMail] of the header
    and body it returns is header ++ CRLFCRLF ++ body, and that is the
    buffer: [combineMail] inverts a valid split.  The [splitMail] of
    src/src/sendeml.ts returns the same pair. *)
Theorem combineMail_splitMail (bytes header body : Uint8Array) :
  splitMail bytes = Some (header, body) ->
  combineMail header body = Ok (header ++ EMPTY_LINE ++ body)
  /\ header ++ EMPTY_LINE ++ body = bytes
  /\ Sendeml_src.splitMail bytes = Some (header, body).
Proof.
  intros H. split; [apply combineMail_spec|]. split.
  - rewrite splitMail_spec in H.
    destruct (firstEmptyLine bytes) as [n|] eqn:E; [|discriminate].
    injection H as <- <-. symmetry. apply (firstEmptyLine_Some bytes n E).
  - rewrite splitMail_src_eq. exact H.
Qed.

Lemma combineMail_splitMail_witness :
  splitMail sampleMail = Some (foldedHeader, encode "test")
  /\ combineMail foldedHeader (encode "test") = Ok sampleMail.
Proof.
  assert (H : splitMail sampleMail = Some (foldedHeader, encode "test"))
    by (vm_compute; reflexivity).
  split; [exact H|].
  destruct (combineMail_splitMail sampleMail foldedHeader (encode "test") H)
    as (H1 & H2 & _).
  rewrite H1. f_equal.
Defined.

(** C7. A buffer in which no CR is followed by LF, CR, LF has no boundary:
    [findEmptyLine] answers -1, [splitMail] reports "not found", and
    [replaceMail] with both flags set returns the failure result and no
    bytes. *)
Theorem replaceMail_no_boundary (host : Host) (bytes : Uint8Array) :
  (forall i, ~ emptyLineAt bytes i) ->
  findEmptyLine bytes = -1
  /\ splitMail bytes = None
  /\ replaceMail host bytes true true = Ok None.
Proof.
  intros H. apply hasEmptyLine_false in H. unfold hasEmptyLine in H.
  assert (Hs : splitMail bytes = None).
  { rewrite splitMail_spec. destruct (firstEmptyLine bytes); [discriminate | reflexivity]. }
  split; [|split].
  - rewrite findEmptyLine_spec. destruct (firstEmptyLine bytes); [discriminate | reflexivity].
  - exact Hs.
  - unfold replaceMail, replaceMail_rewrite. simpl. rewrite Hs. reflexivity.
Qed.

Lemma replaceMail_no_boundary_witness :
  (forall i, ~ emptyLineAt foldedHeader i)
  /\ splitMail foldedHeader = None
  /\ replaceMail sampleHost foldedHeader true true = Ok None.
Proof.
  assert (H : forall i, ~ emptyLineAt foldedHeader i)
    by (apply hasEmptyLine_false; vm_compute; reflexivity).
  split; [exact H|].
  exact (proj2 (replaceMail_no_boundary sampleHost foldedHeader H)).
Defined.

Lemma emptyLineAt_firstn (b : Uint8Array) (n i : nat) :
  emptyLineAt (firstn n b) i -> emptyLineAt b i /\ (i + 4 <= n)%nat.
Proof.
  unfold emptyLineAt. intros H.
  rewrite skipn_firstn_comm, firstn_firstn in H.
  assert (Hl : List.length (firstn (Nat.min 4 (n - i)) (skipn i b)) = 4%nat)
    by (rewrite H; reflexivity).
  rewrite length_firstn in Hl.
  assert (Hm : Nat.min 4 (n - i) = 4%nat) by lia.
  rewrite Hm in H. split; [exact H | lia].
Qed.

Lemma emptyLineAt_decomposition (h b : Uint8Array) :
  emptyLineAt (h ++ EMPTY_LINE ++ b) (List.length h).
Proof.
  unfold emptyLineAt. rewrite skipn_app, skipn_all, Nat.sub_diag. reflexivity.
Qed.

(** C10 (amended). When [splitMail] succeeds, CR LF CR LF occurs nowhere
    inside the header it returns, because no occurrence in the buffer
    starts before the end of that header ([findEmptyLine] returns the
    earliest offset); and the pair returned is the only way to cut the
    buffer at an occurrence that no other occurrence precedes.  (That the
    header holds no CR LF CR LF does not single the pair out: see the
    counterexample below.) *)
Theorem splitMail_header_no_boundary (bytes header body : Uint8Array) :
  splitMail bytes = Some (header, body) ->
  (forall i, ~ emptyLineAt header i)
  /\ (forall i, emptyLineAt bytes i -> (List.length header <= i)%nat)
  /\ (forall header' body',
        bytes = header' ++ EMPTY_LINE ++ body' ->
        (forall i, emptyLineAt bytes i -> (List.length header' <= i)%nat) ->
        header' = header /\ body' = body).
Proof.
  intros H. rewrite splitMail_spec in H.
  destruct (firstEmptyLine bytes) as [n|] eqn:E; [|discriminate].
  injection H as <- <-.
  destruct (firstEmptyLine_Some bytes n E) as (H1 & H2 & H3).
  assert (Hlen : List.length (firstn n bytes) = n) by (apply firstn_length_le; lia).
  split; [|split].
  - intros i Hi. apply emptyLineAt_firstn in Hi. destruct Hi as [Hi Hn].
    apply H3 in Hi. lia.
  - intros i Hi. rewrite Hlen. apply H3. exact Hi.
  - intros header' body' Hd Hmin.
    assert (Hn : List.length header' = n).
    { apply Nat.le_antisymm.
      - apply Hmin. unfold emptyLineAt. rewrite H1 at 1.
        rewrite skipn_app, skipn_all2, Hlen, Nat.sub_diag by lia. reflexivity.
      - apply H3. rewrite Hd. apply emptyLineAt_decomposition. }
    subst n. rewrite Hd. split; symmetry.
    + rewrite firstn_app, firstn_all, Nat.sub_diag. simpl. apply app_nil_r.
    + replace (List.length header' + 4)%nat with (List.length (header' ++ EMPTY_LINE))
        by (rewrite length_app; reflexivity).
      rewrite app_assoc, skipn_app, skipn_all, Nat.sub_diag. reflexivity.
Qed.

Lemma splitMail_header_no_boundary_witness :
  splitMail sampleMail = Some (foldedHeader, encode "test")
  /\ forall i, ~ emptyLineAt foldedHeader i.
Proof.
  assert (H : splitMail sampleMail = Some (foldedHeader, encode "test"))
    by (vm_compute; reflexivity).
  split; [exact H|].
  exact (proj1 (splitMail_header_no_boundary sampleMail foldedHeader (encode "test") H)).
Defined.

(** C10 as stated fails: a header free of CR LF CR LF does not make the
    decomposition unique.  The buffer "X: y" CR LF CR LF CR LF "body" is
    split at offset 4, and it is also "X: y" CR LF, then CR LF CR LF, then
    "body", with a header that holds no CR LF CR LF either. *)
Lemma splitMail_header_no_boundary_counterexample :
  let bytes := encode ("X: y" ++ CRLF ++ CRLF ++ CRLF ++ "body") in
  let header' := encode ("X: y" ++ CRLF) in
  let body' := encode "body" in
  splitMail bytes = Some (encode "X: y", encode (CRLF ++ "body"))
  /\ bytes = header' ++ EMPTY_LINE ++ body'
  /\ (forall i, ~ emptyLineAt header' i)
  /\ (header', body') <> (encode "X: y", encode (CRLF ++ "body")).
Proof.
  cbv zeta. split; [vm_compute; reflexivity|]. split; [vm_compute; reflexivity|].
  split; [apply hasEmptyLine_false; vm_compute; reflexivity | discriminate].
Qed.

(** Boundaries can overlap: in CR LF CR LF CR LF the split is taken at
    offset 0, although cutting at offset 2 also leaves a header without
    CR LF CR LF.  The earliest offset, not the header's content alone,
    singles out the split. *)
Remark overlapping_boundaries :
  let bytes := [CR; LF; CR; LF; CR; LF] in
  splitMail bytes = Some ([], [CR; LF])
  /\ bytes = [CR; LF] ++ EMPTY_LINE ++ []
  /\ hasEmptyLine [CR; LF] = false.
Proof. vm_compute. repeat split. Qed.

(** ** The identity path of [replaceMail] *)

(** C5. With both flags false [replaceMail] succeeds and returns the very
    reference it was given, allocating nothing, whatever the buffer (it
    does not look for a boundary); on values, the result is the input. *)
Theorem replaceMail_identity (host : Host) (st : Store) (bytes : Ref)
  (value : Uint8Array) :
  replaceMail_ref host st bytes false false = (Ok (Some bytes), st)
  /\ replaceMail host value false false = Ok (Some value).
Proof. split; reflexivity. Qed.

(** With a flag set, a successful [replaceMail] returns a new buffer, not
    the one it was given: the store tells the two apart. *)
Lemma replaceMail_ref_fresh (host : Host) (st st' : Store) (bytes r : Ref) (d m : bool) :
  isNotUpdate d m = false -> (bytes < List.length st)%nat ->
  replaceMail_ref host st bytes d m = (Ok (Some r), st') ->
  r <> bytes /\ List.length st' = S (List.length st).
Proof.
  intros Hu Hb H. unfold replaceMail_ref in H. rewrite Hu in H.
  destruct (replaceMail_rewrite host (deref st bytes) d m) as [[res|]|msg];
    simpl in H; try discriminate.
  injection H as <- <-. split; [lia|]. rewrite length_app. simpl. lia.
Qed.

(** The value that [replaceMail_ref] returns is the one of [replaceMail]. *)
Lemma replaceMail_ref_value (host : Host) (st : Store) (bytes : Ref) (d m : bool) :
  match replaceMail_ref host st bytes d m with
  | (Ok (Some r), st') => replaceMail host (deref st bytes) d m = Ok (Some (deref st' r))
  | (Ok None, _) => replaceMail host (deref st bytes) d m = Ok None
  | (Throw msg, _) => replaceMail host (deref st bytes) d m = Throw msg
  end.
Proof.
  unfold replaceMail_ref, replaceMail. destruct (isNotUpdate d m); [reflexivity|].
  destruct (replaceMail_rewrite host (deref st bytes) d m) as [[res|]|msg];
    simpl; try reflexivity.
  unfold deref. rewrite app_nth2, Nat.sub_diag by lia. reflexivity.
Qed.

(** ** SMTP reply classification *)

Lemma matchPlus_true_k (a : Atom) (s : JsString) :
  matchPlus a (fun _ => true) s
  = match s with c :: _ => matchAtom a c | [] => false end.
Proof.
  destruct s as [|c s']; simpl; [reflexivity|].
  rewrite orb_true_r, andb_true_r. reflexivity.
Qed.

Lemma isLastReply_unfold (line : JsString) :
  isLastReply line
  = match line with
    | d1 :: d2 :: d3 :: sp :: c :: _ =>
        matchAtom Digit d1 && (matchAtom Digit d2 && (matchAtom Digit d3
          && (N.eqb sp 32 && negb (isLineTerminator c))))
    | _ => false
    end.
Proof.
  unfold isLastReply, test. cbn [anchored items LAST_REPLY_REGEX matchItems].
  destruct line as [|d1 [|d2 [|d3 [|sp rest]]]]; cbn [matchTimes];
    rewrite ?andb_false_r; try reflexivity.
  rewrite matchPlus_true_k. destruct rest as [|c rest']; cbn [matchAtom];
    rewrite ?andb_false_r; reflexivity.
Qed.

(** C8. [isLastReply] holds exactly of the strings that ^\d{3} .+
    describes: three digits, one space and at least one further character
    (one that [.] accepts, so not a line terminator).  [isPositiveReply]
    holds exactly when the first character is '2' or '3', so not for the
    empty string.  "250-First line" is not last, "250 The last line" is
    last and positive, "550 Failure" is last and not positive. *)
Theorem reply_classification (line : JsString) :
  (isLastReply line = true <-> lastReplyShape line)
  /\ (isPositiveReply line = true
      <-> exists rest, line = 50%N :: rest \/ line = 51%N :: rest)
  /\ isPositiveReply [] = false
  /\ isLastReply (codeUnits "250-First line") = false
  /\ isLastReply (codeUnits "250 The last line") = true
  /\ isPositiveReply (codeUnits "250 The last line") = true
  /\ isLastReply (codeUnits "550 Failure") = true
  /\ isPositiveReply (codeUnits "550 Failure") = false.
Proof.
  split; [|split; [|repeat split]].
  - rewrite isLastReply_unfold. unfold lastReplyShape. split.
    + destruct line as [|d1 [|d2 [|d3 [|sp [|c rest]]]]]; try discriminate.
      rewrite !andb_true_iff, N.eqb_eq, negb_true_iff.
      intros (H1 & H2 & H3 & -> & H5).
      exists d1, d2, d3, c, rest. repeat split; assumption.
    + intros (d1 & d2 & d3 & c & rest & -> & H1 & H2 & H3 & H5).
      rewrite H1, H2, H3, H5. reflexivity.
  - unfold isPositiveReply, strEq. destruct line as [|c rest].
    + simpl. split; [discriminate | intros [r [H | H]]; discriminate].
    + change (at_ (c :: rest) 0) with (Some c).
      change (codeUnits "2") with [50%N]. change (codeUnits "3") with [51%N].
      destruct (list_eq_dec N.eq_dec [c] [50%N]) as [E | NE].
      * injection E as ->. split; [intros _; exists rest; left; reflexivity | reflexivity].
      * destruct (list_eq_dec N.eq_dec [c] [51%N]) as [E | NE'].
        -- injection E as ->. split; [intros _; exists rest; right; reflexivity | reflexivity].
        -- simpl. split; [discriminate|].
           intros [r [H | H]]; injection H as -> _; contradiction.
Qed.

(** ** Strings and their bytes *)

Lemma append_assoc (a b c : string) : ((a ++ b) ++ c = a ++ (b ++ c))%string.
Proof. induction a as [|x a IH]; simpl; [reflexivity | rewrite IH; reflexivity]. Qed.

Lemma list_ascii_of_string_app (a b : string) :
  list_ascii_of_string (a ++ b) = list_ascii_of_string a ++ list_ascii_of_string b.
Proof. induction a as [|x a IH]; simpl; [reflexivity | rewrite IH; reflexivity]. Qed.

Lemma encode_app (a b : string) : encode (a ++ b) = encode a ++ encode b.
Proof.
  unfold encode, list_byte_of_string. rewrite list_ascii_of_string_app, map_app.
  reflexivity.
Qed.

(** ** The Date line *)

Lemma padZero2_spec (n : Z) : 0 <= n <= 99 -> padZero2 n = Ok (twoDigits n).
Proof.
  intros Hn.
  assert (Hall : forallb padZero2_agrees (seq 0 100) = true) by (vm_compute; reflexivity).
  rewrite forallb_forall in Hall.
  specialize (Hall (Z.to_nat n)). unfold padZero2_agrees in Hall.
  rewrite Z2Nat.id in Hall by lia.
  destruct (padZero2 n) as [s|msg].
  - f_equal. apply String.eqb_eq. apply Hall. apply in_seq. lia.
  - discriminate Hall. apply in_seq. lia.
Qed.

Lemma padZero2_throw (n : Z) :
  padZero2 n = Throw "invalid number" \/ exists s, padZero2 n = Ok s.
Proof.
  unfold padZero2. destruct ((n <? 0) || (n >? 99)); [left | right; eexists]; reflexivity.
Qed.

Lemma makeTimeZoneOffset_spec (min : Z) :
  -840 <= min <= 720 ->
  makeTimeZoneOffset min
  = Ok ((if Z.leb min 0 then "+" else "-")
          ++ twoDigits (Z.abs min / 60) ++ twoDigits (Z.abs min mod 60))%string.
Proof.
  intros H. unfold makeTimeZoneOffset.
  destruct (Z.ltb_spec min (-840)); [lia|].
  destruct (Z.gtb_spec min 720); [lia|]. cbn [orb].
  assert (0 <= Z.abs min / 60 <= 14).
  { split; [apply Z.div_pos; lia|]. apply Z.div_le_upper_bound; lia. }
  assert (0 <= Z.abs min mod 60 < 60) by (apply Z.mod_pos_bound; lia).
  rewrite !padZero2_spec by lia. reflexivity.
Qed.

(** X24. The time-zone token of the generated Date line,
    [makeTimeZoneOffset] of the minutes-from-UTC offset: its sign is "+"
    for a negative offset (ahead of UTC) and "-" for a positive one, and it
    is followed by the two-digit zero-padded hours and minutes of the
    magnitude; outside [-840, 720] an error is raised, by
    [makeTimeZoneOffset] and so by [makeNowDateLine]. *)
Theorem makeTimeZoneOffset_sign (obj : DateObj) :
  let min := getTimezoneOffset obj in
  let digits := (twoDigits (Z.abs min / 60) ++ twoDigits (Z.abs min mod 60))%string in
  (-840 <= min < 0 -> makeTimeZoneOffset min = Ok ("+" ++ digits)%string)
  /\ (0 < min <= 720 -> makeTimeZoneOffset min = Ok ("-" ++ digits)%string)
  /\ (min < -840 \/ 720 < min ->
      makeTimeZoneOffset min = Throw "invalid number"
      /\ makeNowDateLine obj = Throw "invalid number")
  /\ (validDate obj ->
      exists front zone,
        makeTimeZoneOffset min = Ok zone
        /\ makeNowDateLine obj = Ok (front ++ " " ++ zone ++ CRLF)%string).
Proof.
  intros min digits. subst digits. split; [|split; [|split]].
  - intros H. rewrite makeTimeZoneOffset_spec by lia.
    destruct (Z.leb_spec min 0); [reflexivity | lia].
  - intros H. rewrite makeTimeZoneOffset_spec by lia.
    destruct (Z.leb_spec min 0); [lia | reflexivity].
  - intros H.
    assert (Hz : makeTimeZoneOffset min = Throw "invalid number").
    { unfold makeTimeZoneOffset.
      destruct (Z.ltb_spec min (-840)); [reflexivity|].
      destruct (Z.gtb_spec min 720); [reflexivity | lia]. }
    split; [exact Hz|]. unfold makeNowDateLine. fold min. rewrite Hz.
    destruct (padZero2_throw (getDate obj)) as [-> | [s1 ->]]; [reflexivity|].
    destruct (padZero2_throw (getHours obj)) as [-> | [s2 ->]]; [reflexivity|].
    destruct (padZero2_throw (getMinutes obj)) as [-> | [s3 ->]]; [reflexivity|].
    destruct (padZero2_throw (getSeconds obj)) as [-> | [s4 ->]]; reflexivity.
  - intros (Hd & Hdt & Hm & Hh & Hmi & Hs & Hz).
    unfold makeNowDateLine. fold min.
    rewrite !padZero2_spec by lia.
    rewrite (makeTimeZoneOffset_spec min Hz). cbn [bind].
    eexists. eexists. split; [reflexivity|].
    f_equal. rewrite <- !append_assoc. reflexivity.
Qed.

Lemma makeTimeZoneOffset_sign_witness :
  makeTimeZoneOffset (-540) = Ok "+0900"%string
  /\ makeTimeZoneOffset 540 = Ok "-0900"%string
  /\ makeTimeZoneOffset 721 = Throw "invalid number"
  /\ makeNowDateLine (dateWithOffset (-540))
     = Ok ("Date: Sun, 26 Jul 2020 22:01:37 +0900" ++ CRLF)%string.
Proof.
  destruct (makeTimeZoneOffset_sign (dateWithOffset (-540))) as (H1 & _ & _ & H4).
  destruct (makeTimeZoneOffset_sign (dateWithOffset 540)) as (_ & H2 & _ & _).
  destruct (makeTimeZoneOffset_sign (dateWithOffset 721)) as (_ & _ & H3 & _).
  split; [|split; [|split]].
  - apply H1. simpl. lia.
  - apply H2. simpl. lia.
  - apply H3. simpl. lia.
  - assert (Hv : validDate (dateWithOffset (-540))) by (unfold validDate; simpl; lia).
    destruct (H4 Hv) as (front & zone & _ & _). reflexivity.
Defined.

(** C9 (code defect). The [makeNowDateLine] of src/src/sendeml.ts does
    not keep the sign convention: it writes "+" before the zone digits
    whatever the offset and checks no range.  Five hours behind UTC
    ([getTimezoneOffset] 300) it writes "+-500" where the specification,
    and [makeTimeZoneOffset] of the later revision, give "-0500"; thirteen
    hours behind UTC (780, outside [-840, 720]) it returns a line with
    "+1300" where the specification asks for an error, which the later
    revision raises. *)
Theorem makeNowDateLine_src_zone (fractionText : Z -> string) :
  Sendeml_src_date.makeNowDateLine fractionText (dateWithOffset 300)
  = ("Date: Sun, 26 Jul 2020 22:01:37 +-500" ++ CRLF)%string
  /\ makeNowDateLine (dateWithOffset 300)
     = Ok ("Date: Sun, 26 Jul 2020 22:01:37 -0500" ++ CRLF)%string
  /\ Sendeml_src_date.makeNowDateLine fractionText (dateWithOffset 780)
     = ("Date: Sun, 26 Jul 2020 22:01:37 +1300" ++ CRLF)%string
  /\ makeNowDateLine (dateWithOffset 780) = Throw "invalid number".
Proof. repeat split. Qed.

(** ** Matching and folding *)

Lemma everyAux_beginsWith (header pre line : Uint8Array) :
  everyAux (fun v i => eqAt v (at_ (pre ++ line) i)) header (len pre)
  = beginsWith header line.
Proof.
  revert pre line. induction header as [|h header' IH]; intros pre line; simpl.
  - reflexivity.
  - replace (len pre) with (len pre + 0) at 1 by lia.
    rewrite at_app_r by lia.
    destruct line as [|c line'].
    + reflexivity.
    + change (at_ (c :: line') 0) with (Some c). cbn [eqAt].
      destruct (Byte.eqb h c); [|reflexivity]. simpl.
      replace (pre ++ c :: line') with ((pre ++ [c]) ++ line')
        by (rewrite <- app_assoc; reflexivity).
      replace (len pre + 1) with (len (pre ++ [c]))
        by (rewrite len_app, len_cons, len_nil; lia).
      apply IH.
Qed.

(** For a field name that is not empty, [matchHeader] does not throw and
    tells whether the line begins with the name. *)
Lemma matchHeader_spec (line header : Uint8Array) :
  header <> [] -> matchHeader line header = Ok (beginsWith header line).
Proof.
  intros Hne. unfold matchHeader.
  destruct (Z.eqb_spec (len header) 0) as [E | _].
  { destruct header; [contradiction | rewrite len_cons in E].
    pose proof (len_nonneg header). lia. }
  pose proof (everyAux_beginsWith header [] line) as Hev. simpl in Hev.
  destruct (Z.ltb_spec (len line) (len header)) as [Hlt | _].
  - f_equal. destruct (beginsWith header line) eqn:E; [|reflexivity].
    apply beginsWith_spec in E. destruct E as [rest ->].
    rewrite len_app in Hlt. pose proof (len_nonneg rest). lia.
  - unfold every. rewrite <- Hev. reflexivity.
Qed.

Lemma isDateLine_spec (line : Uint8Array) :
  isDateLine line = Ok (beginsWith DATE_BYTES line).
Proof. apply matchHeader_spec. discriminate. Qed.

Lemma isMessageIdLine_spec (line : Uint8Array) :
  isMessageIdLine line = Ok (beginsWith MESSAGE_ID_BYTES line).
Proof. apply matchHeader_spec. discriminate. Qed.

(** What [findIndex] finds: nothing, or the first element that passes. *)
Lemma findIndexAux_spec {A : Type} (p : A -> bool) (l : list A) (i : Z) :
  (findIndexAux p l i = -1 /\ forallb (fun x => negb (p x)) l = true)
  \/ (exists pre x post, l = pre ++ x :: post
        /\ forallb (fun x => negb (p x)) pre = true /\ p x = true
        /\ findIndexAux p l i = i + len pre).
Proof.
  revert i. induction l as [|x t IH]; intros i; simpl.
  - left. split; reflexivity.
  - destruct (p x) eqn:E.
    + right. exists [], x, t. rewrite len_nil. repeat split; [exact E | lia].
    + destruct (IH (i + 1)) as [[H1 H2] | (pre & y & post & H1 & H2 & H3 & H4)].
      * left. split; assumption.
      * right. exists (x :: pre), y, post. subst t. simpl. rewrite E, H2, H4, len_cons.
        repeat split; [exact H3 | lia].
Qed.

Lemma findIndexMAux_total {A : Type} (p : A -> Outcome bool) (q : A -> bool)
  (l : list A) (i : Z) :
  (forall x, p x = Ok (q x)) -> findIndexMAux p l i = Ok (findIndexAux q l i).
Proof.
  intros Hp. revert i. induction l as [|x t IH]; intros i; simpl; [reflexivity|].
  rewrite Hp. simpl. destruct (q x); [reflexivity | apply IH].
Qed.

Lemma forallb_negb_negb {A : Type} (f : A -> bool) (l : list A) :
  forallb (fun x => negb (negb (f x))) l = forallb f l.
Proof.
  induction l as [|x t IH]; simpl; [reflexivity|].
  rewrite negb_involutive, IH. reflexivity.
Qed.

Lemma isFoldedLine_nil : isFoldedLine [] = false.
Proof. reflexivity. Qed.

(** What [dropFoldedLine] returns: the list from its first line that is not
    folded on, but the whole list when every line is folded. *)
Lemma dropFoldedLine_spec (lines : Lines) :
  dropFoldedLine lines
  = if forallb isFoldedLine lines then lines else unfoldedTail lines.
Proof.
  unfold dropFoldedLine, findIndex, unfoldedTail.
  destruct (findIndexAux_spec (fun l => negb (isFoldedLine l)) lines 0)
    as [[H1 H2] | (pre & x & post & H1 & H2 & H3 & H4)].
  - rewrite H1. simpl.
    replace (forallb isFoldedLine lines) with true; [reflexivity|].
    rewrite <- H2. apply forallb_negb_negb.
  - rewrite H4. subst lines. pose proof (len_nonneg pre) as Hp.
    assert (Hpre : forallb isFoldedLine pre = true).
    { rewrite <- H2. symmetry. apply forallb_negb_negb. }
    apply negb_true_iff in H3.
    assert (Hall : forallb isFoldedLine (pre ++ x :: post) = false).
    { rewrite forallb_app. simpl. rewrite H3, andb_false_r. reflexivity. }
    assert (Hdrop : dropWhile isFoldedLine (pre ++ x :: post) = x :: post).
    { clear -Hpre H3. induction pre as [|y pre IH]; simpl in *.
      - rewrite H3. reflexivity.
      - apply andb_true_iff in Hpre. destruct Hpre as [Hy Hpre]. rewrite Hy. apply IH, Hpre. }
    rewrite Hall, Hdrop.
    destruct (Z.leb_spec (0 + len pre) 0) as [Hle | Hgt].
    + destruct pre; [reflexivity | rewrite len_cons in Hle].
      pose proof (len_nonneg pre). lia.
    + replace (0 + len pre) with (len pre) by lia. apply sliceFrom_suffix.
Qed.

(** C6 (the code at the input where it departs from the claim).
    [dropFoldedLine] returns the list from its first non-folded line on
    when there is one; when every line is folded, as for the continuation
    lines of a folded field that ends the header, it discards nothing and
    returns the list as it is, so the rewritten Date field keeps the old
    continuation lines. *)
Theorem dropFoldedLine_all_folded :
  let lines := [encode (" Sun, 26 Jul 2020" ++ CRLF); encode " 22:01:37 +0900"] in
  (forall ls, dropFoldedLine ls
              = if forallb isFoldedLine ls then ls else unfoldedTail ls)
  /\ forallb isFoldedLine lines = true
  /\ dropFoldedLine lines = lines
  /\ unfoldedTail lines = []
  /\ replaceHeader sampleHost (encode ("Date:" ++ CRLF) ++ List.concat lines) true false
     = Ok (encode ("Date: Sun, 26 Jul 2020 22:01:37 +0900" ++ CRLF)
             ++ List.concat lines).
Proof.
  intros lines. split; [exact dropFoldedLine_spec|].
  vm_compute. repeat split.
Qed.

(** ** The shape of line lists *)

Lemma physicalLines_shape (b : Uint8Array) : LineShape (physicalLines b).
Proof.
  induction b as [|c t IH]; simpl.
  - apply shape_open. intros [].
  - destruct (Byte.eqb c LF) eqn:E.
    + apply byte_eqb_eq in E. subst c. apply shape_cons; [|exact IH].
      exists []. split; [reflexivity | intros []].
    + apply byte_eqb_neq in E. inversion IH as [Hn | o Ho Hn | l ls Hl Hls Hn].
      * apply shape_open. intros [H | []]. congruence.
      * apply shape_open. intros [H | H]; [congruence | exact (Ho H)].
      * apply shape_cons; [|exact Hls]. destruct Hl as (p & -> & Hp).
        exists (c :: p). split; [reflexivity|].
        intros [H | H]; [congruence | exact (Hp H)].
Qed.

Lemma LineShape_tail (x : Uint8Array) (ls : Lines) :
  LineShape (x :: ls) -> LineShape ls.
Proof.
  intros H. inversion H as [| o Ho Hn | c l Hc Hl Hn]; [constructor | exact Hl].
Qed.

Lemma LineShape_split (pre : Lines) (x : Uint8Array) (post : Lines) :
  LineShape (pre ++ x :: post) -> Forall closedLine pre /\ LineShape post.
Proof.
  induction pre as [|y pre IH]; simpl; intros H.
  - split; [constructor | exact (LineShape_tail _ _ H)].
  - inversion H as [| o Ho Hn | c l Hc Hl Hn].
    + destruct pre; discriminate.
    + destruct (IH Hl) as [H1 H2]. split; [constructor; assumption | exact H2].
Qed.

Lemma LineShape_build (pre : Lines) (x : Uint8Array) (post : Lines) :
  Forall closedLine pre -> closedLine x -> LineShape post ->
  LineShape (pre ++ x :: post).
Proof.
  intros Hpre Hx Hpost. induction Hpre as [|y pre Hy Hpre IH]; simpl.
  - apply shape_cons; assumption.
  - apply shape_cons; assumption.
Qed.

Lemma LineShape_dropWhile (f : Uint8Array -> bool) (ls : Lines) :
  LineShape ls -> LineShape (dropWhile f ls).
Proof.
  induction ls as [|x t IH]; intros H; simpl; [exact H|].
  destruct (f x); [apply IH, (LineShape_tail _ _ H) | exact H].
Qed.

Lemma LineShape_dropFoldedLine (ls : Lines) :
  LineShape ls -> LineShape (dropFoldedLine ls).
Proof.
  intros H. rewrite dropFoldedLine_spec.
  destruct (forallb isFoldedLine ls); [exact H | apply LineShape_dropWhile, H].
Qed.

(** Splitting the concatenation of such a list gives the list back, with
    an empty last line when the list ended in a closed line. *)
Lemma physicalLines_concat (ls : Lines) :
  LineShape ls ->
  physicalLines (List.concat ls) = ls \/ physicalLines (List.concat ls) = ls ++ [[]].
Proof.
  intros H. induction H as [| o Ho | c ls Hc Hls IH].
  - right. reflexivity.
  - left. simpl. rewrite app_nil_r. apply physicalLines_noLF, Ho.
  - destruct Hc as (p & -> & Hp). simpl. rewrite <- app_assoc. simpl.
    rewrite physicalLines_app_LF by exact Hp.
    destruct IH as [-> | ->]; [left | right]; reflexivity.
Qed.

Lemma rewritten_shape (name newLine : Uint8Array) (lines lines' : Lines) :
  rewritten name newLine lines lines' -> closedLine newLine ->
  LineShape lines -> LineShape lines'.
Proof.
  intros [[_ ->] | (pre & x & post & -> & _ & _ & ->)] Hnl Hs; [exact Hs|].
  destruct (LineShape_split _ _ _ Hs) as [Hpre Hpost].
  apply LineShape_build; [exact Hpre | exact Hnl | apply LineShape_dropFoldedLine, Hpost].
Qed.

(** ** Counting lines and reading fields *)

Lemma filter_dropWhile_folded (f : Uint8Array -> bool) (ls : Lines) :
  skipsFolded f -> filter f (dropWhile isFoldedLine ls) = filter f ls.
Proof.
  intros Hf. induction ls as [|x t IH]; simpl; [reflexivity|].
  destruct (isFoldedLine x) eqn:E; [|reflexivity].
  rewrite (Hf x E). exact IH.
Qed.

Lemma filter_dropFoldedLine (f : Uint8Array -> bool) (ls : Lines) :
  skipsFolded f -> filter f (dropFoldedLine ls) = filter f ls.
Proof.
  intros Hf. rewrite dropFoldedLine_spec.
  destruct (forallb isFoldedLine ls); [reflexivity | apply filter_dropWhile_folded, Hf].
Qed.

Lemma rewritten_filter (name newLine : Uint8Array) (f : Uint8Array -> bool)
  (lines lines' : Lines) :
  rewritten name newLine lines lines' -> skipsFolded f ->
  (forall x, beginsWith name x = true -> f x = f newLine) ->
  List.length (filter f lines') = List.length (filter f lines).
Proof.
  intros [[_ ->] | (pre & x & post & -> & _ & Hx & ->)] Hf Hsame; [reflexivity|].
  rewrite !filter_app. simpl. rewrite (Hsame x Hx).
  rewrite filter_dropFoldedLine by exact Hf.
  destruct (f newLine); rewrite !length_app; reflexivity.
Qed.

Lemma beginsWith_folded (name : Uint8Array) (n : byte) (name' : Uint8Array) :
  name = n :: name' -> isWsp n = false -> skipsFolded (beginsWith name).
Proof.
  intros -> Hn l Hl. destruct l as [|c l']; [reflexivity|].
  simpl. destruct (Byte.eqb n c) eqn:E; [|reflexivity].
  apply byte_eqb_eq in E. subst c.
  unfold isFoldedLine in Hl. change (at_ (n :: l') 0) with (Some n) in Hl.
  cbn iota in Hl. congruence.
Qed.

Lemma date_skipsFolded : skipsFolded (beginsWith DATE_BYTES).
Proof. eapply beginsWith_folded; reflexivity. Qed.

Lemma messageId_skipsFolded : skipsFolded (beginsWith MESSAGE_ID_BYTES).
Proof. eapply beginsWith_folded; reflexivity. Qed.

Lemma date_not_messageId (l : Uint8Array) :
  beginsWith DATE_BYTES l = true -> beginsWith MESSAGE_ID_BYTES l = false.
Proof.
  destruct l as [|c l']; [discriminate|]. simpl.
  destruct (Byte.eqb "D" c) eqn:E; [|discriminate]. apply byte_eqb_eq in E. subst c.
  reflexivity.
Qed.

Lemma messageId_not_date (l : Uint8Array) :
  beginsWith MESSAGE_ID_BYTES l = true -> beginsWith DATE_BYTES l = false.
Proof.
  destruct l as [|c l']; [discriminate|]. simpl.
  destruct (Byte.eqb "M" c) eqn:E; [|discriminate]. apply byte_eqb_eq in E. subst c.
  reflexivity.
Qed.

Lemma beginsWith_not_folded (name l : Uint8Array) :
  skipsFolded (beginsWith name) -> beginsWith name l = true -> isFoldedLine l = false.
Proof.
  intros Hf Hl. destruct (isFoldedLine l) eqn:E; [|reflexivity].
  rewrite (Hf l E) in Hl. discriminate.
Qed.

Lemma takeWhile_stop {A : Type} (f : A -> bool) (a : list A) (n : A) (b : list A) :
  f n = false -> takeWhile f (a ++ n :: b) = takeWhile f a.
Proof.
  intros Hn. induction a as [|x a IH]; simpl.
  - rewrite Hn. reflexivity.
  - destruct (f x); [rewrite IH; reflexivity | reflexivity].
Qed.

Lemma takeWhile_dropWhile {A : Type} (f : A -> bool) (l : list A) :
  l = takeWhile f l ++ dropWhile f l.
Proof.
  induction l as [|x t IH]; simpl; [reflexivity|].
  destruct (f x); simpl; [f_equal; exact IH | reflexivity].
Qed.

Lemma takeWhile_forallb {A : Type} (f : A -> bool) (l : list A) :
  forallb f (takeWhile f l) = true.
Proof.
  induction l as [|x t IH]; simpl; [reflexivity|].
  destruct (f x) eqn:E; simpl; [rewrite E; exact IH | reflexivity].
Qed.

Lemma fieldOf_dropWhile_folded (name : Uint8Array) (ls : Lines) :
  skipsFolded (beginsWith name) ->
  fieldOf name (dropWhile isFoldedLine ls) = fieldOf name ls.
Proof.
  intros Hf. induction ls as [|x t IH]; simpl; [reflexivity|].
  destruct (isFoldedLine x) eqn:E; [|reflexivity].
  rewrite (Hf x E). exact IH.
Qed.

Lemma fieldOf_dropFoldedLine (name : Uint8Array) (ls : Lines) :
  skipsFolded (beginsWith name) -> fieldOf name (dropFoldedLine ls) = fieldOf name ls.
Proof.
  intros Hf. rewrite dropFoldedLine_spec.
  destruct (forallb isFoldedLine ls); [reflexivity | apply fieldOf_dropWhile_folded, Hf].
Qed.

(** Rewriting the field called [name] leaves a field called [other] as it
    was. *)
Lemma rewritten_fieldOf (name other newLine : Uint8Array) (lines lines' : Lines) :
  rewritten name newLine lines lines' ->
  skipsFolded (beginsWith name) -> skipsFolded (beginsWith other) ->
  (forall x, beginsWith name x = true -> beginsWith other x = false) ->
  beginsWith name newLine = true ->
  fieldOf other lines' = fieldOf other lines.
Proof.
  intros [[_ ->] | (pre & x & post & -> & _ & Hx & ->)] Hfn Hfo Hexcl Hnl;
    [reflexivity|].
  pose proof (beginsWith_not_folded _ _ Hfn Hx) as Hxf.
  pose proof (beginsWith_not_folded _ _ Hfn Hnl) as Hnf.
  induction pre as [|y pre IH]; simpl.
  - rewrite (Hexcl _ Hx), (Hexcl _ Hnl). apply fieldOf_dropFoldedLine, Hfo.
  - destruct (beginsWith other y); [|exact IH].
    rewrite !takeWhile_stop by assumption. reflexivity.
Qed.

Lemma fieldOf_empty_last (name : Uint8Array) (ls : Lines) :
  name <> [] -> fieldOf name (ls ++ [[]]) = fieldOf name ls.
Proof.
  intros Hne. induction ls as [|x t IH]; simpl.
  - destruct name; [contradiction | reflexivity].
  - destruct (beginsWith name x); [|exact IH].
    rewrite takeWhile_stop by apply isFoldedLine_nil. reflexivity.
Qed.

Lemma countLines_empty_last (name : Uint8Array) (ls : Lines) :
  name <> [] -> countLines name (ls ++ [[]]) = countLines name ls.
Proof.
  intros Hne. unfold countLines. rewrite filter_app. simpl.
  destruct name; [contradiction|]. simpl. rewrite app_nil_r. reflexivity.
Qed.

(** ** The generated lines *)

Lemma lfFree_app (a b : string) : lfFree (a ++ b) = lfFree a && lfFree b.
Proof. unfold lfFree. rewrite list_ascii_of_string_app, forallb_app. reflexivity. Qed.

Lemma lfFree_encode (s : string) : lfFree s = true -> ~ In LF (encode s).
Proof.
  unfold lfFree, encode, list_byte_of_string. intros H Hin.
  apply in_map_iff in Hin. destruct Hin as (c & Hc & Hin).
  rewrite forallb_forall in H. specialize (H c Hin).
  assert (c = "010"%char).
  { rewrite <- (ascii_of_byte_of_ascii c), Hc. reflexivity. }
  subst c. discriminate H.
Qed.

Lemma closedLine_encode_CRLF (front : string) :
  lfFree front = true -> closedLine (encode (front ++ CRLF)).
Proof.
  intros H. exists (encode front ++ [CR]). split.
  - rewrite encode_app, <- app_assoc. reflexivity.
  - intros Hin. apply in_app_or in Hin. destruct Hin as [Hin | [Hin | []]].
    + exact (lfFree_encode _ H Hin).
    + discriminate Hin.
Qed.

Lemma string_of_uint_lfFree (d : Decimal.uint) :
  lfFree (NilEmpty.string_of_uint d) = true.
Proof. induction d; simpl; try reflexivity; exact IHd. Qed.

Lemma numberToString_lfFree (n : Z) : lfFree (numberToString n) = true.
Proof.
  unfold numberToString, NilZero.string_of_int, NilZero.string_of_uint.
  destruct (Z.to_int n) as [d | d]; destruct d; try reflexivity;
    try apply (string_of_uint_lfFree (_ d));
    try (change (lfFree (String "-" ?s)) with (lfFree s));
    simpl; apply string_of_uint_lfFree.
Qed.

Lemma orUndefined_lfFree (names : list string) (i : Z) :
  forallb lfFree names = true -> lfFree (orUndefined (at_ names i)) = true.
Proof.
  intros H. unfold at_. destruct (i <? 0); [reflexivity|].
  destruct (nth_error names (Z.to_nat i)) as [s|] eqn:E; [|reflexivity].
  rewrite forallb_forall in H. apply H. eapply nth_error_In, E.
Qed.

Lemma padZero2_Ok (n : Z) (s : string) : padZero2 n = Ok s -> lfFree s = true.
Proof.
  intros H.
  assert (Hn : 0 <= n <= 99).
  { unfold padZero2 in H. destruct (Z.ltb_spec n 0); [discriminate|].
    destruct (Z.gtb_spec n 99); [discriminate | lia]. }
  rewrite padZero2_spec in H by exact Hn. injection H as <-.
  assert (Hall : forallb (fun k => lfFree (twoDigits (Z.of_nat k))) (seq 0 100) = true)
    by (vm_compute; reflexivity).
  rewrite forallb_forall in Hall. specialize (Hall (Z.to_nat n)).
  rewrite Z2Nat.id in Hall by lia. apply Hall. apply in_seq. lia.
Qed.

Lemma makeTimeZoneOffset_Ok (min : Z) (z : string) :
  makeTimeZoneOffset min = Ok z -> lfFree z = true.
Proof.
  unfold makeTimeZoneOffset. destruct ((min <? -840) || (min >? 720)); [discriminate|].
  destruct (padZero2 (Z.abs min / 60)) as [s1|] eqn:E1; [|discriminate].
  destruct (padZero2 (Z.abs min mod 60)) as [s2|] eqn:E2; [|discriminate].
  simpl. intros H. injection H as <-.
  rewrite !lfFree_app, (padZero2_Ok _ _ E1), (padZero2_Ok _ _ E2).
  destruct (min <=? 0); reflexivity.
Qed.

Lemma Ok_inj {A : Type} (a b : A) : Ok a = Ok b -> a = b.
Proof. intros H. injection H as ->. reflexivity. Qed.

(** A generated Date line is one closed line that begins with "Date:". *)
Lemma makeNowDateLine_line (obj : DateObj) (s : string) :
  makeNowDateLine obj = Ok s ->
  closedLine (encode s) /\ beginsWith DATE_BYTES (encode s) = true.
Proof.
  unfold makeNowDateLine.
  destruct (padZero2 (getDate obj)) as [s1|] eqn:E1; [|discriminate].
  destruct (padZero2 (getHours obj)) as [s2|] eqn:E2; [|discriminate].
  destruct (padZero2 (getMinutes obj)) as [s3|] eqn:E3; [|discriminate].
  destruct (padZero2 (getSeconds obj)) as [s4|] eqn:E4; [|discriminate].
  destruct (makeTimeZoneOffset (getTimezoneOffset obj)) as [z|] eqn:E5; [|discriminate].
  cbn [bind]. intros H. apply Ok_inj in H. subst s. split; [|reflexivity].
  rewrite <- !append_assoc. apply closedLine_encode_CRLF.
  rewrite !lfFree_app, (padZero2_Ok _ _ E1), (padZero2_Ok _ _ E2),
    (padZero2_Ok _ _ E3), (padZero2_Ok _ _ E4), (makeTimeZoneOffset_Ok _ _ E5),
    numberToString_lfFree, !orUndefined_lfFree by reflexivity.
  reflexivity.
Qed.

Lemma makeNowDateLine_valid (obj : DateObj) :
  validDate obj -> exists s, makeNowDateLine obj = Ok s.
Proof.
  intros (Hd & Hdt & Hm & Hh & Hmi & Hs & Hz). unfold makeNowDateLine.
  rewrite !padZero2_spec by lia. rewrite (makeTimeZoneOffset_spec _ Hz).
  eexists. reflexivity.
Qed.

Lemma get_In (s : string) (k : nat) (c : ascii) :
  String.get k s = Some c -> In c (list_ascii_of_string s).
Proof.
  revert k. induction s as [|x s IH]; intros k H; [discriminate|].
  destruct k as [|k]; simpl in *.
  - injection H as ->. left. reflexivity.
  - right. eapply IH, H.
Qed.

Lemma charAt_lfFree (s : string) (k : nat) : lfFree s = true -> lfFree (charAt s k) = true.
Proof.
  intros H. unfold charAt. destruct (String.get k s) as [c|] eqn:E; [|reflexivity].
  unfold lfFree in *. simpl. rewrite forallb_forall in H.
  rewrite (H c (get_In _ _ _ E)). reflexivity.
Qed.

Lemma concat_lfFree (l : list string) :
  forallb lfFree l = true -> lfFree (String.concat "" l) = true.
Proof.
  induction l as [|x t IH]; intros H; [reflexivity|].
  simpl in H. apply andb_true_iff in H. destruct H as [Hx Ht].
  destruct t as [|y t']; [exact Hx|].
  change (String.concat "" (x :: y :: t')) with (x ++ String.concat "" (y :: t'))%string.
  rewrite lfFree_app, Hx, (IH Ht). reflexivity.
Qed.

(** A generated Message-ID line is one closed line that begins with
    "Message-ID:". *)
Lemma makeRandomMessageIdLine_line (draw : nat -> nat) :
  closedLine (encode (makeRandomMessageIdLine draw))
  /\ beginsWith MESSAGE_ID_BYTES (encode (makeRandomMessageIdLine draw)) = true.
Proof.
  unfold makeRandomMessageIdLine. split; [|reflexivity].
  rewrite <- !append_assoc. apply closedLine_encode_CRLF.
  rewrite !lfFree_app, concat_lfFree; [reflexivity|].
  rewrite forallb_forall. intros s Hs. apply in_map_iff in Hs.
  destruct Hs as (k & <- & _). apply charAt_lfFree. reflexivity.
Qed.

(** ** [replaceLine] and [replaceHeader] *)

Lemma replaceLine_cases (name : Uint8Array) (lines : Lines)
  (matchLine : Uint8Array -> Outcome bool) (makeLine : unit -> Outcome string) :
  (forall l, matchLine l = Ok (beginsWith name l)) ->
  (forallb (fun l => negb (beginsWith name l)) lines = true
   /\ replaceLine lines matchLine makeLine = Ok lines)
  \/ (exists pre x post,
        lines = pre ++ x :: post
        /\ forallb (fun l => negb (beginsWith name l)) pre = true
        /\ beginsWith name x = true
        /\ replaceLine lines matchLine makeLine
           = (s <- makeLine tt ;; Ok (pre ++ encode s :: dropFoldedLine post))).
Proof.
  intros Hm. unfold replaceLine, findIndexM.
  rewrite (findIndexMAux_total _ _ _ _ Hm). cbn [bind].
  destruct (findIndexAux_spec (beginsWith name) lines 0)
    as [[H1 H2] | (pre & x & post & H1 & H2 & H3 & H4)].
  - left. rewrite H1. split; [exact H2 | reflexivity].
  - right. exists pre, x, post. rewrite H4. pose proof (len_nonneg pre).
    destruct (Z.eqb_spec (0 + len pre) (-1)); [lia|].
    repeat split; try assumption. subst lines.
    replace (0 + len pre) with (len pre) by lia.
    rewrite slice_prefix.
    replace (pre ++ x :: post) with ((pre ++ [x]) ++ post)
      by (rewrite <- app_assoc; reflexivity).
    replace (len pre + 1) with (len (pre ++ [x]))
      by (rewrite len_app, len_cons, len_nil; lia).
    rewrite sliceFrom_suffix. reflexivity.
Qed.

Lemma replaceLine_rewritten (name : Uint8Array) (lines : Lines)
  (matchLine : Uint8Array -> Outcome bool) (makeLine : unit -> Outcome string)
  (s : string) :
  (forall l, matchLine l = Ok (beginsWith name l)) -> makeLine tt = Ok s ->
  exists lines', replaceLine lines matchLine makeLine = Ok lines'
                 /\ rewritten name (encode s) lines lines'.
Proof.
  intros Hm Hs.
  destruct (replaceLine_cases name lines matchLine makeLine Hm)
    as [[H1 H2] | (pre & x & post & H1 & H2 & H3 & H4)].
  - exists lines. split; [exact H2 | left; split; [exact H1 | reflexivity]].
  - exists (pre ++ encode s :: dropFoldedLine post). rewrite H4, Hs. split; [reflexivity|].
    right. exists pre, x, post. repeat split; assumption.
Qed.

Lemma replaceDateLine_rewritten (host : Host) (lines : Lines) :
  validDate (now host) ->
  exists newLine lines',
    replaceDateLine host lines = Ok lines'
    /\ rewritten DATE_BYTES newLine lines lines'
    /\ closedLine newLine /\ beginsWith DATE_BYTES newLine = true.
Proof.
  intros Hv. destruct (makeNowDateLine_valid _ Hv) as [s Hs].
  destruct (replaceLine_rewritten DATE_BYTES lines isDateLine
              (fun _ => makeNowDateLine (now host)) s isDateLine_spec Hs)
    as (lines' & H1 & H2).
  exists (encode s), lines'. destruct (makeNowDateLine_line _ _ Hs) as [H3 H4].
  repeat split; assumption.
Qed.

Lemma replaceMessageIdLine_rewritten (host : Host) (lines : Lines) :
  exists newLine lines',
    replaceMessageIdLine host lines = Ok lines'
    /\ rewritten MESSAGE_ID_BYTES newLine lines lines'
    /\ closedLine newLine /\ beginsWith MESSAGE_ID_BYTES newLine = true.
Proof.
  destruct (replaceLine_rewritten MESSAGE_ID_BYTES lines isMessageIdLine
              (fun _ => Ok (makeRandomMessageIdLine (random host))) _
              isMessageIdLine_spec eq_refl)
    as (lines' & H1 & H2).
  exists (encode (makeRandomMessageIdLine (random host))), lines'.
  destruct (makeRandomMessageIdLine_line (random host)) as [H3 H4].
  repeat split; assumption.
Qed.

Lemma getLines_shape (h : Uint8Array) : LineShape (getLines h).
Proof. rewrite getLines_physicalLines. apply physicalLines_shape. Qed.

(** The physical lines of a rewritten header, as far as counting lines and
    reading fields go, are the lines that were concatenated. *)
Lemma getLines_concat_count (name : Uint8Array) (ls : Lines) :
  LineShape ls -> name <> [] ->
  countLines name (getLines (List.concat ls)) = countLines name ls.
Proof.
  intros Hs Hne. rewrite getLines_physicalLines.
  destruct (physicalLines_concat ls Hs) as [-> | ->];
    [reflexivity | apply countLines_empty_last, Hne].
Qed.

Lemma getLines_concat_field (name : Uint8Array) (ls : Lines) :
  LineShape ls -> name <> [] ->
  fieldOf name (getLines (List.concat ls)) = fieldOf name ls.
Proof.
  intros Hs Hne. rewrite getLines_physicalLines.
  destruct (physicalLines_concat ls Hs) as [-> | ->];
    [reflexivity | apply fieldOf_empty_last, Hne].
Qed.

Lemma rewritten_count_same (name newLine : Uint8Array) (lines lines' : Lines) :
  rewritten name newLine lines lines' -> skipsFolded (beginsWith name) ->
  beginsWith name newLine = true ->
  countLines name lines' = countLines name lines.
Proof.
  intros Hr Hf Hnl. unfold countLines. apply (rewritten_filter _ _ _ _ _ Hr Hf).
  intros x Hx. rewrite Hx, Hnl. reflexivity.
Qed.

Lemma rewritten_count_other (name other newLine : Uint8Array) (lines lines' : Lines) :
  rewritten name newLine lines lines' -> skipsFolded (beginsWith other) ->
  (forall x, beginsWith name x = true -> beginsWith other x = false) ->
  beginsWith name newLine = true ->
  countLines other lines' = countLines other lines.
Proof.
  intros Hr Hf Hexcl Hnl. unfold countLines. apply (rewritten_filter _ _ _ _ _ Hr Hf).
  intros x Hx. rewrite (Hexcl x Hx), (Hexcl newLine Hnl). reflexivity.
Qed.

(** With both flags set the rewrite does not throw under a valid clock,
    and keeps the number of lines that begin with "Date:" and the number
    of lines that begin with "Message-ID:". *)
Lemma replaceHeader_counts (host : Host) (h : Uint8Array) :
  validDate (now host) ->
  exists out,
    replaceHeader host h true true = Ok out
    /\ countLines DATE_BYTES (getLines out) = countLines DATE_BYTES (getLines h)
    /\ countLines MESSAGE_ID_BYTES (getLines out)
       = countLines MESSAGE_ID_BYTES (getLines h).
Proof.
  intros Hv.
  destruct (replaceDateLine_rewritten host (getLines h) Hv)
    as (nd & l1 & E1 & R1 & C1 & B1).
  destruct (replaceMessageIdLine_rewritten host l1) as (nm & l2 & E2 & R2 & C2 & B2).
  exists (List.concat l2). unfold replaceHeader. cbn [andb]. rewrite E1. cbn [bind].
  rewrite E2. cbn [bind]. rewrite concatBytes_spec.
  pose proof (rewritten_shape _ _ _ _ R1 C1 (getLines_shape h)) as S1.
  pose proof (rewritten_shape _ _ _ _ R2 C2 S1) as S2.
  split; [reflexivity|].
  rewrite !getLines_concat_count by (exact S2 || discriminate). split.
  - rewrite (rewritten_count_other _ _ _ _ _ R2 date_skipsFolded messageId_not_date B2).
    apply (rewritten_count_same _ _ _ _ R1 date_skipsFolded B1).
  - rewrite (rewritten_count_same _ _ _ _ R2 messageId_skipsFolded B2).
    apply (rewritten_count_other _ _ _ _ _ R1 messageId_skipsFolded date_not_messageId B1).
Qed.

Lemma fieldOf_first (name : Uint8Array) (pre : Lines) (x : Uint8Array) (post : Lines) :
  forallb (fun l => negb (beginsWith name l)) pre = true ->
  beginsWith name x = true ->
  fieldOf name (pre ++ x :: post) = Some (x :: takeWhile isFoldedLine post).
Proof.
  intros Hpre Hx. induction pre as [|y pre IH]; simpl.
  - rewrite Hx. reflexivity.
  - simpl in Hpre. apply andb_true_iff in Hpre. destruct Hpre as [Hy Hpre].
    apply negb_true_iff in Hy. rewrite Hy. apply IH, Hpre.
Qed.

Lemma takeWhile_dropWhile_nil {A : Type} (f : A -> bool) (l : list A) :
  takeWhile f (dropWhile f l) = [].
Proof.
  induction l as [|x t IH]; simpl; [reflexivity|].
  destruct (f x) eqn:E; [exact IH | simpl; rewrite E; reflexivity].
Qed.

Lemma countLines_none (name : Uint8Array) (ls : Lines) :
  forallb (fun l => negb (beginsWith name l)) ls = true ->
  countLines name ls = 0%nat.
Proof.
  unfold countLines. induction ls as [|x t IH]; simpl; [reflexivity|].
  destruct (beginsWith name x); simpl; [discriminate | exact IH].
Qed.

Lemma linesAfter_first (name : Uint8Array) (pre : Lines) (x : Uint8Array) (post : Lines) :
  forallb (fun l => negb (beginsWith name l)) pre = true ->
  beginsWith name x = true ->
  linesAfter name (pre ++ x :: post) = post.
Proof.
  intros Hpre Hx. induction pre as [|y pre IH]; simpl.
  - rewrite Hx. reflexivity.
  - simpl in Hpre. apply andb_true_iff in Hpre. destruct Hpre as [Hy Hpre].
    apply negb_true_iff in Hy. rewrite Hy. apply IH, Hpre.
Qed.

Lemma linesAfter_dropWhile_folded (name : Uint8Array) (ls : Lines) :
  skipsFolded (beginsWith name) ->
  linesAfter name (dropWhile isFoldedLine ls) = linesAfter name ls.
Proof.
  intros Hf. induction ls as [|x t IH]; simpl; [reflexivity|].
  destruct (isFoldedLine x) eqn:E; [|reflexivity].
  rewrite (Hf x E). exact IH.
Qed.

Lemma linesAfter_dropFoldedLine (name : Uint8Array) (ls : Lines) :
  skipsFolded (beginsWith name) ->
  linesAfter name (dropFoldedLine ls) = linesAfter name ls.
Proof.
  intros Hf. rewrite dropFoldedLine_spec.
  destruct (forallb isFoldedLine ls); [reflexivity | apply linesAfter_dropWhile_folded, Hf].
Qed.

(** Rewriting the field called [name] does not make a field called
    [other] end the header. *)
Lemma unfoldedFollows_rewritten (name other newLine : Uint8Array) (lines lines' : Lines) :
  rewritten name newLine lines lines' ->
  skipsFolded (beginsWith name) -> skipsFolded (beginsWith other) ->
  (forall x, beginsWith name x = true -> beginsWith other x = false) ->
  beginsWith name newLine = true ->
  unfoldedFollows other lines = true -> unfoldedFollows other lines' = true.
Proof.
  intros [[_ ->] | (pre & x & post & -> & _ & Hx & ->)] Hfn Hfo Hexcl Hnl;
    [trivial|].
  pose proof (beginsWith_not_folded _ _ Hfn Hnl) as Hnf.
  unfold unfoldedFollows. induction pre as [|y pre IH]; simpl linesAfter.
  - rewrite (Hexcl _ Hx), (Hexcl _ Hnl).
    rewrite (linesAfter_dropFoldedLine _ _ Hfo). trivial.
  - destruct (beginsWith other y); [|exact IH].
    intros _. destruct pre as [|z pre]; simpl.
    + rewrite Hnf. reflexivity.
    + rewrite forallb_app. simpl. rewrite Hnf.
      rewrite andb_false_r, andb_false_r. reflexivity.
Qed.

Lemma takeWhile_dropFoldedLine (post : Lines) :
  post = [] \/ forallb isFoldedLine post = false ->
  takeWhile isFoldedLine (dropFoldedLine post) = [].
Proof.
  intros Hpost. rewrite dropFoldedLine_spec. destruct Hpost as [-> | Hpost]; [reflexivity|].
  rewrite Hpost. apply takeWhile_dropWhile_nil.
Qed.

(** Where a line that is not folded follows the field, the rewritten field
    is the new line alone. *)
Lemma rewritten_collapsed (name newLine : Uint8Array) (lines lines' : Lines) :
  rewritten name newLine lines lines' ->
  countLines name lines = 1%nat ->
  beginsWith name newLine = true ->
  unfoldedFollows name lines = true ->
  fieldOf name lines' = Some [newLine].
Proof.
  intros [[Hnone _] | (pre & x & post & -> & Hpre & Hx & ->)] Hc Hnl Hu.
  - rewrite (countLines_none _ _ Hnone) in Hc. discriminate.
  - rewrite (fieldOf_first _ _ _ _ Hpre Hnl). do 2 f_equal.
    apply takeWhile_dropFoldedLine. unfold unfoldedFollows in Hu.
    rewrite (linesAfter_first _ _ _ _ Hpre Hx) in Hu.
    destruct post as [|p post]; [left; reflexivity | right].
    apply negb_true_iff in Hu. exact Hu.
Qed.

(** C1 (amended). For a header with exactly one physical line beginning
    with "Date:" and exactly one beginning with "Message-ID:", however the
    two fields are folded, [replaceHeader] with both flags set yields,
    under a valid clock, a header with exactly one physical line beginning
    with "Date:" and exactly one beginning with "Message-ID:"; and each of
    the two fields is, in the output, the generated line alone, with no
    continuation line, provided that in the input no line at all or some
    line that is not folded comes after the field's first line.  (A folded
    field whose continuation lines end the header is the case that
    [dropFoldedLine] misses; nothing is said of it here.) *)
Theorem replaceHeader_one_line_each (host : Host) (h : Uint8Array) :
  validDate (now host) ->
  countLines DATE_BYTES (getLines h) = 1%nat ->
  countLines MESSAGE_ID_BYTES (getLines h) = 1%nat ->
  exists out dateLine,
    makeNowDateLine (now host) = Ok dateLine
    /\ replaceHeader host h true true = Ok out
    /\ countLines DATE_BYTES (getLines out) = 1%nat
    /\ countLines MESSAGE_ID_BYTES (getLines out) = 1%nat
    /\ (unfoldedFollows DATE_BYTES (getLines h) = true ->
        fieldOf DATE_BYTES (getLines out) = Some [encode dateLine])
    /\ (unfoldedFollows MESSAGE_ID_BYTES (getLines h) = true ->
        fieldOf MESSAGE_ID_BYTES (getLines out)
        = Some [encode (makeRandomMessageIdLine (random host))]).
Proof.
  intros Hv Hd Hm.
  destruct (makeNowDateLine_valid _ Hv) as [s Hs].
  destruct (makeNowDateLine_line _ _ Hs) as [C1 B1].
  destruct (makeRandomMessageIdLine_line (random host)) as [C2 B2].
  destruct (replaceLine_rewritten DATE_BYTES (getLines h) isDateLine
              (fun _ => makeNowDateLine (now host)) s isDateLine_spec Hs)
    as (l1 & E1 & R1).
  destruct (replaceLine_rewritten MESSAGE_ID_BYTES l1 isMessageIdLine
              (fun _ => Ok (makeRandomMessageIdLine (random host))) _
              isMessageIdLine_spec eq_refl)
    as (l2 & E2 & R2).
  exists (List.concat l2), s. split; [exact Hs|]. split.
  { unfold replaceHeader, replaceDateLine, replaceMessageIdLine. cbn [andb].
    rewrite E1. cbn [bind]. rewrite E2. cbn [bind]. apply concatBytes_spec. }
  pose proof (rewritten_shape _ _ _ _ R1 C1 (getLines_shape h)) as S1.
  pose proof (rewritten_shape _ _ _ _ R2 C2 S1) as S2.
  pose proof (rewritten_count_same _ _ _ _ R1 date_skipsFolded B1) as Kd1.
  pose proof (rewritten_count_other _ _ _ _ _ R1 messageId_skipsFolded
                date_not_messageId B1) as Km1.
  pose proof (rewritten_count_other _ _ _ _ _ R2 date_skipsFolded
                messageId_not_date B2) as Kd2.
  pose proof (rewritten_count_same _ _ _ _ R2 messageId_skipsFolded B2) as Km2.
  rewrite !getLines_concat_count by (exact S2 || discriminate).
  rewrite !getLines_concat_field by (exact S2 || discriminate).
  split; [congruence|]. split; [congruence|]. split.
  - intros Hu.
    rewrite (rewritten_fieldOf _ _ _ _ _ R2 messageId_skipsFolded date_skipsFolded
               messageId_not_date B2).
    apply (rewritten_collapsed _ _ _ _ R1 Hd B1 Hu).
  - intros Hu. apply (rewritten_collapsed _ _ _ _ R2); [congruence | exact B2 |].
    apply (unfoldedFollows_rewritten _ _ _ _ _ R1 date_skipsFolded messageId_skipsFolded
             date_not_messageId B1 Hu).
Qed.

Lemma sampleHost_valid : validDate (now sampleHost).
Proof. unfold validDate. simpl. lia. Defined.

Lemma replaceHeader_one_line_each_witness :
  exists out,
    replaceHeader sampleHost foldedHeader true true = Ok out
    /\ countLines DATE_BYTES (getLines out) = 1%nat
    /\ countLines MESSAGE_ID_BYTES (getLines out) = 1%nat
    /\ fieldOf DATE_BYTES (getLines out)
       = Some [encode ("Date: Sun, 26 Jul 2020 22:01:37 +0900" ++ CRLF)]
    /\ fieldOf MESSAGE_ID_BYTES (getLines out)
       = Some [encode (makeRandomMessageIdLine (random sampleHost))].
Proof.
  destruct (replaceHeader_one_line_each sampleHost foldedHeader sampleHost_valid
              eq_refl eq_refl)
    as (out & s & Hs & H1 & H2 & H3 & H4 & H5).
  assert (Es : makeNowDateLine (now sampleHost)
               = Ok ("Date: Sun, 26 Jul 2020 22:01:37 +0900" ++ CRLF)%string)
    by reflexivity.
  rewrite Es in Hs. apply Ok_inj in Hs. subst s.
  exists out. split; [exact H1|]. split; [exact H2|]. split; [exact H3|].
  split; [apply H4 | apply H5]; vm_compute; reflexivity.
Defined.

(** C1 as stated fails: a header without a Date or Message-ID line gets
    none, and of two Date lines only the first is replaced. *)
Lemma replaceHeader_one_line_each_counterexample :
  (replaceHeader sampleHost [] true true = Ok []
   /\ countLines DATE_BYTES (getLines []) = 0%nat
   /\ countLines MESSAGE_ID_BYTES (getLines []) = 0%nat)
  /\ (let h := encode ("Date: a" ++ CRLF ++ "Date: b") in
      let out := encode ("Date: Sun, 26 Jul 2020 22:01:37 +0900" ++ CRLF ++ "Date: b") in
      replaceHeader sampleHost h true true = Ok out
      /\ countLines DATE_BYTES (getLines out) = 2%nat).
Proof. vm_compute. repeat split. Qed.

(** ** Frame of the rewrite *)

Lemma rewritten_onlyFieldChanged (name newLine h : Uint8Array) (lines' : Lines) :
  rewritten name newLine (getLines h) lines' ->
  onlyFieldChanged name h (List.concat lines').
Proof.
  intros [[_ ->] | (pre & x & post & E & Hpre & Hx & ->)].
  - left. rewrite getLines_physicalLines. apply concat_physicalLines.
  - right. rewrite dropFoldedLine_spec. unfold unfoldedTail.
    destruct (forallb isFoldedLine post) eqn:Ef.
    + exists pre, x, [], post, newLine. rewrite concat_app. simpl.
      repeat split; assumption.
    + exists pre, x, (takeWhile isFoldedLine post), (dropWhile isFoldedLine post), newLine.
      rewrite concat_app. simpl. rewrite <- takeWhile_dropWhile.
      repeat split; try assumption. apply takeWhile_forallb.
Qed.

(** C2. [replaceHeader] with only the Date flag set leaves the Message-ID
    field (its line and its folded continuations) as it was, and with only
    the Message-ID flag set leaves the Date field as it was; in each case
    nothing changes outside the field that the flag selects.  (The Date
    rewrite is stated under a valid clock, without which it throws.) *)
Theorem replaceHeader_frame (host : Host) (h : Uint8Array) :
  (validDate (now host) ->
   exists out,
     replaceHeader host h true false = Ok out
     /\ fieldOf MESSAGE_ID_BYTES (getLines out) = fieldOf MESSAGE_ID_BYTES (getLines h)
     /\ onlyFieldChanged DATE_BYTES h out)
  /\ (exists out,
        replaceHeader host h false true = Ok out
        /\ fieldOf DATE_BYTES (getLines out) = fieldOf DATE_BYTES (getLines h)
        /\ onlyFieldChanged MESSAGE_ID_BYTES h out).
Proof.
  split.
  - intros Hv.
    destruct (replaceDateLine_rewritten host (getLines h) Hv)
      as (nd & l1 & E1 & R1 & C1 & B1).
    exists (List.concat l1). unfold replaceHeader. cbn [andb negb]. rewrite E1.
    cbn [bind]. rewrite concatBytes_spec. split; [reflexivity|]. split.
    + rewrite getLines_concat_field
        by (exact (rewritten_shape _ _ _ _ R1 C1 (getLines_shape h)) || discriminate).
      apply (rewritten_fieldOf _ _ _ _ _ R1 date_skipsFolded messageId_skipsFolded
               date_not_messageId B1).
    + apply (rewritten_onlyFieldChanged _ _ _ _ R1).
  - destruct (replaceMessageIdLine_rewritten host (getLines h))
      as (nm & l1 & E1 & R1 & C1 & B1).
    exists (List.concat l1). unfold replaceHeader. cbn [andb negb]. rewrite E1.
    cbn [bind]. rewrite concatBytes_spec. split; [reflexivity|]. split.
    + rewrite getLines_concat_field
        by (exact (rewritten_shape _ _ _ _ R1 C1 (getLines_shape h)) || discriminate).
      apply (rewritten_fieldOf _ _ _ _ _ R1 messageId_skipsFolded date_skipsFolded
               messageId_not_date B1).
    + apply (rewritten_onlyFieldChanged _ _ _ _ R1).
Qed.

Lemma replaceHeader_frame_witness :
  exists out,
    replaceHeader sampleHost foldedHeader true false = Ok out
    /\ fieldOf MESSAGE_ID_BYTES (getLines out)
       = Some [encode ("Message-ID:" ++ CRLF); encode (" <b0e564a5@example.jp>" ++ CRLF)].
Proof.
  destruct (proj1 (replaceHeader_frame sampleHost foldedHeader) sampleHost_valid)
    as (out & H1 & H2 & _).
  exists out. split; [exact H1|]. rewrite H2. vm_compute. reflexivity.
Defined.

(** * Further properties of the program *)

(** ** Matching and scanning *)

(** X1. [matchHeader] throws for an empty field name whatever the line;
    for a field name that is not empty it returns, and answers true
    exactly when the line is the name followed by anything. *)
Theorem matchHeader_characterized (line header : Uint8Array) :
  matchHeader line [] = Throw "header is empty"
  /\ (header <> [] ->
      (exists b, matchHeader line header = Ok b)
      /\ (matchHeader line header = Ok true <-> exists rest, line = header ++ rest)).
Proof.
  split; [reflexivity|]. intros Hne. rewrite (matchHeader_spec line header Hne).
  split; [eexists; reflexivity|]. rewrite <- beginsWith_spec. split.
  - intros H. apply Ok_inj in H. exact H.
  - intros ->. reflexivity.
Qed.

Lemma matchHeader_characterized_witness :
  matchHeader (encode "Date: xxx") DATE_BYTES = Ok true
  /\ exists rest, encode "Date: xxx" = DATE_BYTES ++ rest.
Proof.
  assert (Hne : DATE_BYTES <> []) by discriminate.
  destruct (matchHeader_characterized (encode "Date: xxx") DATE_BYTES) as [_ H].
  destruct (H Hne) as [_ [H1 _]].
  assert (E : matchHeader (encode "Date: xxx") DATE_BYTES = Ok true) by reflexivity.
  split; [exact E | exact (H1 E)].
Defined.

(** X2. [findEmptyLine] returns -1 exactly when CR LF CR LF occurs nowhere
    in the buffer, and otherwise the offset of its earliest occurrence; the
    text of src/src/sendeml.ts, which gives up at the first CR with fewer
    than three bytes after it, returns the same offset. *)
Theorem findEmptyLine_earliest (bytes : Uint8Array) :
  Sendeml_src.findEmptyLine bytes = findEmptyLine bytes
  /\ ((findEmptyLine bytes = -1 /\ forall i, ~ emptyLineAt bytes i)
      \/ (exists k, findEmptyLine bytes = Z.of_nat k /\ emptyLineAt bytes k
                    /\ forall i, emptyLineAt bytes i -> (k <= i)%nat)).
Proof.
  split; [apply findEmptyLine_src_eq|]. rewrite findEmptyLine_spec.
  destruct (firstEmptyLine bytes) as [k|] eqn:E.
  - right. exists k. destruct (firstEmptyLine_Some bytes k E) as (H1 & H2 & H3).
    split; [reflexivity|]. split; [|exact H3].
    unfold emptyLineAt. rewrite H1 at 1.
    rewrite skipn_app, skipn_all2, firstn_length_le by (rewrite ?firstn_length_le; lia).
    rewrite Nat.sub_diag. reflexivity.
  - left. split; [reflexivity | apply firstEmptyLine_None, E].
Qed.

(** X3. [hasNextLfCrLf] at an offset [idx] holds exactly when the three
    bytes after that offset are LF, CR, LF; it never reads past the end,
    answering false when fewer than three bytes follow.  The byte at [idx]
    itself is not looked at. *)
Theorem hasNextLfCrLf_characterized (bytes : Uint8Array) (idx : Z) :
  0 <= idx ->
  (hasNextLfCrLf bytes idx = true
   <-> firstn 3 (skipn (Z.to_nat idx + 1) bytes) = [LF; CR; LF]).
Proof.
  intros Hidx. unfold hasNextLfCrLf.
  destruct (Z.ltb_spec (len bytes) (idx + 4)) as [Hshort | Hlong].
  - split; [discriminate|]. intros H.
    assert (Hl : List.length (firstn 3 (skipn (Z.to_nat idx + 1) bytes)) = 3%nat)
      by (rewrite H; reflexivity).
    rewrite length_firstn, length_skipn in Hl. unfold len in Hshort. lia.
  - assert (Hb : bytes = firstn (Z.to_nat idx + 1) bytes ++ skipn (Z.to_nat idx + 1) bytes)
      by (symmetry; apply firstn_skipn).
    assert (Hl : len (firstn (Z.to_nat idx + 1) bytes) = idx + 1).
    { unfold len in *. rewrite firstn_length_le by lia. lia. }
    set (pre := firstn (Z.to_nat idx + 1) bytes) in *.
    set (rest := skipn (Z.to_nat idx + 1) bytes) in *.
    assert (Hat : forall i, 0 <= i -> at_ bytes (i + idx + 1) = at_ rest i).
    { intros i Hi. rewrite Hb. replace (i + idx + 1) with (len pre + i) by lia.
      apply at_app_r. exact Hi. }
    unfold every. cbn [everyAux]. rewrite !Hat by lia.
    change (at_ rest 0) with (nth_error rest 0).
    change (at_ rest (0 + 1)) with (nth_error rest 1).
    change (at_ rest (0 + 1 + 1)) with (nth_error rest 2).
    clearbody rest. clear.
    destruct rest as [|a [|b' [|c r]]]; cbn; try (split; discriminate).
    + destruct (Byte.eqb LF a); split; discriminate.
    + destruct (Byte.eqb LF a), (Byte.eqb CR b'); split; discriminate.
    + destruct (Byte.eqb LF a) eqn:Ea;
        [|split; [discriminate|]; intros H; injection H as -> _ _;
          rewrite byte_eqb_refl in Ea; discriminate].
      destruct (Byte.eqb CR b') eqn:Eb;
        [|split; [discriminate|]; intros H; injection H as _ -> _;
          rewrite byte_eqb_refl in Eb; discriminate].
      destruct (Byte.eqb LF c) eqn:Ec;
        [|split; [discriminate|]; intros H; injection H as _ _ ->;
          rewrite byte_eqb_refl in Ec; discriminate].
      apply byte_eqb_eq in Ea, Eb, Ec. subst. split; reflexivity.
Qed.

Lemma hasNextLfCrLf_characterized_witness :
  hasNextLfCrLf [x00; CR; LF; CR; LF] 1 = true.
Proof.
  apply (hasNextLfCrLf_characterized [x00; CR; LF; CR; LF] 1); [lia | reflexivity].
Defined.

(** ** Lines *)

Lemma lfOffsetsFrom_app_LF (p rest : Uint8Array) (i : Z) :
  ~ In LF p ->
  lfOffsetsFrom (p ++ LF :: rest) i
  = (i + len p) :: lfOffsetsFrom rest (i + len p + 1).
Proof.
  revert i. induction p as [|c t IH]; intros i Hn; simpl.
  - change (Byte.eqb LF LF) with true. cbv iota. rewrite len_nil.
    f_equal; [lia | f_equal; lia].
  - destruct (Byte.eqb c LF) eqn:E.
    + apply byte_eqb_eq in E. subst c. exfalso. apply Hn. left. reflexivity.
    + rewrite IH by (intros Hin; apply Hn; right; exact Hin).
      rewrite len_cons. f_equal; [lia | f_equal; lia].
Qed.

Lemma lfOffsetsFrom_noLF (p : Uint8Array) (i : Z) : ~ In LF p -> lfOffsetsFrom p i = [].
Proof.
  revert i. induction p as [|c t IH]; intros i Hn; simpl; [reflexivity|].
  destruct (Byte.eqb c LF) eqn:E.
  - apply byte_eqb_eq in E. subst c. exfalso. apply Hn. left. reflexivity.
  - apply IH. intros Hin. apply Hn. right. exact Hin.
Qed.

Lemma findAllLf_loop_offsets (b : Uint8Array) (fuel : nat) (off : Z) :
  0 <= off <= len b -> len b - off < Z.of_nat fuel ->
  findAllLf_loop fuel b off [] = lfOffsetsFrom (skipn (Z.to_nat off) b) off.
Proof.
  revert off. induction fuel as [|f IH]; intros off Hoff Hfuel; [lia|].
  simpl findAllLf_loop. unfold findLf.
  destruct (indexOf_spec b LF off Hoff) as [[H1 H2] | (p & rest & H1 & H2 & H3)].
  - rewrite H1. simpl. symmetry. apply lfOffsetsFrom_noLF, H2.
  - rewrite H3. split_at_CR b off p rest H1.
    destruct (Z.eqb_spec (off + len p) (-1)); [lia|].
    rewrite findAllLf_loop_acc, IH by lia. simpl app.
    rewrite H1, lfOffsetsFrom_app_LF by exact H2. do 2 f_equal.
    replace (Z.to_nat (off + len p + 1)) with (Z.to_nat off + List.length p + 1)%nat
      by (unfold len; lia).
    apply (skipn_after _ _ _ _ _ H1).
Qed.

Lemma lfOffsetsFrom_In (b : Uint8Array) (i k : Z) :
  In k (lfOffsetsFrom b i) <-> (i <= k /\ at_ b (k - i) = Some LF).
Proof.
  revert i. induction b as [|c t IH]; intros i; simpl.
  - split; [intros [] | intros [_ H]]. unfold at_ in H.
    destruct (k - i <? 0); [discriminate|]. destruct (Z.to_nat (k - i)); discriminate.
  - assert (Hstep : (i + 1 <= k /\ at_ t (k - (i + 1)) = Some LF)
                    <-> (i < k /\ at_ (c :: t) (k - i) = Some LF)).
    { unfold at_. split; intros [H1 H2]; (split; [lia|]).
      - destruct (Z.ltb_spec (k - (i + 1)) 0); [discriminate|].
        destruct (Z.ltb_spec (k - i) 0); [lia|].
        replace (Z.to_nat (k - i)) with (S (Z.to_nat (k - (i + 1)))) by lia. exact H2.
      - destruct (Z.ltb_spec (k - i) 0); [discriminate|].
        destruct (Z.ltb_spec (k - (i + 1)) 0); [lia|].
        replace (Z.to_nat (k - i)) with (S (Z.to_nat (k - (i + 1)))) in H2 by lia.
        exact H2. }
    assert (Hhead : at_ (c :: t) (k - i) = Some LF -> i <= k -> ~ i < k -> c = LF).
    { intros H H1 H2. replace (k - i) with 0 in H by lia.
      change (at_ (c :: t) 0) with (Some c) in H. congruence. }
    destruct (Byte.eqb c LF) eqn:E.
    + apply byte_eqb_eq in E. subst c. simpl. rewrite IH, Hstep. split.
      * intros [<- | [H1 H2]]; [|split; [lia | exact H2]].
        split; [lia|]. rewrite Z.sub_diag. reflexivity.
      * intros [H1 H2]. destruct (Z.eq_dec i k) as [-> | Hne]; [left; reflexivity|].
        right. split; [lia | exact H2].
    + apply byte_eqb_neq in E. rewrite IH, Hstep. split.
      * intros [H1 H2]. split; [lia | exact H2].
      * intros [H1 H2]. destruct (Z_lt_dec i k) as [Hlt | Hnlt]; [split; assumption|].
        exfalso. apply E. exact (Hhead H2 H1 Hnlt).
Qed.

Lemma lfOffsetsFrom_lower (b : Uint8Array) (i : Z) :
  Forall (fun k => i <= k) (lfOffsetsFrom b i).
Proof.
  apply Forall_forall. intros k Hk. apply lfOffsetsFrom_In in Hk. apply Hk.
Qed.

Lemma lfOffsetsFrom_sorted (b : Uint8Array) (i : Z) :
  StronglySorted Z.lt (lfOffsetsFrom b i).
Proof.
  revert i. induction b as [|c t IH]; intros i; simpl; [constructor|].
  destruct (Byte.eqb c LF); [|apply IH].
  constructor; [apply IH|].
  eapply Forall_impl; [|apply (lfOffsetsFrom_lower t (i + 1))].
  intros k Hk. simpl in Hk. lia.
Qed.

(** X4. [findAllLf] returns the offsets of the LF bytes of the buffer, all
    of them and nothing else, in increasing order. *)
Theorem findAllLf_offsets (buf : Uint8Array) :
  (forall k, In k (findAllLf buf) <-> at_ buf k = Some LF)
  /\ StronglySorted Z.lt (findAllLf buf).
Proof.
  assert (E : findAllLf buf = lfOffsetsFrom buf 0).
  { unfold findAllLf. pose proof (len_nonneg buf).
    rewrite findAllLf_loop_offsets by (unfold len in *; lia). reflexivity. }
  rewrite E. split; [|apply lfOffsetsFrom_sorted].
  intros k. rewrite lfOffsetsFrom_In, Z.sub_0_r. split; [intros [_ H]; exact H|].
  intros H. split; [|exact H]. unfold at_ in H.
  destruct (Z.ltb_spec k 0); [discriminate | lia].
Qed.

Lemma physicalLines_length (b : Uint8Array) :
  List.length (physicalLines b) = S (count_occ byte_eq_dec b LF).
Proof.
  induction b as [|c t IH]; simpl; [reflexivity|].
  destruct (Byte.eqb c LF) eqn:E.
  - apply byte_eqb_eq in E. subst c.
    destruct (byte_eq_dec LF LF); [|contradiction]. simpl. rewrite IH. reflexivity.
  - apply byte_eqb_neq in E. destruct (byte_eq_dec c LF); [contradiction|].
    pose proof (physicalLines_nonempty t) as Hne.
    destruct (physicalLines t); [contradiction|]. simpl in *. exact IH.
Qed.

Lemma LineShape_last (ls : Lines) :
  LineShape ls -> ls <> [] ->
  exists cs o, ls = cs ++ [o] /\ Forall closedLine cs /\ (closedLine o \/ openLine o).
Proof.
  intros H. induction H as [| o Ho | c ls Hc Hls IH]; intros Hne.
  - contradiction.
  - exists [], o. repeat split; [constructor | right; exact Ho].
  - destruct ls as [|y ls'].
    + exists [], c. repeat split; [constructor | left; exact Hc].
    + destruct (IH ltac:(discriminate)) as (cs & o & E & Hcs & Ho).
      exists (c :: cs), o. rewrite E. repeat split; [constructor; assumption | exact Ho].
Qed.

Lemma physicalLines_last_open (b : Uint8Array) :
  exists cs o, physicalLines b = cs ++ [o] /\ Forall closedLine cs /\ openLine o.
Proof.
  induction b as [|c t IH]; simpl.
  - exists [], []. repeat split; [constructor | intros []].
  - destruct IH as (cs & o & E & Hcs & Ho). destruct (Byte.eqb c LF) eqn:Ec.
    + apply byte_eqb_eq in Ec. subst c. exists ([LF] :: cs), o. rewrite E.
      repeat split; [|exact Ho]. constructor; [|exact Hcs].
      exists []. split; [reflexivity | intros []].
    + apply byte_eqb_neq in Ec. rewrite E. destruct cs as [|l cs']; simpl.
      * exists [], (c :: o). repeat split; [constructor|].
        intros [H | H]; [congruence | exact (Ho H)].
      * exists ((c :: l) :: cs'), o. inversion Hcs as [|? ? Hl Hcs']; subst.
        repeat split; [|exact Ho]. constructor; [|exact Hcs'].
        destruct Hl as (p & -> & Hp). exists (c :: p). split; [reflexivity|].
        intros [H | H]; [congruence | exact (Hp H)].
Qed.

(** X5. [getLines] returns one line more than the buffer has LF bytes, so
    never an empty list; every line but the last ends with an LF and holds
    no other, and the last line holds no LF (it is empty when the buffer is
    empty or ends with LF). *)
Theorem getLines_lines (bytes : Uint8Array) :
  List.length (getLines bytes) = S (count_occ byte_eq_dec bytes LF)
  /\ exists closed last,
       getLines bytes = closed ++ [last]
       /\ Forall closedLine closed /\ openLine last.
Proof.
  rewrite getLines_physicalLines. split;
    [apply physicalLines_length | apply physicalLines_last_open].
Qed.

(** X6. [concatBytes] never raises the RangeError of [set]: the buffer it
    allocates has room for every array, and it returns the bytes of the
    arrays in order, none left zero. *)
Theorem concatBytes_concat (bytesArray : Lines) :
  concatBytes bytesArray = Ok (List.concat bytesArray)
  /\ len (List.concat bytesArray)
     = fold_left (fun acc b => acc + len b) bytesArray 0.
Proof.
  split; [apply concatBytes_spec|]. rewrite fold_left_len. lia.
Qed.

(** X7. [dropFoldedLine] removes only folded lines from the front of the
    list, and applying it twice is applying it once. *)
Theorem dropFoldedLine_idempotent (lines : Lines) :
  dropFoldedLine (dropFoldedLine lines) = dropFoldedLine lines
  /\ exists dropped,
       lines = dropped ++ dropFoldedLine lines
       /\ forallb isFoldedLine dropped = true.
Proof.
  rewrite (dropFoldedLine_spec lines). unfold unfoldedTail.
  destruct (forallb isFoldedLine lines) eqn:E.
  - rewrite dropFoldedLine_spec, E. split; [reflexivity|].
    exists []. split; reflexivity.
  - split.
    + rewrite dropFoldedLine_spec. unfold unfoldedTail.
      assert (H : dropWhile isFoldedLine (dropWhile isFoldedLine lines)
                  = dropWhile isFoldedLine lines).
      { clear E. induction lines as [|x t IH]; simpl; [reflexivity|].
        destruct (isFoldedLine x) eqn:Ex; [exact IH|]. simpl. rewrite Ex. reflexivity. }
      rewrite H. destruct (forallb isFoldedLine (dropWhile isFoldedLine lines)); reflexivity.
    + exists (takeWhile isFoldedLine lines).
      split; [apply takeWhile_dropWhile | apply takeWhile_forallb].
Qed.

(** ** The line generators *)

Lemma padZero2_cases (n : Z) :
  (0 <= n <= 99 /\ padZero2 n = Ok (twoDigits n))
  \/ ((n < 0 \/ 99 < n) /\ padZero2 n = Throw "invalid number").
Proof.
  destruct (Z_lt_dec n 0) as [Hlt | Hge].
  - right. split; [left; exact Hlt|]. unfold padZero2.
    destruct (Z.ltb_spec n 0); [reflexivity | lia].
  - destruct (Z_lt_dec 99 n) as [Hgt | Hle].
    + right. split; [right; exact Hgt|]. unfold padZero2.
      destruct (Z.ltb_spec n 0); [reflexivity|].
      destruct (Z.gtb_spec n 99); [reflexivity | lia].
    + left. split; [lia | apply padZero2_spec; lia].
Qed.

(** X8. [padZero2] returns the two decimal digits of a number from 0 to
    99, the tens first and a leading zero below ten, and throws for any
    other integer. *)
Theorem padZero2_characterized (n : Z) :
  (0 <= n <= 99 -> padZero2 n = Ok (twoDigits n))
  /\ (n < 0 \/ 99 < n -> padZero2 n = Throw "invalid number").
Proof.
  destruct (padZero2_cases n) as [[H1 H2] | [H1 H2]]; split; intros H;
    try exact H2; lia.
Qed.

Lemma padZero2_characterized_witness :
  padZero2 7 = Ok "07"%string /\ padZero2 100 = Throw "invalid number".
Proof.
  split.
  - apply (proj1 (padZero2_characterized 7)). lia.
  - apply (proj2 (padZero2_characterized 100)). lia.
Defined.

Lemma makeTimeZoneOffset_cases (min : Z) :
  (-840 <= min <= 720
   /\ makeTimeZoneOffset min
      = Ok ((if Z.leb min 0 then "+" else "-")
              ++ twoDigits (Z.abs min / 60) ++ twoDigits (Z.abs min mod 60))%string)
  \/ ((min < -840 \/ 720 < min) /\ makeTimeZoneOffset min = Throw "invalid number").
Proof.
  destruct (Z_lt_dec min (-840)) as [Hlt | Hge].
  - right. split; [left; exact Hlt|]. unfold makeTimeZoneOffset.
    destruct (Z.ltb_spec min (-840)); [reflexivity | lia].
  - destruct (Z_lt_dec 720 min) as [Hgt | Hle].
    + right. split; [right; exact Hgt|]. unfold makeTimeZoneOffset.
      destruct (Z.ltb_spec min (-840)); [reflexivity|].
      destruct (Z.gtb_spec min 720); [reflexivity | lia].
    + left. split; [lia | apply makeTimeZoneOffset_spec; lia].
Qed.

(** X9. [makeNowDateLine] returns the Date line
    "Date: <Dow>, <DD> <Mon> <YYYY> <HH>:<MM>:<SS> <sign><HHMM>" and CRLF
    when the day of the month, hours, minutes and seconds are within 0..99
    and the offset within [-840, 720], and throws "invalid number"
    otherwise.  A day of the week or a month outside its table does not
    throw: its name is printed as "undefined". *)
Theorem makeNowDateLine_characterized (obj : DateObj) :
  (formattable obj -> makeNowDateLine obj = Ok (dateLineText obj))
  /\ (~ formattable obj -> makeNowDateLine obj = Throw "invalid number").
Proof.
  unfold formattable, makeNowDateLine, dateLineText.
  destruct (padZero2_cases (getDate obj)) as [[R1 ->] | [R1 ->]];
  destruct (padZero2_cases (getHours obj)) as [[R2 ->] | [R2 ->]];
  destruct (padZero2_cases (getMinutes obj)) as [[R3 ->] | [R3 ->]];
  destruct (padZero2_cases (getSeconds obj)) as [[R4 ->] | [R4 ->]];
  destruct (makeTimeZoneOffset_cases (getTimezoneOffset obj)) as [[R5 ->] | [R5 ->]];
  cbn [bind]; (split; intros H; [try reflexivity; lia | try reflexivity; exfalso; apply H; lia]).
Qed.

Lemma makeNowDateLine_characterized_witness :
  makeNowDateLine sampleDate
  = Ok ("Date: Sun, 26 Jul 2020 22:01:37 +0900" ++ CRLF)%string
  /\ makeNowDateLine (dateWithOffset 721) = Throw "invalid number".
Proof.
  split.
  - apply (proj1 (makeNowDateLine_characterized sampleDate)).
    unfold formattable. simpl. lia.
  - apply (proj2 (makeNowDateLine_characterized (dateWithOffset 721))).
    unfold formattable. simpl. lia.
Defined.

Lemma strlen_app (a b : string) :
  String.length (a ++ b) = (String.length a + String.length b)%nat.
Proof. induction a as [|x a IH]; simpl; [reflexivity | rewrite IH; reflexivity]. Qed.

Lemma tableName_length (names : list string) (i : Z) :
  forallb (fun s => Nat.eqb (String.length s) 3) names = true ->
  0 <= i < len names ->
  String.length (orUndefined (at_ names i)) = 3%nat.
Proof.
  intros Hall Hi. unfold at_. destruct (Z.ltb_spec i 0); [lia|].
  destruct (nth_error names (Z.to_nat i)) as [s|] eqn:E.
  - rewrite forallb_forall in Hall. apply Nat.eqb_eq, Hall. eapply nth_error_In, E.
  - apply nth_error_None in E. unfold len in Hi. lia.
Qed.

(** X10. Under a valid clock and for a year of four digits the Date line
    is 39 characters long, CRLF included (within the 80 that the
    repository's test allows). *)
Theorem makeNowDateLine_length (obj : DateObj) :
  validDate obj -> 1000 <= getFullYear obj <= 9999 ->
  exists s, makeNowDateLine obj = Ok s /\ String.length s = 39%nat.
Proof.
  intros (Hd & Hdt & Hm & Hh & Hmi & Hs & Hz) Hy.
  exists (dateLineText obj). split.
  - apply makeNowDateLine_characterized. unfold formattable. lia.
  - unfold dateLineText. rewrite !strlen_app.
    rewrite (tableName_length dayNames) by (try reflexivity; unfold len; simpl; lia).
    rewrite (tableName_length monthNames) by (try reflexivity; unfold len; simpl; lia).
    assert (Hyear : String.length (numberToString (getFullYear obj)) = 4%nat).
    { assert (Hall : forallb fourChars (seq 0 (Z.to_nat 9000)) = true)
        by (vm_compute; reflexivity).
      rewrite forallb_forall in Hall.
      specialize (Hall (Z.to_nat (getFullYear obj - 1000))). unfold fourChars in Hall.
      replace (1000 + Z.of_nat (Z.to_nat (getFullYear obj - 1000))) with (getFullYear obj)
        in Hall by lia.
      apply Nat.eqb_eq, Hall. apply in_seq. lia. }
    rewrite Hyear. destruct (getTimezoneOffset obj <=? 0); reflexivity.
Qed.

Lemma makeNowDateLine_length_witness :
  exists s, makeNowDateLine sampleDate = Ok s /\ String.length s = 39%nat.
Proof.
  apply (makeNowDateLine_length sampleDate); unfold validDate; simpl; lia.
Defined.

Lemma concat_chars (l : list string) (c : ascii) :
  In c (list_ascii_of_string (String.concat "" l)) ->
  exists s, In s l /\ In c (list_ascii_of_string s).
Proof.
  induction l as [|x t IH]; intros H; [destruct H|].
  destruct t as [|y t'].
  - exists x. split; [left; reflexivity | exact H].
  - change (String.concat "" (x :: y :: t')) with (x ++ String.concat "" (y :: t'))%string in H.
    rewrite list_ascii_of_string_app in H. apply in_app_or in H. destruct H as [H | H].
    + exists x. split; [left; reflexivity | exact H].
    + destruct (IH H) as (s & Hs & Hc). exists s. split; [right; exact Hs | exact Hc].
Qed.

Lemma concat_length (l : list string) :
  Forall (fun s => String.length s = 1%nat) l ->
  String.length (String.concat "" l) = List.length l.
Proof.
  induction l as [|x t IH]; intros H; [reflexivity|].
  inversion H as [|? ? Hx Ht]; subst. destruct t as [|y t'].
  - exact Hx.
  - change (String.concat "" (x :: y :: t')) with (x ++ String.concat "" (y :: t'))%string.
    rewrite strlen_app, Hx, (IH Ht). reflexivity.
Qed.

(** X11. The Message-ID line is "Message-ID: <", a random part, ">" and
    CRLF; every character of the random part is one of the 62 letters and
    digits, and when every draw is below 62, as [Math.floor(Math.random()
    * 62)] is, the random part has 62 characters and the line 78. *)
Theorem makeRandomMessageIdLine_shape (draw : nat -> nat) :
  exists r,
    makeRandomMessageIdLine draw = ("Message-ID: <" ++ r ++ ">" ++ CRLF)%string
    /\ Forall (fun c => In c (list_ascii_of_string messageIdAlphabet))
         (list_ascii_of_string r)
    /\ ((forall k, (draw k < 62)%nat) ->
        String.length r = 62%nat
        /\ String.length (makeRandomMessageIdLine draw) = 78%nat).
Proof.
  unfold makeRandomMessageIdLine.
  set (parts := map (fun k => charAt messageIdAlphabet (draw k)) (seq 0 62)).
  exists (String.concat "" parts). split; [reflexivity|]. split.
  - apply Forall_forall. intros c Hc. apply concat_chars in Hc.
    destruct Hc as (s & Hs & Hc). apply in_map_iff in Hs. destruct Hs as (k & <- & _).
    unfold charAt in Hc. destruct (String.get (draw k) messageIdAlphabet) as [a|] eqn:E.
    + destruct Hc as [<- | []]. eapply get_In, E.
    + destruct Hc.
  - intros Hdraw.
    assert (Hlen : String.length (String.concat "" parts) = 62%nat).
    { rewrite concat_length; [unfold parts; rewrite length_map, length_seq; reflexivity|].
      apply Forall_forall. intros s Hs. apply in_map_iff in Hs. destruct Hs as (k & <- & _).
      assert (Hall : forallb inAlphabet (seq 0 62) = true) by (vm_compute; reflexivity).
      rewrite forallb_forall in Hall. specialize (Hall (draw k)).
      unfold inAlphabet in Hall. unfold charAt.
      destruct (String.get (draw k) messageIdAlphabet); [reflexivity|].
      discriminate Hall. apply in_seq. specialize (Hdraw k). lia. }
    split; [exact Hlen|]. rewrite !strlen_app, Hlen. reflexivity.
Qed.

Lemma makeRandomMessageIdLine_shape_witness :
  String.length (makeRandomMessageIdLine (random sampleHost)) = 78%nat.
Proof.
  destruct (makeRandomMessageIdLine_shape (random sampleHost)) as (r & _ & _ & H).
  apply H. intros k. unfold sampleHost, random.
  apply (Nat.mod_upper_bound (7 * k + 3) 62). discriminate.
Defined.

(** ** The rewrite *)

Lemma countLines_zero (name : Uint8Array) (ls : Lines) :
  countLines name ls = 0%nat ->
  forallb (fun l => negb (beginsWith name l)) ls = true.
Proof.
  unfold countLines. induction ls as [|x t IH]; simpl; [reflexivity|].
  destruct (beginsWith name x); simpl; [discriminate | exact IH].
Qed.

Lemma replaceLine_none (name : Uint8Array) (lines : Lines)
  (matchLine : Uint8Array -> Outcome bool) (makeLine : unit -> Outcome string) :
  (forall l, matchLine l = Ok (beginsWith name l)) ->
  countLines name lines = 0%nat ->
  replaceLine lines matchLine makeLine = Ok lines.
Proof.
  intros Hm H0. apply countLines_zero in H0.
  destruct (replaceLine_cases name lines matchLine makeLine Hm)
    as [[_ H] | (pre & x & post & -> & _ & Hx & _)]; [exact H|].
  rewrite forallb_app in H0. simpl in H0. rewrite Hx in H0. simpl in H0.
  rewrite andb_false_r in H0. discriminate.
Qed.

Lemma replaceDateLine_Ok (host : Host) (lines lines' : Lines) :
  replaceDateLine host lines = Ok lines' ->
  exists newLine, rewritten DATE_BYTES newLine lines lines'
                  /\ closedLine newLine /\ beginsWith DATE_BYTES newLine = true.
Proof.
  unfold replaceDateLine. intros H.
  destruct (replaceLine_cases DATE_BYTES lines isDateLine
              (fun _ => makeNowDateLine (now host)) isDateLine_spec)
    as [[H1 H2] | (pre & x & post & E & H1 & H2 & H3)].
  - rewrite H2 in H. apply Ok_inj in H. subst lines'.
    exists (encode ("Date:" ++ CRLF)). split; [left; split; [exact H1 | reflexivity]|].
    split; [apply closedLine_encode_CRLF | ]; reflexivity.
  - rewrite H3 in H. destruct (makeNowDateLine (now host)) as [s|msg] eqn:Es;
      [|discriminate]. cbn [bind] in H. apply Ok_inj in H. subst lines'.
    destruct (makeNowDateLine_line _ _ Es) as [Hc Hb].
    exists (encode s). split; [|split; assumption].
    right. exists pre, x, post. repeat split; assumption.
Qed.

(** X12. A rewrite that finds no line to replace does nothing and calls no
    generator: without a line beginning with "Date:" the Date flag has no
    effect, even under a clock for which the generator would throw;
    without a line beginning with "Message-ID:" the Message-ID flag has no
    effect; and with both flags false the header comes back as it is. *)
Theorem replaceHeader_without_field (host : Host) (h : Uint8Array) (d m : bool) :
  (countLines DATE_BYTES (getLines h) = 0%nat ->
   replaceHeader host h true m = replaceHeader host h false m)
  /\ (countLines MESSAGE_ID_BYTES (getLines h) = 0%nat ->
      replaceHeader host h d true = replaceHeader host h d false)
  /\ replaceHeader host h false false = Ok h.
Proof.
  split; [|split].
  - intros H0. unfold replaceHeader.
    assert (E : replaceDateLine host (getLines h) = Ok (getLines h))
      by (apply (replaceLine_none DATE_BYTES); [apply isDateLine_spec | exact H0]).
    destruct m; cbn [andb negb]; rewrite E; reflexivity.
  - intros H0. unfold replaceHeader. destruct d; cbn [andb negb].
    + destruct (replaceDateLine host (getLines h)) as [l1|msg] eqn:E1; [|reflexivity].
      cbn [bind]. destruct (replaceDateLine_Ok _ _ _ E1) as (nl & R & _ & B).
      assert (H1 : countLines MESSAGE_ID_BYTES l1 = 0%nat).
      { rewrite (rewritten_count_other _ _ _ _ _ R messageId_skipsFolded
                   date_not_messageId B). exact H0. }
      unfold replaceMessageIdLine.
      rewrite (replaceLine_none MESSAGE_ID_BYTES) by (apply isMessageIdLine_spec || exact H1).
      reflexivity.
    + unfold replaceMessageIdLine.
      rewrite (replaceLine_none MESSAGE_ID_BYTES) by (apply isMessageIdLine_spec || exact H0).
      reflexivity.
  - unfold replaceHeader. cbn [andb negb bind]. rewrite concatBytes_spec.
    rewrite getLines_physicalLines, concat_physicalLines. reflexivity.
Qed.

Lemma replaceHeader_without_field_witness :
  replaceHeader {| now := dateWithOffset 721; random := fun k => k |}
    (encode ("Subject: test" ++ CRLF ++ "To: a")) true true
  = Ok (encode ("Subject: test" ++ CRLF ++ "To: a")).
Proof.
  set (host := {| now := dateWithOffset 721; random := fun k => k |}).
  set (h := encode ("Subject: test" ++ CRLF ++ "To: a")).
  destruct (replaceHeader_without_field host h true true) as (H1 & _ & H3).
  destruct (replaceHeader_without_field host h false true) as (_ & H2 & _).
  rewrite (H1 eq_refl), (H2 eq_refl). exact H3.
Defined.

Lemma replaceHeader_total (host : Host) (h : Uint8Array) (d m : bool) :
  (d = true -> validDate (now host)) ->
  exists out, replaceHeader host h d m = Ok out.
Proof.
  intros Hv. unfold replaceHeader. destruct d; cbn [andb negb].
  - destruct (replaceDateLine_rewritten host (getLines h) (Hv eq_refl))
      as (nd & l1 & E1 & _).
    rewrite E1. destruct m; cbn [andb negb bind].
    + destruct (replaceMessageIdLine_rewritten host l1) as (nm & l2 & E2 & _).
      rewrite E2. cbn [bind]. rewrite concatBytes_spec. eexists. reflexivity.
    + rewrite concatBytes_spec. eexists. reflexivity.
  - destruct m; cbn [andb negb bind].
    + destruct (replaceMessageIdLine_rewritten host (getLines h)) as (nm & l2 & E2 & _).
      rewrite E2. cbn [bind]. rewrite concatBytes_spec. eexists. reflexivity.
    + rewrite concatBytes_spec. eexists. reflexivity.
Qed.

Lemma splitMail_of_decomposition (h body : Uint8Array) :
  splitMail (h ++ EMPTY_LINE ++ body) <> None.
Proof.
  rewrite splitMail_spec.
  destruct (firstEmptyLine (h ++ EMPTY_LINE ++ body)) eqn:E; [discriminate|].
  exfalso. apply (firstEmptyLine_None _ E (List.length h)).
  apply emptyLineAt_decomposition.
Qed.

(** X13. When a flag is set and [replaceMail] returns bytes, they are the
    rewritten header, CR LF CR LF and the body of the input, byte for byte:
    the body is not touched; and the bytes returned can be split again. *)
Theorem replaceMail_keeps_body (host : Host) (bytes res : Uint8Array) (d m : bool) :
  isNotUpdate d m = false ->
  replaceMail host bytes d m = Ok (Some res) ->
  exists header body header',
    splitMail bytes = Some (header, body)
    /\ replaceHeader host header d m = Ok header'
    /\ res = header' ++ EMPTY_LINE ++ body
    /\ splitMail res <> None.
Proof.
  intros Hu H. unfold replaceMail in H. rewrite Hu in H. unfold replaceMail_rewrite in H.
  destruct (splitMail bytes) as [[header body]|]; [|discriminate].
  destruct (replaceHeader host header d m) as [header'|msg] eqn:E; [|discriminate].
  cbn [bind] in H. rewrite combineMail_spec in H. cbn [bind] in H.
  apply Ok_inj in H. injection H as <-.
  exists header, body, header'. repeat split; try assumption.
  apply splitMail_of_decomposition.
Qed.

Lemma replaceMail_keeps_body_witness :
  exists res header',
    replaceMail sampleHost sampleMail true true = Ok (Some res)
    /\ res = header' ++ EMPTY_LINE ++ encode "test".
Proof.
  destruct (replaceMail sampleHost sampleMail true true) as [[res|]|msg] eqn:E;
    try (vm_compute in E; discriminate E).
  destruct (replaceMail_keeps_body sampleHost sampleMail res true true eq_refl E)
    as (header & body & header' & H1 & _ & H3 & _).
  exists res, header'. split; [reflexivity|].
  assert (Hs : splitMail sampleMail = Some (foldedHeader, encode "test"))
    by (vm_compute; reflexivity).
  rewrite Hs in H1. injection H1 as _ <-. exact H3.
Defined.

(** X14. What [replaceMail] returns when the clock is valid (or the Date
    flag is off): it never throws; it fails exactly when a flag is set and
    the buffer has no CR LF CR LF; in every other case it returns bytes. *)
Theorem replaceMail_outcomes (host : Host) (bytes : Uint8Array) (d m : bool) :
  (d = true -> validDate (now host)) ->
  (replaceMail host bytes d m = Ok None
   <-> (isNotUpdate d m = false /\ hasEmptyLine bytes = false))
  /\ ((isNotUpdate d m = true \/ hasEmptyLine bytes = true)
      -> exists res, replaceMail host bytes d m = Ok (Some res)).
Proof.
  intros Hv. unfold replaceMail, replaceMail_rewrite, hasEmptyLine.
  rewrite splitMail_spec.
  destruct (isNotUpdate d m).
  - split; [split; [discriminate | intros [H _]; discriminate]|].
    intros _. eexists. reflexivity.
  - destruct (firstEmptyLine bytes) as [n|].
    + destruct (replaceHeader_total host (firstn n bytes) d m Hv) as [out ->].
      cbn [bind]. rewrite combineMail_spec. cbn [bind].
      split; [split; [discriminate | intros [_ H]; discriminate]|].
      intros _. eexists. reflexivity.
    + split; [split; [intros _; split; reflexivity | reflexivity]|].
      intros [H | H]; discriminate.
Qed.

Lemma replaceMail_outcomes_witness :
  replaceMail sampleHost foldedHeader true false = Ok None
  /\ exists res, replaceMail sampleHost sampleMail true false = Ok (Some res).
Proof.
  destruct (replaceMail_outcomes sampleHost foldedHeader true false
              (fun _ => sampleHost_valid)) as [H1 _].
  destruct (replaceMail_outcomes sampleHost sampleMail true false
              (fun _ => sampleHost_valid)) as [_ H2].
  split.
  - apply H1. split; vm_compute; reflexivity.
  - apply H2. right. vm_compute. reflexivity.
Defined.

Lemma first_match_unique (f : Uint8Array -> bool) (pre : Lines) (x : Uint8Array)
  (post pre' : Lines) (x' : Uint8Array) (post' : Lines) :
  pre ++ x :: post = pre' ++ x' :: post' ->
  forallb (fun l => negb (f l)) pre = true -> f x = true ->
  forallb (fun l => negb (f l)) pre' = true -> f x' = true ->
  pre' = pre /\ x' = x /\ post' = post.
Proof.
  revert pre'. induction pre as [|y pre IH]; intros pre' E Hpre Hx Hpre' Hx'.
  - destruct pre' as [|y' pre'']; simpl in E.
    + injection E as -> ->. repeat split.
    + injection E as -> _. simpl in Hpre'. rewrite Hx in Hpre'. discriminate.
  - simpl in Hpre. apply andb_true_iff in Hpre. destruct Hpre as [Hy Hpre].
    destruct pre' as [|y' pre'']; simpl in E.
    + injection E as -> _. rewrite Hx' in Hy. discriminate.
    + injection E as <- E. simpl in Hpre'. apply andb_true_iff in Hpre'.
      destruct (IH pre'' E Hpre Hx (proj2 Hpre') Hx') as (-> & -> & ->). repeat split.
Qed.

(** X15. The Date rewrite collapses a folded Date field to one physical
    line whenever the lines after the Date line are not all folded (some
    other field follows) or there is none: the first Date field of the
    output is the generated line alone. *)
Theorem replaceHeader_collapses_field (host : Host) (h : Uint8Array)
  (pre : Lines) (x : Uint8Array) (post : Lines) :
  validDate (now host) ->
  getLines h = pre ++ x :: post ->
  forallb (fun l => negb (beginsWith DATE_BYTES l)) pre = true ->
  beginsWith DATE_BYTES x = true ->
  post = [] \/ forallb isFoldedLine post = false ->
  exists out s,
    replaceHeader host h true false = Ok out
    /\ makeNowDateLine (now host) = Ok s
    /\ fieldOf DATE_BYTES (getLines out) = Some [encode s].
Proof.
  intros Hv E Hpre Hx Hpost.
  destruct (makeNowDateLine_valid _ Hv) as [s Hs].
  destruct (makeNowDateLine_line _ _ Hs) as [Hc Hb].
  assert (Hr : replaceDateLine host (getLines h)
               = Ok (pre ++ encode s :: dropFoldedLine post)).
  { unfold replaceDateLine.
    destruct (replaceLine_cases DATE_BYTES (getLines h) isDateLine
                (fun _ => makeNowDateLine (now host)) isDateLine_spec)
      as [[H1 _] | (pre' & x' & post' & E' & H1 & H2 & H3)].
    - rewrite E, forallb_app in H1. cbn [forallb] in H1. rewrite Hx in H1.
      cbn [negb andb] in H1. rewrite andb_false_r in H1. discriminate.
    - rewrite H3, Hs. cbn [bind].
      assert (Hsame : pre' = pre /\ x' = x /\ post' = post).
      { rewrite E in E'. exact (first_match_unique _ _ _ _ _ _ _ E' Hpre Hx H1 H2). }
      destruct Hsame as (-> & -> & ->). reflexivity. }
  exists (List.concat (pre ++ encode s :: dropFoldedLine post)), s.
  unfold replaceHeader. cbn [andb negb]. rewrite Hr. cbn [bind].
  rewrite concatBytes_spec. split; [reflexivity|]. split; [exact Hs|].
  assert (Hshape : LineShape (pre ++ encode s :: dropFoldedLine post)).
  { pose proof (getLines_shape h) as Hsh. rewrite E in Hsh.
    destruct (LineShape_split _ _ _ Hsh) as [H1 H2].
    apply LineShape_build; [exact H1 | exact Hc | apply LineShape_dropFoldedLine, H2]. }
  rewrite getLines_concat_field by (exact Hshape || discriminate).
  rewrite (fieldOf_first _ _ _ _ Hpre Hb). do 2 f_equal.
  rewrite dropFoldedLine_spec. destruct Hpost as [-> | Hpost]; [reflexivity|].
  rewrite Hpost. apply takeWhile_dropWhile_nil.
Qed.

Lemma replaceHeader_collapses_field_witness :
  exists out,
    replaceHeader sampleHost foldedHeader true false = Ok out
    /\ fieldOf DATE_BYTES (getLines out)
       = Some [encode ("Date: Sun, 26 Jul 2020 22:01:37 +0900" ++ CRLF)].
Proof.
  destruct (replaceHeader_collapses_field sampleHost foldedHeader
              (firstn 3 (getLines foldedHeader)) (nth 3 (getLines foldedHeader) [])
              (skipn 4 (getLines foldedHeader)) sampleHost_valid)
    as (out & s & H1 & H2 & H3); try (vm_compute; reflexivity).
  - right. vm_compute. reflexivity.
  - exists out. split; [exact H1|]. rewrite H3.
    assert (Hs : makeNowDateLine (now sampleHost)
                 = Ok ("Date: Sun, 26 Jul 2020 22:01:37 +0900" ++ CRLF)%string)
      by reflexivity.
    rewrite Hs in H2. apply Ok_inj in H2. subst s. reflexivity.
Defined.

(** ** The SMTP session *)

Lemma recvLine_loop_final (fuel : nat) (id : option Z) (st : Session)
  (skipped : list JsString) (final : JsString) (rest : list JsString) :
  reader st = skipped ++ final :: rest ->
  forallb (fun l => negb (isLastReply l)) skipped = true ->
  isLastReply final = true ->
  (List.length skipped < fuel)%nat ->
  recvLine_loop fuel id st
  = (Ok {| ok := isPositiveReply final; msg := Some final |},
     afterReading st rest (map (LogRecv (makeIdPrefix id)) (skipped ++ [final]))).
Proof.
  revert fuel st. induction skipped as [|l skipped IH]; intros fuel st Hr Hs Hf Hfuel.
  - destruct fuel as [|fuel]; [simpl in Hfuel; lia|].
    cbn [recvLine_loop]. unfold bindIO, readLine, consoleLog, ret. rewrite Hr. simpl app.
    cbn iota beta. rewrite Hf. unfold afterReading, makeError.
    destruct (isPositiveReply final); reflexivity.
  - destruct fuel as [|fuel]; [simpl in Hfuel; lia|].
    simpl in Hs. apply andb_true_iff in Hs. destruct Hs as [Hl Hs].
    apply negb_true_iff in Hl.
    cbn [recvLine_loop]. unfold bindIO at 1 2. unfold readLine, consoleLog.
    rewrite Hr. simpl app. cbn iota beta. rewrite Hl.
    erewrite (IH fuel); [|reflexivity|exact Hs|exact Hf|simpl in Hfuel; lia].
    unfold afterReading. cbn [wire reader closed console map app].
    rewrite <- app_assoc. reflexivity.
Qed.

Lemma recvLine_loop_eof (fuel : nat) (id : option Z) (st : Session) :
  forallb (fun l => negb (isLastReply l)) (reader st) = true ->
  (List.length (reader st) < fuel)%nat ->
  recvLine_loop fuel id st
  = (Ok (makeError (codeUnits "Connection closed by foreign host")),
     afterReading st [] (map (LogRecv (makeIdPrefix id)) (reader st))).
Proof.
  remember (reader st) as r eqn:Er. revert fuel st Er.
  induction r as [|l r IH]; intros fuel st Er Hs Hfuel.
  - destruct fuel as [|fuel]; [simpl in Hfuel; lia|].
    cbn [recvLine_loop]. unfold bindIO, readLine, ret. rewrite <- Er.
    unfold afterReading. simpl. rewrite app_nil_r.
    destruct st; simpl in *; subst; reflexivity.
  - destruct fuel as [|fuel]; [simpl in Hfuel; lia|].
    simpl in Hs. apply andb_true_iff in Hs. destruct Hs as [Hl Hs].
    apply negb_true_iff in Hl.
    cbn [recvLine_loop]. unfold bindIO at 1 2. unfold readLine, consoleLog.
    rewrite <- Er. cbn iota beta. rewrite Hl.
    erewrite (IH fuel); [|reflexivity|exact Hs|simpl in Hfuel; lia].
    unfold afterReading. cbn [wire reader closed console map app].
    rewrite <- app_assoc. reflexivity.
Qed.

Lemma first_last_reply (r : list JsString) :
  forallb (fun l => negb (isLastReply l)) r = true
  \/ exists skipped final rest,
       r = skipped ++ final :: rest
       /\ forallb (fun l => negb (isLastReply l)) skipped = true
       /\ isLastReply final = true.
Proof.
  induction r as [|l r IH]; [left; reflexivity|].
  destruct (isLastReply l) eqn:E.
  - right. exists [], l, r. repeat split. exact E.
  - destruct IH as [H | (skipped & final & rest & -> & H1 & H2)].
    + left. simpl. rewrite E. exact H.
    + right. exists (l :: skipped), final, rest. simpl. rewrite E. repeat split; assumption.
Qed.

(** X16. [recvLine] reads past the lines that are not a final reply line
    and stops at the first that is: it returns that line, with [ok] true
    exactly when it is positive, and leaves the lines after it unread.  If
    the stream ends before any final line, it returns the failure
    "Connection closed by foreign host".  It logs every line it reads,
    writes nothing and never throws. *)
Theorem recvLine_reply (id : option Z) (st : Session) :
  (forall skipped final rest,
     reader st = skipped ++ final :: rest ->
     forallb (fun l => negb (isLastReply l)) skipped = true ->
     isLastReply final = true ->
     recvLine id st
     = (Ok {| ok := isPositiveReply final; msg := Some final |},
        afterReading st rest (map (LogRecv (makeIdPrefix id)) (skipped ++ [final]))))
  /\ (forallb (fun l => negb (isLastReply l)) (reader st) = true ->
      recvLine id st
      = (Ok (makeError (codeUnits "Connection closed by foreign host")),
         afterReading st [] (map (LogRecv (makeIdPrefix id)) (reader st)))).
Proof.
  split.
  - intros skipped final rest Hr Hs Hf. unfold recvLine.
    apply (recvLine_loop_final _ _ _ _ _ _ Hr Hs Hf).
    rewrite Hr, length_app. simpl. lia.
  - intros Hs. unfold recvLine. apply recvLine_loop_eof; [exact Hs | lia].
Qed.

Lemma recvLine_reply_witness :
  exists st',
    recvLine None sampleSession
    = (Ok {| ok := true; msg := Some (codeUnits "220 ready") |}, st')
    /\ List.length (reader st') = 4%nat.
Proof.
  destruct (recvLine_reply None sampleSession) as [H _].
  specialize (H [] (codeUnits "220 ready")
                (map codeUnits ["250-hello"; "250 ok"; "550 no"; "250 ok"]%string)
                eq_refl eq_refl eq_refl).
  eexists. split; [exact H | reflexivity].
Defined.

(** More fuel than [recvLine] takes changes nothing. *)
Lemma recvLine_enough_fuel (fuel : nat) (id : option Z) (st : Session) :
  (List.length (reader st) < fuel)%nat -> recvLine_loop fuel id st = recvLine id st.
Proof.
  intros Hfuel. unfold recvLine.
  destruct (first_last_reply (reader st)) as [H | (skipped & final & rest & Hr & H1 & H2)].
  - rewrite !recvLine_loop_eof by (assumption || lia). reflexivity.
  - rewrite !(recvLine_loop_final _ _ _ _ _ _ Hr H1 H2)
      by (rewrite Hr, length_app in *; simpl in *; lia).
    reflexivity.
Qed.

Lemma recvLine_runsTo (id : option Z) (st : Session) : runsTo (recvLine id) st [] None.
Proof.
  unfold runsTo.
  destruct (first_last_reply (reader st)) as [H | (skipped & final & rest & Hr & H1 & H2)].
  - exists (afterReading st [] (map (LogRecv (makeIdPrefix id)) (reader st))).
    rewrite (proj2 (recvLine_reply id st) H). simpl. rewrite app_nil_r.
    repeat split. eexists. reflexivity.
  - exists (afterReading st rest (map (LogRecv (makeIdPrefix id)) (skipped ++ [final]))).
    rewrite (proj1 (recvLine_reply id st) _ _ _ Hr H1 H2). simpl. rewrite app_nil_r.
    repeat split. eexists. reflexivity.
Qed.

Lemma runsTo_bind {A B : Type} (a : IO A) (k : A -> IO B) (st : Session)
  (w1 w2 : list Uint8Array) (t : option string) :
  runsTo a st w1 None ->
  (forall r st1, wire st1 = wire st ++ w1 -> closed st1 = closed st ->
                 runsTo (k r) st1 w2 t) ->
  runsTo (bindIO a k) st (w1 ++ w2) t.
Proof.
  intros (st1 & Hw & Hc & r & Ha) Hk.
  destruct (Hk r st1 Hw Hc) as (st2 & Hw2 & Hc2 & Hres).
  exists st2. rewrite Hw2, Hw, Hc2, Hc, app_assoc. repeat split.
  unfold bindIO. rewrite Ha. exact Hres.
Qed.

Lemma runsTo_bind_throw {A B : Type} (a : IO A) (k : A -> IO B) (st : Session)
  (w : list Uint8Array) (e : string) :
  runsTo a st w (Some e) -> runsTo (bindIO a k) st w (Some e).
Proof.
  intros (st1 & Hw & Hc & Ha). exists st1. repeat split; try assumption.
  unfold bindIO. rewrite Ha. reflexivity.
Qed.

Lemma runsTo_ret {A : Type} (a : A) (st : Session) : runsTo (ret a) st [] None.
Proof.
  exists st. rewrite app_nil_r. repeat split. eexists. reflexivity.
Qed.

Lemma runsTo_consoleLog (e : LogEntry) (st : Session) : runsTo (consoleLog e) st [] None.
Proof.
  eexists. unfold consoleLog. split; [|split; [|eexists; reflexivity]].
  - simpl. rewrite app_nil_r. reflexivity.
  - reflexivity.
Qed.

Lemma runsTo_writeAll (buf : Uint8Array) (st : Session) :
  runsTo (writeAll buf) st [buf] None.
Proof.
  eexists. unfold writeAll. split; [|split; [|eexists; reflexivity]]; reflexivity.
Qed.

Lemma sendCmd_runsTo (id : option Z) (cmd : string) (st : Session) :
  runsTo (sendCmd id cmd) st [commandBytes cmd] None.
Proof.
  unfold sendCmd.
  apply (runsTo_bind (sendLine cmd id) (fun _ => recvLine id) st [commandBytes cmd] [] None).
  - unfold sendLine.
    apply (runsTo_bind (consoleLog _) (fun _ => writeAll _) st [] [commandBytes cmd] None).
    + apply runsTo_consoleLog.
    + intros _ st1 _ _. apply runsTo_writeAll.
  - intros _ st1 _ _. apply recvLine_runsTo.
Qed.

(** X17. Sending a command writes the command and CRLF to the connection,
    once, whatever the server then answers and even when the stream has
    ended; it does not throw.  The CRLF-dot command goes out as
    CR LF . CR LF, while the log shows it as "<CRLF>.". *)
Theorem sendCmd_writes (id : option Z) (cmd : string) (st : Session) :
  (exists r st',
     sendCmd id cmd st = (Ok r, st')
     /\ wire st' = wire st ++ [encode (cmd ++ CRLF)]
     /\ closed st' = closed st
     /\ nth_error (console st') (List.length (console st))
        = Some (LogSend (makeIdPrefix id) (replaceCrlfDot cmd)))
  /\ replaceCrlfDot (CRLF ++ ".") = "<CRLF>."%string
  /\ (cmd <> (CRLF ++ ".")%string -> replaceCrlfDot cmd = cmd).
Proof.
  split; [|split].
  - unfold sendCmd, sendLine, bindIO, consoleLog, writeAll.
    cbn [wire reader closed console].
    set (st1 := {| wire := wire st ++ [encode (cmd ++ CRLF)]; reader := reader st;
                   closed := closed st;
                   console := console st
                              ++ [LogSend (makeIdPrefix id) (replaceCrlfDot cmd)] |}).
    destruct (recvLine_runsTo id st1) as (st' & Hw & Hc & r & Hr).
    exists r, st'. rewrite Hr, Hw, Hc, app_nil_r. repeat split.
    destruct (first_last_reply (reader st1))
      as [H | (skipped & final & rest & Hrd & H1 & H2)].
    + rewrite (proj2 (recvLine_reply id st1) H) in Hr. injection Hr as _ <-.
      simpl. rewrite <- app_assoc. rewrite nth_error_app2, Nat.sub_diag by lia. reflexivity.
    + rewrite (proj1 (recvLine_reply id st1) _ _ _ Hrd H1 H2) in Hr. injection Hr as _ <-.
      simpl. rewrite <- app_assoc. rewrite nth_error_app2, Nat.sub_diag by lia. reflexivity.
  - reflexivity.
  - intros Hne. unfold replaceCrlfDot.
    destruct (String.eqb_spec cmd (CRLF ++ ".")); [contradiction | reflexivity].
Qed.

Lemma sendCmd_writes_witness :
  replaceCrlfDot "QUIT" = "QUIT"%string.
Proof.
  apply (proj2 (proj2 (sendCmd_writes None "QUIT" sampleSession))). discriminate.
Defined.

Lemma sendRcptTo_runsTo (id : option Z) (addrs : list string) (st : Session) :
  runsTo (sendRcptTo (sendCmd id) addrs) st
    (map (fun addr => commandBytes ("RCPT TO: <" ++ addr ++ ">")) addrs) None.
Proof.
  revert st. induction addrs as [|a addrs IH]; intros st; simpl.
  - apply runsTo_ret.
  - apply (runsTo_bind (sendCmd id _) (fun _ => sendRcptTo (sendCmd id) addrs) st
             [commandBytes ("RCPT TO: <" ++ a ++ ">")] _ None).
    + apply sendCmd_runsTo.
    + intros _ st1 _ _. apply IH.
Qed.

Lemma liftOutcome_runsTo {A : Type} (o : Outcome A) (st : Session) :
  runsTo (liftOutcome o) st []
    (match o with Ok _ => None | Throw e => Some e end).
Proof.
  exists st. rewrite app_nil_r. repeat split.
  destruct o; [eexists|]; reflexivity.
Qed.

Lemma sendMail_runsTo (host : Host) (fs : Files) (settings : Settings)
  (file : string) (id : option Z) (st : Session) :
  match mailPayload host fs settings file with
  | Ok payload =>
      runsTo (sendMail host fs file (updateDate settings) (updateMessageId settings) id)
        st [payload] None
  | Throw e =>
      runsTo (sendMail host fs file (updateDate settings) (updateMessageId settings) id)
        st [] (Some e)
  end.
Proof.
  unfold mailPayload, sendMail, runsTo, bindIO, consoleLog, liftOutcome, writeAll, ret.
  destruct (readFile fs file) as [mail|e]; cbn [bind].
  - destruct (replaceMail host mail (updateDate settings) (updateMessageId settings))
      as [[res|]|e]; cbn [bind].
    + eexists. split; [|split; [|eexists; reflexivity]]; reflexivity.
    + eexists. split; [|split; [|eexists; reflexivity]]; reflexivity.
    + eexists. split; [|split; [|reflexivity]]; [simpl; rewrite app_nil_r|]; reflexivity.
  - eexists. split; [|split; [|reflexivity]]; [simpl; rewrite app_nil_r|]; reflexivity.
Qed.

(** X18. [sendMail] writes one buffer: the rewritten mail, or, when the
    rewrite reports that the mail has no header/body boundary, the mail as
    it was read, after logging the error.  If reading the file or the
    rewrite throws, nothing is written and the exception goes on. *)
Theorem sendMail_fallback (host : Host) (fs : Files) (file : string) (d m : bool)
  (id : option Z) (st : Session) :
  (forall e, readFile fs file = Throw e ->
     exists st', sendMail host fs file d m id st = (Throw e, st')
                 /\ wire st' = wire st)
  /\ (forall mail, readFile fs file = Ok mail ->
      (forall res, replaceMail host mail d m = Ok (Some res) ->
         exists st', sendMail host fs file d m id st = (Ok tt, st')
                     /\ wire st' = wire st ++ [res]
                     /\ console st' = console st ++ [LogSend (makeIdPrefix id) file])
      /\ (replaceMail host mail d m = Ok None ->
          exists st', sendMail host fs file d m id st = (Ok tt, st')
                      /\ wire st' = wire st ++ [mail]
                      /\ console st'
                         = console st
                           ++ [LogSend (makeIdPrefix id) file;
                               LogText
                                 "error: Invalid mail: Disable updateDate, updateMessageId"])
      /\ (forall e, replaceMail host mail d m = Throw e ->
          exists st', sendMail host fs file d m id st = (Throw e, st')
                      /\ wire st' = wire st)).
Proof.
  unfold sendMail, bindIO, consoleLog, liftOutcome, writeAll, ret. split.
  - intros e ->. eexists. split; reflexivity.
  - intros mail ->. split; [|split].
    + intros res ->. eexists. split; [reflexivity|]. split; [reflexivity|].
      simpl. reflexivity.
    + intros ->. eexists. split; [reflexivity|]. split; [reflexivity|].
      simpl. rewrite <- app_assoc. reflexivity.
    + intros e ->. eexists. split; reflexivity.
Qed.

Lemma sendMail_fallback_witness :
  (exists st',
     sendMail sampleHost sampleFiles "b.eml" true false None sampleSession = (Ok tt, st')
     /\ wire st' = [foldedHeader])
  /\ (exists st',
        sendMail sampleHost sampleFiles "none.eml" true false None sampleSession
        = (Throw "NotFound", st')
        /\ wire st' = []).
Proof.
  split.
  - destruct (proj2 (sendMail_fallback sampleHost sampleFiles "b.eml" true false None
                       sampleSession) foldedHeader eq_refl) as (_ & H & _).
    destruct (H ltac:(vm_compute; reflexivity)) as (st' & H1 & H2 & _).
    exists st'. split; [exact H1 | exact H2].
  - destruct (proj1 (sendMail_fallback sampleHost sampleFiles "none.eml" true false None
                       sampleSession) "NotFound"%string eq_refl) as (st' & H1 & H2).
    exists st'. split; [exact H1 | exact H2].
Defined.

Lemma sendMessages_files_runsTo (hosts : Hosts) (fs : Files) (settings : Settings)
  (id : option Z) (files : list string) (reset : bool) (st : Session) :
  runsTo (sendMessages_files hosts fs settings (sendCmd id) id files reset) st
    (fst (wirePlan hosts fs settings files reset))
    (snd (wirePlan hosts fs settings files reset)).
Proof.
  revert hosts reset st. induction files as [|file rest IH]; intros hosts reset st.
  - apply runsTo_ret.
  - cbn [sendMessages_files wirePlan]. unfold isFile.
    destruct (statIsFile fs file) as [[|]|e] eqn:Es.
    + (* a regular file *)
      assert (Hstat : forall (k : bool -> IO unit) w t,
                 runsTo (k true) st w t ->
                 runsTo (bindIO (liftOutcome (Ok true)) k) st w t).
      { intros k w t (st' & H1 & H2 & H3). exists st'. repeat split; assumption. }
      apply Hstat. cbn [negb].
      pose proof (sendMail_runsTo (hosts 0%nat) fs settings file id) as Hmail.
      destruct (mailPayload (hosts 0%nat) fs settings file) as [payload|e].
      * destruct (wirePlan (laterHosts hosts) fs settings rest true) as [w t] eqn:Ep.
        cbn [fst snd]. unfold messageHead. rewrite <- !app_assoc.
        apply runsTo_bind.
        { destruct reset.
          - apply (runsTo_bind (consoleLog _) _ st [] [commandBytes "RSET"] None);
              [apply runsTo_consoleLog|].
            intros _ st1 _ _.
            apply (runsTo_bind (sendRset (sendCmd id)) _ st1 [commandBytes "RSET"] [] None);
              [apply sendCmd_runsTo|].
            intros _ st2 _ _. apply runsTo_ret.
          - apply runsTo_ret. }
        intros _ st1 _ _.
        apply (runsTo_bind (sendFrom (sendCmd id) _) _ st1 [_] _ t);
          [apply sendCmd_runsTo|].
        intros _ st2 _ _. apply runsTo_bind; [apply sendRcptTo_runsTo|].
        intros _ st3 _ _.
        apply (runsTo_bind (sendData (sendCmd id)) _ st3 [_] _ t); [apply sendCmd_runsTo|].
        intros _ st4 _ _.
        apply (runsTo_bind (sendMail _ _ _ _ _ _) _ st4 [payload] _ t); [apply Hmail|].
        intros _ st5 _ _.
        apply (runsTo_bind (sendCrlfDot (sendCmd id)) _ st5 [_] _ t); [apply sendCmd_runsTo|].
        intros _ st6 _ _. specialize (IH (laterHosts hosts) true st6).
        rewrite Ep in IH. exact IH.
      * cbn [fst snd]. unfold messageHead.
        rewrite <- (app_nil_r (_ ++ _ ++ _ ++ [commandBytes "DATA"])), <- !app_assoc.
        apply runsTo_bind.
        { destruct reset.
          - apply (runsTo_bind (consoleLog _) _ st [] [commandBytes "RSET"] None);
              [apply runsTo_consoleLog|].
            intros _ st1 _ _.
            apply (runsTo_bind (sendRset (sendCmd id)) _ st1 [commandBytes "RSET"] [] None);
              [apply sendCmd_runsTo|].
            intros _ st2 _ _. apply runsTo_ret.
          - apply runsTo_ret. }
        intros _ st1 _ _.
        apply (runsTo_bind (sendFrom (sendCmd id) _) _ st1 [_] _ (Some e));
          [apply sendCmd_runsTo|].
        intros _ st2 _ _. apply runsTo_bind; [apply sendRcptTo_runsTo|].
        intros _ st3 _ _.
        apply (runsTo_bind (sendData (sendCmd id)) _ st3 [_] [] (Some e));
          [apply sendCmd_runsTo|].
        intros _ st4 _ _. apply runsTo_bind_throw. apply Hmail.
    + (* not a regular file: logged and skipped *)
      assert (Hstat : forall (k : bool -> IO unit) w t,
                 runsTo (k false) st w t ->
                 runsTo (bindIO (liftOutcome (Ok false)) k) st w t).
      { intros k w t (st' & H1 & H2 & H3). exists st'. repeat split; assumption. }
      apply Hstat. cbn [negb].
      apply (runsTo_bind (consoleLog _) _ st [] _ _); [apply runsTo_consoleLog|].
      intros _ st1 _ _. apply IH.
    + (* Deno.stat throws *)
      cbn [fst snd]. apply runsTo_bind_throw.
      apply (liftOutcome_runsTo (Throw e)).
Qed.

(** X19. What a session writes does not depend on what the server answers:
    whatever lines the server sends, negative replies and an early end of
    stream included, [sendMessages] writes EHLO, then for each path that is
    a regular file the commands of its message (RSET first unless it is the
    first message sent, MAIL FROM, one RCPT TO per recipient, DATA, the
    mail, CRLF-dot), skipping the paths that are not regular files, and
    then QUIT, and returns ok.  Each mail is rewritten under a clock
    reading and random draws of its own.  If [Deno.stat], [Deno.readFile]
    or the rewrite throws, the session stops there, without QUIT, and the
    exception goes on to the caller.  The connection is closed in every
    case.  (Writes to the connection are taken to succeed.) *)
Theorem sendMessages_wire (hosts : Hosts) (fs : Files) (settings : Settings)
  (files : list string) (id : option Z) (st : Session) :
  let plan := wirePlan hosts fs settings files false in
  exists st',
    sendMessages hosts fs settings files id st
    = (match snd plan with
       | None => Ok {| ok := true; msg := None |}
       | Some e => Throw e
       end, st')
    /\ wire st'
       = wire st ++ [commandBytes "EHLO localhost"] ++ fst plan
           ++ match snd plan with None => [commandBytes "QUIT"] | Some _ => [] end
    /\ closed st' = true.
Proof.
  intros plan. unfold sendMessages, sendMessages_try.
  destruct (recvLine_runsTo id st) as (st1 & Hw1 & _ & r1 & E1).
  destruct (sendCmd_runsTo id "EHLO localhost" st1) as (st2 & Hw2 & _ & r2 & E2).
  destruct (sendMessages_files_runsTo hosts fs settings id files false st2)
    as (st3 & Hw3 & _ & E3).
  fold plan in Hw3, E3.
  unfold bindIO at 1. rewrite E1. unfold bindIO at 1. unfold sendHello. rewrite E2.
  unfold bindIO at 1.
  destruct (snd plan) as [e|].
  - rewrite E3. exists (closeConn st3). split; [reflexivity|]. split; [|reflexivity].
    simpl. rewrite Hw3, Hw2, Hw1. rewrite !app_nil_r, <- !app_assoc. reflexivity.
  - destruct E3 as [r3 E3]. rewrite E3.
    destruct (sendCmd_runsTo id "QUIT" st3) as (st4 & Hw4 & _ & r4 & E4).
    unfold bindIO, sendQuit. rewrite E4. unfold ret.
    exists (closeConn st4). split; [reflexivity|]. split; [|reflexivity].
    simpl. rewrite Hw4, Hw3, Hw2, Hw1. rewrite !app_nil_r, <- !app_assoc. reflexivity.
Qed.

Lemma wirePlan_sent (hosts : Hosts) (fs : Files) (settings : Settings)
  (files : list string) (payloads : list Uint8Array) (reset : bool) :
  Forall (fun f => statIsFile fs f = Ok true \/ statIsFile fs f = Ok false) files ->
  sentPayloads hosts fs settings (filter (regularFile fs) files) = Ok payloads ->
  wirePlan hosts fs settings files reset = (messagesWire settings payloads reset, None).
Proof.
  intros H. revert hosts payloads reset.
  induction H as [|f files Hf Hfiles IH]; intros hosts payloads reset Hp.
  - simpl in Hp. apply Ok_inj in Hp. subst payloads. reflexivity.
  - cbn [wirePlan filter] in *. unfold regularFile at 1 in Hp.
    destruct Hf as [Hf | Hf]; rewrite Hf in *.
    + cbn [sentPayloads] in Hp.
      destruct (mailPayload (hosts 0%nat) fs settings f) as [payload|e];
        [|discriminate Hp].
      cbn [bind] in Hp.
      destruct (sentPayloads (laterHosts hosts) fs settings
                  (filter (regularFile fs) files)) as [ps|e] eqn:Eps;
        [|discriminate Hp].
      cbn [bind] in Hp. apply Ok_inj in Hp. subst payloads.
      rewrite (IH (laterHosts hosts) ps true Eps). reflexivity.
    + apply IH, Hp.
Qed.

(** X20. The transcript of a session whose paths are regular files that can
    be read and rewritten, or are not regular files at all: EHLO; for the
    regular files in order, MAIL FROM, one RCPT TO per recipient, DATA, the
    mail and CRLF-dot, preceded by RSET but for the first of them; QUIT.
    The mail of the [k]-th regular file is rewritten under the clock
    reading and the draws of the [k]-th call of [sendMail].  The paths
    that are not regular files leave nothing on the wire. *)
Theorem sendMessages_transcript (hosts : Hosts) (fs : Files) (settings : Settings)
  (files : list string) (payloads : list Uint8Array) (id : option Z) (st : Session) :
  Forall (fun f => statIsFile fs f = Ok true \/ statIsFile fs f = Ok false) files ->
  sentPayloads hosts fs settings (filter (regularFile fs) files) = Ok payloads ->
  exists st',
    sendMessages hosts fs settings files id st = (Ok {| ok := true; msg := None |}, st')
    /\ wire st'
       = wire st ++ [commandBytes "EHLO localhost"]
           ++ messagesWire settings payloads false
           ++ [commandBytes "QUIT"]
    /\ closed st' = true.
Proof.
  intros H Hp.
  destruct (sendMessages_wire hosts fs settings files id st) as (st' & H1 & H2 & H3).
  rewrite (wirePlan_sent hosts fs settings files payloads false H Hp) in H1, H2.
  exists st'. repeat split; assumption.
Qed.

Lemma sendMessages_transcript_witness :
  exists st' first second,
    sendMessages sampleHosts sampleFiles sampleSettings ["a.eml"; "dir"; "a.eml"]%string
      None sampleSession
    = (Ok {| ok := true; msg := None |}, st')
    /\ map string_of_list_byte (wire st')
       = ["EHLO localhost" ++ CRLF; "MAIL FROM: <a001@ah62.example.jp>" ++ CRLF;
          "RCPT TO: <a001@ah62.example.jp>" ++ CRLF;
          "RCPT TO: <a002@ah62.example.jp>" ++ CRLF; "DATA" ++ CRLF;
          first; CRLF ++ "." ++ CRLF; "RSET" ++ CRLF;
          "MAIL FROM: <a001@ah62.example.jp>" ++ CRLF;
          "RCPT TO: <a001@ah62.example.jp>" ++ CRLF;
          "RCPT TO: <a002@ah62.example.jp>" ++ CRLF; "DATA" ++ CRLF;
          second; CRLF ++ "." ++ CRLF; "QUIT" ++ CRLF]%string
    /\ mailPayload (sampleHosts 0%nat) sampleFiles sampleSettings "a.eml"
       = Ok (list_byte_of_string first)
    /\ mailPayload (sampleHosts 1%nat) sampleFiles sampleSettings "a.eml"
       = Ok (list_byte_of_string second)
    /\ first <> second
    /\ closed st' = true.
Proof.
  destruct (sentPayloads sampleHosts sampleFiles sampleSettings ["a.eml"; "a.eml"]%string)
    as [ps|e] eqn:Ep; [|vm_compute in Ep; discriminate Ep].
  destruct (sendMessages_transcript sampleHosts sampleFiles sampleSettings
              ["a.eml"; "dir"; "a.eml"]%string ps None sampleSession)
    as (st' & H1 & H2 & H3).
  - apply Forall_cons; [left; reflexivity|].
    apply Forall_cons; [right; reflexivity|].
    apply Forall_cons; [left; reflexivity | apply Forall_nil].
  - exact Ep.
  - vm_compute in Ep. apply Ok_inj in Ep. subst ps.
    eexists st', _, _. split; [exact H1|]. split; [rewrite H2; vm_compute; reflexivity|].
    split; [vm_compute; reflexivity|]. split; [vm_compute; reflexivity|].
    split; [discriminate | exact H3].
Defined.

(** ** The other revisions *)

Lemma Z_range_Forall (P : Z -> Prop) (lo : Z) (n : nat) :
  Forall P (map (fun j => lo + Z.of_nat j) (seq 0 n)) ->
  forall i, lo <= i < lo + Z.of_nat n -> P i.
Proof.
  intros H i Hi. rewrite Forall_forall in H. apply H.
  apply in_map_iff. exists (Z.to_nat (i - lo)). split; [lia|]. apply in_seq. lia.
Qed.

Lemma timezone_whole_hours (fractionText : Z -> string) (k : Z) :
  Sendeml_src_date.timezone fractionText (60 * k)
  = (Sendeml_src_date.lzero k ++ "00")%string.
Proof.
  unfold Sendeml_src_date.timezone.
  assert (Hm : (60 * k) mod 60 = 0) by (rewrite Z.mul_comm; apply Z_mod_mult).
  assert (Hd : 60 * k / 60 = k) by (rewrite Z.mul_comm; apply Z_div_mult; lia).
  assert (Hr : Z.rem (60 * k) 60 = 0) by (rewrite Z.mul_comm; apply Z.rem_mul; lia).
  rewrite Hm, Hd, Hr. reflexivity.
Qed.

(** X21. The Date line of src/src/sendeml.ts always carries a "+" before
    its time-zone digits.  For an offset of whole hours at or ahead of UTC
    (0 to 14 hours) the token is the one [makeTimeZoneOffset] gives; for
    whole hours behind UTC the sign is lost: 1 to 9 hours behind print as
    "+-H00", 10 to 12 hours behind as "+HH00". *)
Theorem src_timezone_whole_hours (fractionText : Z -> string) (obj : DateObj) (h : Z) :
  getTimezoneOffset obj = 60 * h ->
  (exists front,
     Sendeml_src_date.makeNowDateLine fractionText obj
     = (front ++ " +" ++ Sendeml_src_date.timezone fractionText (- (60 * h))
          ++ CRLF)%string)
  /\ (-14 <= h <= 0 ->
      makeTimeZoneOffset (60 * h)
      = Ok ("+" ++ Sendeml_src_date.timezone fractionText (- (60 * h)))%string)
  /\ (1 <= h <= 9 ->
      Sendeml_src_date.timezone fractionText (- (60 * h))
      = ("-" ++ numberToString h ++ "00")%string
      /\ makeTimeZoneOffset (60 * h) = Ok ("-0" ++ numberToString h ++ "00")%string)
  /\ (10 <= h <= 12 ->
      Sendeml_src_date.timezone fractionText (- (60 * h))
      = (numberToString h ++ "00")%string
      /\ makeTimeZoneOffset (60 * h) = Ok ("-" ++ numberToString h ++ "00")%string).
Proof.
  intros Htz.
  replace (- (60 * h)) with (60 * (- h)) by lia. rewrite timezone_whole_hours.
  split; [|split; [|split]].
  - unfold Sendeml_src_date.makeNowDateLine. rewrite Htz.
    replace (- (60 * h)) with (60 * (- h)) by lia. rewrite timezone_whole_hours.
    eexists. rewrite <- !append_assoc. reflexivity.
  - intros Hh. clear Htz. revert h Hh.
    assert (H : forall i, -14 <= i < -14 + Z.of_nat 15 ->
              makeTimeZoneOffset (60 * i)
              = Ok ("+" ++ Sendeml_src_date.lzero (- i) ++ "00")%string).
    { apply Z_range_Forall. repeat constructor. }
    intros h Hh. apply H. lia.
  - intros Hh. clear Htz. revert h Hh.
    assert (H : forall i, 1 <= i < 1 + Z.of_nat 9 ->
              (Sendeml_src_date.lzero (- i) ++ "00")%string
              = ("-" ++ numberToString i ++ "00")%string
              /\ makeTimeZoneOffset (60 * i)
                 = Ok ("-0" ++ numberToString i ++ "00")%string).
    { apply Z_range_Forall. repeat constructor. }
    intros h Hh. apply H. lia.
  - intros Hh. clear Htz. revert h Hh.
    assert (H : forall i, 10 <= i < 10 + Z.of_nat 3 ->
              (Sendeml_src_date.lzero (- i) ++ "00")%string
              = (numberToString i ++ "00")%string
              /\ makeTimeZoneOffset (60 * i)
                 = Ok ("-" ++ numberToString i ++ "00")%string).
    { apply Z_range_Forall. repeat constructor. }
    intros h Hh. apply H. lia.
Qed.

Lemma src_timezone_whole_hours_witness :
  Sendeml_src_date.makeNowDateLine (fun _ => ""%string) (dateWithOffset 300)
  = ("Date: Sun, 26 Jul 2020 22:01:37 +-500" ++ CRLF)%string
  /\ makeTimeZoneOffset 300 = Ok "-0500"%string.
Proof.
  destruct (src_timezone_whole_hours (fun _ => ""%string) (dateWithOffset 300) 5 eq_refl)
    as (_ & _ & H & _).
  destruct (H ltac:(lia)) as [_ H2]. split; [reflexivity | exact H2].
Defined.

Lemma matchHeaderField_loop_spec (h hpre l lpre : Uint8Array) :
  len lpre = len hpre ->
  Sendeml_first.matchHeaderField_loop (List.length h) (lpre ++ l) (hpre ++ h) (len hpre)
  = beginsWith h l.
Proof.
  revert hpre l lpre. induction h as [|a h IH]; intros hpre l lpre Hlen.
  - reflexivity.
  - cbn [List.length Sendeml_first.matchHeaderField_loop beginsWith].
    unfold Sendeml_first.differAt.
    assert (Ha : at_ (hpre ++ a :: h) (len hpre) = Some a).
    { pose proof (at_app_r hpre (a :: h) 0 ltac:(lia)) as H.
      rewrite Z.add_0_r in H. exact H. }
    assert (Hb : at_ (lpre ++ l) (len hpre) = at_ l 0).
    { rewrite <- Hlen. pose proof (at_app_r lpre l 0 ltac:(lia)) as H.
      rewrite Z.add_0_r in H. exact H. }
    rewrite Ha, Hb. destruct l as [|b l].
    + reflexivity.
    + change (at_ (b :: l) 0) with (Some b). cbn iota.
      destruct (Byte.eqb a b); [|reflexivity]. cbn [negb andb].
      replace (hpre ++ a :: h) with ((hpre ++ [a]) ++ h) by (rewrite <- app_assoc; reflexivity).
      replace (lpre ++ b :: l) with ((lpre ++ [b]) ++ l) by (rewrite <- app_assoc; reflexivity).
      replace (len hpre + 1) with (len (hpre ++ [a]))
        by (rewrite len_app, len_cons, len_nil; lia).
      apply IH. rewrite !len_app, Hlen. reflexivity.
Qed.

(** X22. [matchHeaderField], the matcher of the first revision, answers
    whether the line begins with the field name, as [matchHeader] does, but
    for the empty name, which it accepts for every line where [matchHeader]
    throws. *)
Theorem matchHeaderField_characterized (line header : Uint8Array) :
  Sendeml_first.matchHeaderField line header = beginsWith header line
  /\ Sendeml_first.matchHeaderField line [] = true
  /\ (header <> [] ->
      matchHeader line header = Ok (Sendeml_first.matchHeaderField line header)).
Proof.
  assert (E : Sendeml_first.matchHeaderField line header = beginsWith header line).
  { unfold Sendeml_first.matchHeaderField.
    destruct (Z.ltb_spec (len line) (len header)) as [Hlt | _].
    - destruct (beginsWith header line) eqn:Eb; [|reflexivity].
      apply beginsWith_spec in Eb. destruct Eb as [rest ->].
      rewrite len_app in Hlt. pose proof (len_nonneg rest). lia.
    - apply (matchHeaderField_loop_spec header [] line []). reflexivity. }
  split; [exact E|]. split.
  - unfold Sendeml_first.matchHeaderField. pose proof (len_nonneg line).
    destruct (Z.ltb_spec (len line) (len (@nil byte))); [rewrite len_nil in *; lia|].
    reflexivity.
  - intros Hne. rewrite E. apply matchHeader_spec, Hne.
Qed.

Lemma matchHeaderField_characterized_witness :
  matchHeader (encode "Test: x") (encode "Test:")
  = Ok (Sendeml_first.matchHeaderField (encode "Test: x") (encode "Test:")).
Proof.
  apply (matchHeaderField_characterized (encode "Test: x") (encode "Test:")).
  discriminate.
Defined.

Lemma setAt_middle {A : Type} (pre : list A) (x v : A) (post : list A) :
  Sendeml_first.setAt (pre ++ x :: post) (len pre) v = pre ++ v :: post.
Proof.
  unfold Sendeml_first.setAt. pose proof (len_nonneg pre). pose proof (len_nonneg post).
  destruct (Z.leb_spec 0 (len pre)); [|lia].
  destruct (Z.ltb_spec (len pre) (len (pre ++ x :: post))) as [_ | Hge];
    [|rewrite len_app, len_cons in Hge; lia].
  cbn [andb]. unfold len. rewrite Nat2Z.id.
  rewrite firstn_app, firstn_all, Nat.sub_diag. simpl firstn. rewrite app_nil_r.
  f_equal. f_equal.
  replace (S (List.length pre)) with (List.length (pre ++ [x]))
    by (rewrite length_app; simpl; lia).
  replace (pre ++ x :: post) with ((pre ++ [x]) ++ post) by (rewrite <- app_assoc; reflexivity).
  rewrite skipn_app, skipn_all, Nat.sub_diag. reflexivity.
Qed.

Lemma removeFolding_loop_spec (fuel : nat) (pre post lines : Lines) (i : Z) :
  lines = pre ++ post ->
  i = len pre ->
  (List.length post <= fuel)%nat ->
  Sendeml_first.removeFolding_loop fuel lines i
  = pre ++ map (fun _ => []) (takeWhile isFoldedLine post)
        ++ dropWhile isFoldedLine post.
Proof.
  revert pre post lines i.
  induction fuel as [|fuel IH]; intros pre post lines i -> -> Hfuel.
  - destruct post; [|simpl in Hfuel; lia]. simpl. rewrite !app_nil_r. reflexivity.
  - cbn [Sendeml_first.removeFolding_loop]. destruct post as [|x post].
    + rewrite app_nil_r. destruct (Z.ltb_spec (len pre) (len pre)); [lia|].
      simpl. rewrite app_nil_r. reflexivity.
    + pose proof (len_nonneg pre). pose proof (len_nonneg post).
      destruct (Z.ltb_spec (len pre) (len (pre ++ x :: post))) as [_ | Hge];
        [|rewrite len_app, len_cons in Hge; lia].
      assert (Hx : at_ (pre ++ x :: post) (len pre) = Some x).
      { pose proof (at_app_r pre (x :: post) 0 ltac:(lia)) as Hx.
        rewrite Z.add_0_r in Hx. exact Hx. }
      rewrite Hx.
      cbn [takeWhile dropWhile]. destruct (isFoldedLine x).
      * rewrite setAt_middle.
        rewrite (IH (pre ++ [[]]) post).
        -- rewrite <- app_assoc. reflexivity.
        -- rewrite <- app_assoc. reflexivity.
        -- rewrite len_app, len_cons, len_nil. lia.
        -- simpl in Hfuel. lia.
      * reflexivity.
Qed.

Lemma concat_map_nil {A B : Type} (l : list A) :
  List.concat (map (fun _ => @nil B) l) = [].
Proof. induction l as [|x l IH]; simpl; [reflexivity | exact IH]. Qed.

(** X23. The rewrite of the first revision overwrites the first matching
    line with the new line and empties every folded line after it, up to
    the next line that is not folded or to the end of the array: the bytes
    it yields hold no continuation line of the replaced field, also when
    the field ends the header, where the [dropFoldedLine] of the later
    revisions keeps them.  Without the update flag or without a matching
    line the array is left as it is. *)
Theorem first_replaceLine_removes_folding (pre : Lines) (x : Uint8Array) (post : Lines)
  (matchLine : Uint8Array -> bool) (makeLine : unit -> string) :
  forallb (fun l => negb (matchLine l)) pre = true ->
  matchLine x = true ->
  let lines := pre ++ x :: post in
  Sendeml_first.replaceLine lines true matchLine makeLine
  = pre ++ encode (makeLine tt) :: map (fun _ => []) (takeWhile isFoldedLine post)
        ++ dropWhile isFoldedLine post
  /\ List.concat (Sendeml_first.replaceLine lines true matchLine makeLine)
     = List.concat pre ++ encode (makeLine tt) ++ List.concat (unfoldedTail post)
  /\ Sendeml_first.replaceLine lines false matchLine makeLine = lines
  /\ Sendeml_first.replaceLine pre true matchLine makeLine = pre.
Proof.
  intros Hpre Hx lines.
  assert (Hidx : forall i, findIndexAux matchLine (pre ++ x :: post) i = i + len pre).
  { intros i.
    destruct (findIndexAux_spec matchLine (pre ++ x :: post) i)
      as [[_ H] | (pre' & x' & post' & E & H1 & H2 & H3)].
    - rewrite forallb_app in H. simpl in H. rewrite Hx in H. simpl in H.
      rewrite andb_false_r in H. discriminate.
    - destruct (first_match_unique matchLine _ _ _ _ _ _ E Hpre Hx H1 H2) as (-> & _ & _).
      exact H3. }
  assert (Hnone : findIndexAux matchLine pre 0 = -1).
  { destruct (findIndexAux_spec matchLine pre 0)
      as [[H _] | (pre' & x' & post' & E & H1 & H2 & H3)]; [exact H|].
    rewrite E, forallb_app in Hpre. simpl in Hpre. rewrite H2 in Hpre. simpl in Hpre.
    rewrite andb_false_r in Hpre. discriminate. }
  assert (E : Sendeml_first.replaceLine lines true matchLine makeLine
              = pre ++ encode (makeLine tt) :: map (fun _ => []) (takeWhile isFoldedLine post)
                    ++ dropWhile isFoldedLine post).
  { unfold Sendeml_first.replaceLine, findIndex, lines. rewrite Hidx.
    pose proof (len_nonneg pre).
    destruct (Z.eqb_spec (0 + len pre) (-1)); [lia|]. cbn [negb].
    replace (0 + len pre) with (len pre) by lia. rewrite setAt_middle.
    unfold Sendeml_first.removeFolding.
    rewrite (removeFolding_loop_spec _ (pre ++ [encode (makeLine tt)]) post).
    - rewrite <- app_assoc. reflexivity.
    - rewrite <- app_assoc. reflexivity.
    - rewrite len_app, len_cons, len_nil. lia.
    - rewrite !length_app. simpl. lia. }
  split; [exact E|]. split; [|split].
  - rewrite E. rewrite concat_app. simpl. rewrite concat_app, concat_map_nil. reflexivity.
  - reflexivity.
  - unfold Sendeml_first.replaceLine, findIndex. rewrite Hnone. reflexivity.
Qed.

Lemma first_replaceLine_removes_folding_witness :
  List.concat
    (Sendeml_first.replaceLine
       [encode ("Date:" ++ CRLF); encode (" Sun, 26 Jul 2020" ++ CRLF);
        encode " 22:01:37 +0900"]
       true (beginsWith DATE_BYTES) (fun _ => ("Date: now" ++ CRLF)%string))
  = encode ("Date: now" ++ CRLF).
Proof.
  destruct (first_replaceLine_removes_folding []
              (encode ("Date:" ++ CRLF))
              [encode (" Sun, 26 Jul 2020" ++ CRLF); encode " 22:01:37 +0900"]
              (beginsWith DATE_BYTES) (fun _ => ("Date: now" ++ CRLF)%string)
              eq_refl eq_refl) as (_ & H & _).
  exact (eq_trans H eq_refl).
Defined.
